(** * json_validator 1.0.0.6: a shallow embedding and its verified properties

    The program under study is the Python 2 script [json_validator_v1.0.0.6.py]:
    a small family of [FieldChecker] classes that validate a decoded JSON value
    against a schema, a generator that re-joins physical lines split at
    U+2028 / U+2029, and a driver that validates a file line by line under an
    error budget.

    Conventions of the embedding.
    - A [unicode] object is the list of its code points ([ustring]).
    - A Python value is a term of [value]; a [dict] is an association list
      whose order is the iteration order of the dictionary.
    - The lists [errors] and [warnings], which the Python code mutates in
      place, are threaded through the functions (explicit state passing).
    - A call either returns or raises: [outcome].
    - The text of a message is kept as a syntax tree ([message]), one
      constructor per place of the source that builds a message; [render]
      gives the text the Python code concatenates.
    - [print] statements have no counterpart. *)

From Stdlib Require Import String Ascii DecimalString.
From Stdlib Require Import List ZArith NArith Bool Lia Permutation Sorted.
Import ListNotations.

Set Implicit Arguments.
#[local] Set Warnings "-register-all".

(** ** Unicode text *)

Definition ustring := list N.

(** [U "abc"] is the unicode object [u'abc'] (also used for ASCII [str]
    literals, which compare equal to their unicode counterparts). *)
Definition U (s : string) : ustring := map N_of_ascii (list_ascii_of_string s).

(** [s] between two double quotes (U+0022). *)
Definition quoted (s : ustring) : ustring := [34%N] ++ s ++ [34%N].

Fixpoint ustr_eqb (a b : ustring) : bool :=
  match a, b with
  | [], [] => true
  | x :: a', y :: b' => N.eqb x y && ustr_eqb a' b'
  | _, _ => false
  end.

(** [Py_UNICODE_ISSPACE] of CPython 2.7 (Unicode 5.2). *)
Definition isspace (c : N) : bool :=
  ((0x09 <=? c) && (c <=? 0x0D) || (0x1C <=? c) && (c <=? 0x20)
   || (c =? 0x85) || (c =? 0xA0) || (c =? 0x1680) || (c =? 0x180E)
   || (0x2000 <=? c) && (c <=? 0x200A) || (c =? 0x2028) || (c =? 0x2029)
   || (c =? 0x202F) || (c =? 0x205F) || (c =? 0x3000))%N.

Fixpoint lstrip (s : ustring) : ustring :=
  match s with
  | c :: s' => if isspace c then lstrip s' else s
  | [] => []
  end.

Definition rstrip (s : ustring) : ustring := rev (lstrip (rev s)).

(** [unicode.strip()] *)
Definition strip (s : ustring) : ustring := rstrip (lstrip s).

(** [str(n)] for an integer. *)
Definition str_of_Z (z : Z) : ustring := U (NilZero.string_of_int (Z.to_int z)).

(** ** Python values *)

(** A float is kept by its exact value: [Finite m e] is [m * 2^e]. *)
Inductive pyfloat : Type :=
| Finite (m e : Z)
| NaN
| Inf (negative : bool).

Inductive value : Type :=
| PyNone
| PyBool (b : bool)
| PyInt (z : Z)
| PyLong (z : Z)
| PyFloat (x : pyfloat)
| PyUnicode (s : ustring)
| PyList (l : list value)
| PyDict (d : list (ustring * value))
| PyObject.

Inductive pytype : Type :=
| NoneType | bool_t | int_t | long_t | float_t | unicode_t | list_t | dict_t
| object_t.

Definition pytype_eqb (a b : pytype) : bool :=
  match a, b with
  | NoneType, NoneType | bool_t, bool_t | int_t, int_t | long_t, long_t
  | float_t, float_t | unicode_t, unicode_t | list_t, list_t
  | dict_t, dict_t | object_t, object_t => true
  | _, _ => false
  end.

(** [type(x).__name__] *)
Definition __name__ (t : pytype) : ustring :=
  match t with
  | NoneType => U "NoneType" | bool_t => U "bool" | int_t => U "int"
  | long_t => U "long" | float_t => U "float" | unicode_t => U "unicode"
  | list_t => U "list" | dict_t => U "dict" | object_t => U "object"
  end.

(** [type(x)] *)
Definition type (x : value) : pytype :=
  match x with
  | PyNone => NoneType
  | PyBool _ => bool_t
  | PyInt _ => int_t
  | PyLong _ => long_t
  | PyFloat _ => float_t
  | PyUnicode _ => unicode_t
  | PyList _ => list_t
  | PyDict _ => dict_t
  | PyObject => object_t
  end.

(** [issubclass(a, b)]: everything derives from [object], [bool] from [int]. *)
Definition issubclass (a b : pytype) : bool :=
  match b with
  | object_t => true
  | int_t => pytype_eqb a int_t || pytype_eqb a bool_t
  | _ => pytype_eqb a b
  end.

Definition isinstance (x : value) (t : pytype) : bool := issubclass (type x) t.

(** [x == int()], the comparison of a value with the integer 0. *)
Definition eq_int0 (x : value) : bool :=
  match x with
  | PyBool b => negb b
  | PyInt z | PyLong z => (z =? 0)%Z
  | PyFloat (Finite m _) => (m =? 0)%Z
  | _ => false
  end.

(** ** Exceptions and outcomes *)

Inductive exn : Type :=
| TypeError
| ValueError
| OverflowError
| IndexError
| AssertionError
| UnicodeDecodeError (reason : ustring).

Inductive outcome (A : Type) : Type :=
| Returns (a : A)
| Raises (e : exn).

Arguments Returns {A} a.
Arguments Raises {A} e.

Definition bind {A B} (c : outcome A) (k : A -> outcome B) : outcome B :=
  match c with
  | Returns a => k a
  | Raises e => Raises e
  end.

Declare Scope py_scope.
Delimit Scope py_scope with py.
Notation "x <- c ;; k" := (bind c (fun x => k))
  (at level 61, c at next level, right associativity) : py_scope.
Notation "' p <- c ;; k" := (bind c (fun x => match x with p => k end))
  (at level 61, p pattern, c at next level, right associativity) : py_scope.
Open Scope py_scope.

(** ** Dictionaries *)

Section Dict.
Variable V : Type.

Definition dict := list (ustring * V).

(** [k in d] *)
Definition dict_contains (d : dict) (k : ustring) : bool :=
  existsb (fun kv => ustr_eqb (fst kv) k) d.

(** [d[k]] *)
Fixpoint dict_get (d : dict) (k : ustring) : option V :=
  match d with
  | [] => None
  | (k', v) :: d' => if ustr_eqb k' k then Some v else dict_get d' k
  end.

(** the dictionary left by [d.pop(k)] *)
Definition dict_remove (d : dict) (k : ustring) : dict :=
  filter (fun kv => negb (ustr_eqb (fst kv) k)) d.

(** [d.keys()] *)
Definition dict_keys (d : dict) : list ustring := map fst d.

(** [d[k] = v] *)
Fixpoint dict_set (d : dict) (k : ustring) (v : V) : dict :=
  match d with
  | [] => [(k, v)]
  | (k', v') :: d' =>
      if ustr_eqb k' k then (k', v) :: d' else (k', v') :: dict_set d' k v
  end.

(** [dict(pairs)]: a later pair overrides an earlier one with the same key *)
Definition dict_of_pairs (pairs : list (ustring * V)) : dict :=
  fold_left (fun d kv => dict_set d (fst kv) (snd kv)) pairs [].
End Dict.

(** [x in l] for a list of names *)
Definition name_in (x : ustring) (l : list ustring) : bool :=
  existsb (ustr_eqb x) l.

(** ** Messages *)

(** One constructor per place of the source that builds an error or a
    warning; the comment gives the line of the source. *)
Inductive message : Type :=
| ExpectedType (expected found : pytype)                    (* l.79 *)
| KeyValueIncorrectType (fieldName : ustring) (candidateField : value)
    (expected found : pytype)                               (* l.123, l.127 *)
| InvalidEntry (fieldName : ustring) (candidateField : value)
                                                            (* l.135, l.300 *)
| NotInList (candidate : ustring) (fields : list ustring)   (* l.170 *)
| InElement (pos : nat) (x : message)                       (* l.206-208 *)
| ElementIncorrectType (pos : nat) (expected found : pytype)(* l.212 *)
| InField (fieldName : ustring) (x : message)               (* l.282-285 *)
| FieldIncorrectType (fieldName : ustring) (expected found : pytype)
                                                            (* l.274 *)
| NotAllowedTogether (name unallowed : ustring)             (* l.304 *)
| MissingRequired (fieldName : ustring)                     (* l.319 *)
| UnexpectedField (fieldName : ustring)                     (* l.336 *)
| InvalidJSON (line : Z) (e : ustring)                      (* l.361 *)
| SchemaMismatch (line : Z) (validateErrors : list message) (* l.367 *)
| InvalidUTF8 (line : Z) (e : ustring).                     (* l.378 *)

Definition report := (list message * list message)%type.

Section Render.
(** [unicode(x)] and ['%r' % fields] are Python built-ins. *)
Variable unicode : value -> ustring.
Variable repr : list ustring -> ustring.

Definition join (sep : ustring) (l : list ustring) : ustring :=
  match l with
  | [] => []
  | x :: l' => x ++ concat (map (fun y => sep ++ y) l')
  end.

Fixpoint render (x : message) : ustring :=
  match x with
  | ExpectedType expected found =>
      U "Expected type: " ++ quoted (__name__ expected) ++ U ", "
        ++ U "but found type: " ++ quoted (__name__ found)
  | KeyValueIncorrectType fieldName candidateField expected found =>
      fieldName ++ U " " ++ quoted (unicode candidateField)
        ++ U " had incorrect type. " ++ U "Expected: "
        ++ quoted (__name__ expected) ++ U " " ++ U "but found: "
        ++ quoted (__name__ found)
  | InvalidEntry fieldName candidateField =>
      quoted fieldName
        ++ U " was required, but found an invalid entry of "
        ++ quoted (unicode candidateField)
  | NotInList candidate fields =>
      U "Element " ++ quoted candidate ++ U " was not in list "
        ++ repr fields ++ U " "
  | InElement pos x' =>
      U "Found error in element at index " ++ str_of_Z (Z.of_nat pos)
        ++ U ": " ++ render x'
  | ElementIncorrectType pos expected found =>
      U "Element at index " ++ str_of_Z (Z.of_nat pos)
        ++ U " had incorrect type. " ++ U "Expected: "
        ++ quoted (__name__ expected) ++ U " " ++ U "but found: "
        ++ quoted (__name__ found)
  | InField fieldName x' =>
      U "Found error in field " ++ quoted fieldName ++ U ": " ++ render x'
  | FieldIncorrectType fieldName expected found =>
      U "Field " ++ quoted fieldName ++ U " had incorrect type. "
        ++ U "Expected: " ++ quoted (__name__ expected) ++ U " "
        ++ U "but found: " ++ quoted (__name__ found)
  | NotAllowedTogether name unallowed =>
      U "Fields '" ++ name ++ U "' and '" ++ unallowed
        ++ U "' are not allowed to be attached to the same entity."
  | MissingRequired fieldName =>
      U "Did not find required field " ++ quoted fieldName
  | UnexpectedField fieldName =>
      U "Unexpected field " ++ quoted fieldName ++ U " found."
  | InvalidJSON line e =>
      U "Line " ++ str_of_Z line ++ U ": Found invalid JSON: " ++ e
  | SchemaMismatch line validateErrors =>
      U "Line " ++ str_of_Z line
        ++ U ": Found valid JSON which does not match expected schema:"
        ++ [10; 9]%N ++ join [10; 9]%N (map render validateErrors)
  | InvalidUTF8 line e =>
      U "Line " ++ str_of_Z line ++ U ": Found invalid UTF-8 characters.  "
        ++ U "Check the encoding of the input file: " ++ e
  end.
End Render.

(** ** Schemas *)

(** [class Field]: a name, an expected value and the names that must not
    accompany it.  [E] is the type of expected values. *)
Record Field_ (E : Type) : Type := mkField {
  name : ustring;
  expectedValue : E;
  disallowedFields : list ustring
}.

(** The four concrete subclasses of [FieldChecker].  An expected value is
    either an example instance of a built-in type ([unicode()], [int()],
    [bool()], [object()]) or a nested checker.  The constructor argument
    [all_required] is never read by the source and is left out. *)
Inductive FieldChecker : Type :=
| DictTypeChecker (expectedKeyTypeInstance expectedValueTypeInstance : expected)
| StringListChecker (fields : list ustring)
| ListTypeChecker (expectedTypeInstance : expected)
| DictFieldChecker (required optional historical : list (Field_ expected))
with expected : Type :=
| Instance (x : value)
| Checker (c : FieldChecker).

Definition Field := Field_ expected.

(** [Field(name, expectedValue, disallowedFields=[])] *)
Definition Field' (name : string) (expectedValue : expected) : Field :=
  mkField (U name) expectedValue [].

Definition topLevelType (c : FieldChecker) : pytype :=
  match c with
  | DictTypeChecker _ _ => dict_t
  | StringListChecker _ => unicode_t
  | ListTypeChecker _ => list_t
  | DictFieldChecker _ _ _ => dict_t
  end.

(** ** The checkers *)

(** [valid_entry], l.39-42 *)
Definition valid_entry (field : value) : bool :=
  match field with
  | PyUnicode s =>
      negb (existsb (fun x => match x with
                              | None => false
                              | Some t => ustr_eqb (strip s) t
                              end) [None; Some []])
  | _ => true
  end.

Section Validation.
(** [int(s)] for a unicode object [s] is a Python built-in: [None] stands
    for [ValueError]. *)
Variable int_of_text : ustring -> option Z.

(** [int(x)]: truncation for a float, conversion for text. *)
Definition int (x : value) : outcome Z :=
  match x with
  | PyBool b => Returns (if b then 1 else 0)%Z
  | PyInt z | PyLong z => Returns z
  | PyFloat (Finite m e) =>
      Returns (if (0 <=? e)%Z then m * 2 ^ e else Z.quot m (2 ^ (- e)))%Z
  | PyFloat NaN => Raises ValueError
  | PyFloat (Inf _) => Raises OverflowError
  | PyUnicode s =>
      match int_of_text s with
      | Some z => Returns z
      | None => Raises ValueError
      end
  | PyNone | PyList _ | PyDict _ | PyObject => Raises TypeError
  end.

(** The [validate] method of a checker, once the checker is known. *)
Definition validator := value -> bool -> outcome report.

(** An expected value whose nested checker, if any, is bound to its
    [validate] method. *)
Inductive bound : Type :=
| BInstance (x : value)
| BChecker (validate : validator).

(** *** [DictTypeChecker] *)

(** [DictTypeChecker._check_field], l.111-135.  With a nested checker the
    generator of l.114 concatenates a string and the list [errs], which
    raises [TypeError] once [validate] has returned. *)
Definition DictTypeChecker__check_field (fieldName : ustring)
    (candidateField : value) (expectedValue : bound)
    (errors warngings : list message) (required : bool) : outcome report :=
  errors <-
    match expectedValue with
    | BChecker validate =>
        _ <- validate candidateField false ;; Raises TypeError
    | BInstance expectedValue =>
        if negb (isinstance candidateField (type expectedValue)) then
          if eq_int0 expectedValue then
            match int candidateField with
            | Returns _ => Returns errors
            | Raises TypeError | Raises ValueError =>
                Returns (errors ++ [KeyValueIncorrectType fieldName
                           candidateField int_t (type candidateField)])
            | Raises e => Raises e
            end
          else
            Returns (errors ++ [KeyValueIncorrectType fieldName
                       candidateField (type expectedValue)
                       (type candidateField)])
        else Returns errors
    end ;;
  if required && negb (valid_entry candidateField) then
    Returns (errors, warngings ++ [InvalidEntry fieldName candidateField])
  else Returns (errors, warngings).

(** The loop of [DictTypeChecker._validate], l.142-144. *)
Fixpoint DictTypeChecker__loop (expectedKeyTypeInstance
    expectedValueTypeInstance : bound) (items : list (ustring * value))
    (errors warnings : list message) (required : bool) : outcome report :=
  match items with
  | [] => Returns (errors, warnings)
  | (key, value) :: items' =>
      '(errors, warnings) <-
        DictTypeChecker__check_field (U "key") (PyUnicode key)
          expectedKeyTypeInstance errors warnings required ;;
      '(errors, warnings) <-
        DictTypeChecker__check_field (U "value") value
          expectedValueTypeInstance errors warnings required ;;
      DictTypeChecker__loop expectedKeyTypeInstance
        expectedValueTypeInstance items' errors warnings required
  end.

(** [DictTypeChecker._validate], l.137-146 *)
Definition DictTypeChecker__validate (expectedKeyTypeInstance
    expectedValueTypeInstance : bound) : validator :=
  fun candidateDict required =>
    match candidateDict with
    | PyDict d =>
        DictTypeChecker__loop expectedKeyTypeInstance
          expectedValueTypeInstance d [] [] required
    | _ => Raises AssertionError
    end.

(** *** [StringListChecker] *)

(** [StringListChecker._validate], l.164-173 *)
Definition StringListChecker__validate (fields : list ustring) : validator :=
  fun candidate required =>
    match candidate with
    | PyUnicode s =>
        if negb (name_in s fields) then Returns ([NotInList s fields], [])
        else Returns ([], [])
    | _ => Raises AssertionError
    end.

(** *** [ListTypeChecker] *)

(** The loop of [ListTypeChecker._validate], l.204-217; [pos] is the
    counter of [enumerate]. *)
Fixpoint ListTypeChecker__loop (expectedTypeInstance : bound)
    (pos : nat) (candidateList : list value)
    (errors warnings : list message) (required : bool) : outcome report :=
  match candidateList with
  | [] => Returns (errors, warnings)
  | elem :: rest =>
      '(errors, warnings) <-
        match expectedTypeInstance with
        | BChecker validate =>
            '(errs, warns) <- validate elem required ;;
            Returns (errors ++ map (InElement pos) errs, warnings ++ warns)
        | BInstance x =>
            if negb (isinstance elem (type x)) then
              Returns (errors ++ [ElementIncorrectType pos (type x)
                                    (type elem)], warnings)
            else Returns (errors, warnings)
        end ;;
      ListTypeChecker__loop expectedTypeInstance (S pos) rest
        errors warnings required
  end.

(** [ListTypeChecker._validate], l.198-219 *)
Definition ListTypeChecker__validate (expectedTypeInstance : bound)
    : validator :=
  fun candidateList required =>
    match candidateList with
    | PyList l => ListTypeChecker__loop expectedTypeInstance 0 l [] [] required
    | _ => Raises AssertionError
    end.

(** *** [DictFieldChecker] *)

(** [DictFieldChecker._type_error], l.274-277 *)
Definition _type_error (fieldName : ustring) (expectedItem actualItem : value)
    : message :=
  FieldIncorrectType fieldName (type expectedItem) (type actualItem).

(** The loop over [validationField.disallowedFields], l.302-305. *)
Fixpoint disallowed_loop (name : ustring) (disallowedFields : list ustring)
    (candidateFields : list ustring) (errors : list message)
    : list message :=
  match disallowedFields with
  | [] => errors
  | unallowed :: rest =>
      disallowed_loop name rest candidateFields
        (if name_in unallowed candidateFields
         then errors ++ [NotAllowedTogether name unallowed]
         else errors)
  end.

(** [DictFieldChecker._check_field], l.279-305 *)
Definition DictFieldChecker__check_field (fieldName : ustring)
    (candidateField : value) (validationField : Field_ bound)
    (candidateFields : list ustring) (errors warnings : list message)
    (required : bool) : outcome report :=
  '(errors, warnings) <-
    match expectedValue validationField with
    | BChecker validate =>
        '(errs, warns) <- validate candidateField required ;;
        Returns (errors ++ map (InField fieldName) errs, warnings ++ warns)
    | BInstance expectedValue =>
        if negb (isinstance candidateField (type expectedValue)) then
          if pytype_eqb (type expectedValue) int_t then
            match int candidateField with
            | Returns _ => Returns (errors, warnings)
            | Raises TypeError | Raises ValueError =>
                Returns (errors ++ [_type_error fieldName (PyInt 0)
                                      candidateField], warnings)
            | Raises e => Raises e
            end
          else
            Returns (errors ++ [_type_error fieldName expectedValue
                                  candidateField], warnings)
        else Returns (errors, warnings)
    end ;;
  let warnings :=
    if required && negb (valid_entry candidateField)
    then warnings ++ [InvalidEntry fieldName candidateField]
    else warnings in
  Returns (disallowed_loop (name validationField)
             (disallowedFields validationField) candidateFields errors,
           warnings).

(** The first loop of [DictFieldChecker._validate], l.316-323: the
    required fields, each popped from the copy [candidate]. *)
Fixpoint required_loop (required : list (Field_ bound))
    (candidate : dict value) (candidate_fields : list ustring)
    (errors warnings : list message)
    : outcome (dict value * list message * list message) :=
  match required with
  | [] => Returns (candidate, errors, warnings)
  | field :: rest =>
      let fieldName := name field in
      match dict_get candidate fieldName with
      | None =>
          required_loop rest candidate candidate_fields
            (errors ++ [MissingRequired fieldName]) warnings
      | Some candidateField =>
          let candidate := dict_remove candidate fieldName in
          '(errors, warnings) <-
            DictFieldChecker__check_field fieldName candidateField field
              candidate_fields errors warnings true ;;
          required_loop rest candidate candidate_fields errors warnings
      end
  end.

(** The second loop, l.328-337, over the items left in [candidate];
    [candidate[fieldName]] is the value of the item. *)
Fixpoint remaining_loop (optional_dict : dict (Field_ bound))
    (items : list (ustring * value)) (candidate_fields : list ustring)
    (errors warnings : list message) : outcome report :=
  match items with
  | [] => Returns (errors, warnings)
  | (fieldName, candidateField) :: rest =>
      '(errors, warnings) <-
        match dict_get optional_dict fieldName with
        | Some validationField =>
            DictFieldChecker__check_field fieldName candidateField
              validationField candidate_fields errors warnings false
        | None => Returns (errors ++ [UnexpectedField fieldName], warnings)
        end ;;
      remaining_loop optional_dict rest candidate_fields errors warnings
  end.

(** [self.optional_dict], l.237 *)
Definition make_optional_dict (historical optional : list (Field_ bound))
    : dict (Field_ bound) :=
  dict_of_pairs (map (fun x => (name x, x)) (historical ++ optional)).

(** [DictFieldChecker._validate], l.307-340 *)
Definition DictFieldChecker__validate (required : list (Field_ bound))
    (optional_dict : dict (Field_ bound)) : validator :=
  fun originalCandidate _ =>
    match originalCandidate with
    | PyDict d =>
        let candidate := d in
        let candidate_fields := dict_keys d in
        '(candidate, errors, warnings) <-
          required_loop required candidate candidate_fields [] [] ;;
        remaining_loop optional_dict candidate candidate_fields
          errors warnings
    | _ => Raises AssertionError
    end.

(** *** [FieldChecker.validate] *)

(** [FieldChecker.validate], l.72-82, for a checker whose top-level type
    and [_validate] method are given. *)
Definition FieldChecker__validate (topLevelType : pytype)
    (_validate : validator) : validator :=
  fun candidate required =>
    if negb (isinstance candidate topLevelType) then
      Returns ([ExpectedType topLevelType (type candidate)], [])
    else _validate candidate required.

(** Method resolution: [validate c] is [c.validate]. *)
Fixpoint validate (c : FieldChecker) : validator :=
  let bind_expected (e : expected) : bound :=
    match e with
    | Instance x => BInstance x
    | Checker c' => BChecker (validate c')
    end in
  let bind_field (f : Field) : Field_ bound :=
    mkField (name f) (bind_expected (expectedValue f)) (disallowedFields f) in
  FieldChecker__validate (topLevelType c)
    match c with
    | DictTypeChecker k v =>
        DictTypeChecker__validate (bind_expected k) (bind_expected v)
    | StringListChecker fields => StringListChecker__validate fields
    | ListTypeChecker e => ListTypeChecker__validate (bind_expected e)
    | DictFieldChecker required optional historical =>
        DictFieldChecker__validate (map bind_field required)
          (make_optional_dict (map bind_field historical)
             (map bind_field optional))
    end.
End Validation.

(** ** Reading the file *)

(** What one call of [f.next()] gives: a physical line, or a
    [UnicodeDecodeError] of the decoding stream.  A file is the list of
    these; at its end [f.next()] raises [StopIteration]. *)
Inductive read : Type :=
| Line (s : ustring)
| Undecodable (reason : ustring).

(** The run of a generator: the values it yields, then how it ends. *)
Inductive generator : Type :=
| Yield (line : ustring) (rest : generator)
| StopIteration
| Raise (e : exn).

Definition JSON_UNICODE_PROBLEMS : list N := [0x2028; 0x2029]%N.

(** The loop of [safe_file_reader], l.23-34, from a given [nextLine]. *)
Fixpoint safe_file_reader_from (nextLine : ustring) (f : list read)
    : generator :=
  match f with
  | [] =>
      match nextLine with
      | [] => StopIteration
      | _ => Yield nextLine StopIteration
      end
  | Undecodable reason :: _ => Raise (UnicodeDecodeError reason)
  | Line s :: f' =>
      let nextLine := nextLine ++ s in
      match rev nextLine with
      | [] => Raise IndexError
      | c :: _ =>
          if existsb (N.eqb c) JSON_UNICODE_PROBLEMS
          then safe_file_reader_from nextLine f'
          else Yield nextLine (safe_file_reader_from [] f')
      end
  end.

(** [safe_file_reader], l.21-34 *)
Definition safe_file_reader (f : list read) : generator :=
  safe_file_reader_from [] f.

(** ** The driver *)

Section Driver.
Variable int_of_text : ustring -> option Z.
(** [json.loads] is external: it gives the decoded value, or the text of
    the [ValueError] it raises. *)
Variable json_loads : ustring -> value + ustring.

Definition result := (list message * list message * Z * bool)%type.

(** The handler of l.377-383, followed by the [return]: an exception
    other than [UnicodeDecodeError] leaves the function. *)
Definition except_UnicodeDecodeError (e : exn) (errors warnings : list message)
    (lineCount : Z) (stoppedEarly : bool) : outcome result :=
  match e with
  | UnicodeDecodeError reason =>
      Returns (errors ++ [InvalidUTF8 (lineCount + 1) reason], warnings,
               (lineCount + 1)%Z, stoppedEarly)
  | _ => Raises e
  end.

(** The [for] loop of l.349-374 and the [return] of l.383; [count] is the
    counter of [enumerate]. *)
Fixpoint _validateFile_loop (ingestion_fields : FieldChecker)
    (max_errors : Z) (reader : generator) (count : Z)
    (errors warnings : list message) (lineCount : Z) : outcome result :=
  match reader with
  | StopIteration => Returns (errors, warnings, (lineCount + 1)%Z, false)
  | Raise e => except_UnicodeDecodeError e errors warnings lineCount false
  | Yield line reader' =>
      let lineCount := count in
      if (0 <? max_errors)%Z
         && (max_errors <=? Z.of_nat (length errors))%Z then
        let lineCount := (lineCount - 1)%Z in
        Returns (errors, warnings, (lineCount + 1)%Z, true)
      else
        match json_loads line with
        | inr e =>
            _validateFile_loop ingestion_fields max_errors reader'
              (count + 1)
              (errors ++ [InvalidJSON (lineCount + 1) e]) warnings lineCount
        | inl candidate =>
            match validate int_of_text ingestion_fields candidate true with
            | Raises e =>
                except_UnicodeDecodeError e errors warnings lineCount false
            | Returns (validateErrors, warns) =>
                let errors :=
                  if (0 <? length validateErrors)%nat
                  then errors ++ [SchemaMismatch (lineCount + 1)
                                    validateErrors]
                  else errors in
                _validateFile_loop ingestion_fields max_errors reader'
                  (count + 1) errors (warnings ++ warns) lineCount
            end
        end
  end.

(** [_validateFile], l.342-383 *)
Definition _validateFile (input_file : list read)
    (ingestion_fields : FieldChecker) (max_errors : Z) : outcome result :=
  let errors := [] in
  let warnings := [] in
  let lineCount := 0%Z in
  let reader := safe_file_reader input_file in
  _validateFile_loop ingestion_fields max_errors reader 0 errors warnings
    lineCount.
End Driver.

(** ** The two schemas, l.385-444 *)

Definition unicode' : expected := Instance (PyUnicode []).
Definition int' : expected := Instance (PyInt 0).
Definition bool' : expected := Instance (PyBool false).
Definition object' : expected := Instance PyObject.

Definition track_artist_fields : FieldChecker :=
  DictFieldChecker
    [ Field' "id" unicode';
      Field' "name" unicode' ] [] [].

Definition track_required : list Field :=
  [ Field' "type" unicode';
    Field' "id" unicode';
    Field' "name" unicode';
    Field' "artist" (Checker track_artist_fields) ].

Definition track_optional : list Field :=
  [ Field' "extras" (Checker (DictTypeChecker unicode' object'));
    Field' "takedown" bool';
    mkField (U "regions") (Checker (ListTypeChecker unicode'))
      [U "regions_add"; U "regions_delete"];
    mkField (U "regions_add") (Checker (ListTypeChecker unicode'))
      [U "regions"];
    mkField (U "regions_delete") (Checker (ListTypeChecker unicode'))
      [U "regions"];
    Field' "ISRC" unicode';
    Field' "release_year" int';
    Field' "audio_url" unicode';
    Field' "release" (Checker (DictFieldChecker
      [ Field' "id" unicode';
        Field' "name" unicode' ]
      [ Field' "release_year" int' ] [])) ].

Definition track_historical : list Field :=
  [ Field' "published" bool' ].

Definition track_fields : FieldChecker :=
  DictFieldChecker track_required track_optional track_historical.

Definition artist_required : list Field :=
  [ Field' "id" unicode';
    Field' "name" unicode' ].

Definition artist_optional : list Field :=
  [ Field' "extras" (Checker (DictTypeChecker unicode' object'));
    mkField (U "regions") (Checker (ListTypeChecker unicode'))
      [U "regions_add"; U "regions_delete"];
    mkField (U "regions_add") (Checker (ListTypeChecker unicode'))
      [U "regions"];
    mkField (U "regions_delete") (Checker (ListTypeChecker unicode'))
      [U "regions"];
    Field' "takedown" bool' ].

Definition artist_historical : list Field :=
  [ Field' "published" bool' ].

Definition artist_fields : FieldChecker :=
  DictFieldChecker artist_required artist_optional artist_historical.

(** A model of [int(s)] on text for the closed examples: optional blanks,
    an optional sign and ASCII decimal digits, as [int] reads them. *)
Fixpoint digits_value (acc : Z) (s : ustring) : option Z :=
  match s with
  | [] => Some acc
  | c :: s' =>
      if ((48 <=? c) && (c <=? 57))%N
      then digits_value (10 * acc + Z.of_N (c - 48)) s'
      else None
  end.

Definition int_of_ascii (s : ustring) : option Z :=
  match strip s with
  | [] => None
  | c :: s' =>
      if (c =? 45)%N then
        match s' with [] => None | _ => option_map Z.opp (digits_value 0 s') end
      else if (c =? 43)%N then
        match s' with [] => None | _ => digits_value 0 s' end
      else digits_value 0 (c :: s')
  end.

(** ** Vocabulary of the statements *)

(** The record of the first end-to-end scenario: the items of the nested
    artist, the items of the track around a given artist, and the value
    that [json.loads] gives when it keeps the order of the text. *)
Definition track_artist_items : dict value :=
  [ (U "id", PyUnicode (U "A1"));
    (U "name", PyUnicode (U "Artist")) ].

Definition track_items (artist : dict value) : dict value :=
  [ (U "type", PyUnicode (U "track"));
    (U "id", PyUnicode (U "T1"));
    (U "name", PyUnicode (U "Song"));
    (U "artist", PyDict artist) ].

Definition track_example : value := PyDict (track_items track_artist_items).

(** The line that holds it. *)
Definition track_line : ustring :=
  U "{" ++ quoted (U "type") ++ U ":" ++ quoted (U "track") ++ U ","
    ++ quoted (U "id") ++ U ":" ++ quoted (U "T1") ++ U ","
    ++ quoted (U "name") ++ U ":" ++ quoted (U "Song") ++ U ","
    ++ quoted (U "artist") ++ U ":{"
    ++ quoted (U "id") ++ U ":" ++ quoted (U "A1") ++ U ","
    ++ quoted (U "name") ++ U ":" ++ quoted (U "Artist") ++ U "}}".

(** The record of the blank-name scenario. *)
Definition artist_items : dict value :=
  [ (U "id", PyUnicode (U "A1"));
    (U "name", PyUnicode (U ""));
    (U "published", PyBool true) ].

Definition artist_example : value := PyDict artist_items.

(** A decoder that knows one line only, for the closed examples. *)
Definition loads_only (line : ustring) (x : value) : ustring -> value + ustring :=
  fun s => if ustr_eqb s line then inl x else inr (U "No JSON object could be decoded").

(** [s] ends in U+2028 or U+2029. *)
Definition ends_in_problem (s : ustring) : bool :=
  match rev s with
  | [] => false
  | c :: _ => existsb (N.eqb c) JSON_UNICODE_PROBLEMS
  end.

(** The logical lines a generator yields. *)
Fixpoint yields (g : generator) : list ustring :=
  match g with
  | Yield line rest => line :: yields rest
  | _ => []
  end.

(** A generator that runs to [StopIteration]. *)
Fixpoint exhausts (g : generator) : Prop :=
  match g with
  | Yield _ rest => exhausts rest
  | StopIteration => True
  | Raise _ => False
  end.


(** The check of a field against an example instance as the specification
    words it: when the type of the candidate differs from the expected one,
    only text in an integer field is given a chance ([int] is tried, and the
    error is for a failed parse); any other difference is an error. *)
Definition text_only_coercion (int_of_text : ustring -> option Z) : Prop :=
  forall fieldName candidateField x keys errors warnings required,
    type candidateField <> type x ->
    type x <> object_t ->
    exists warnings',
      DictFieldChecker__check_field int_of_text fieldName candidateField
        (mkField fieldName (BInstance x) []) keys errors warnings required
      = Returns
          (match type x, candidateField with
           | int_t, PyUnicode s =>
               match int_of_text s with
               | Some _ => errors
               | None => errors ++ [_type_error fieldName x candidateField]
               end
           | _, _ => errors ++ [_type_error fieldName x candidateField]
           end, warnings').

(** The candidates on which [int(x)] raises neither [TypeError] nor
    [ValueError] (nor, for an infinite float, [OverflowError]). *)
Definition converts (int_of_text : ustring -> option Z) (x : value) : bool :=
  match x with
  | PyBool _ | PyInt _ | PyLong _ | PyFloat (Finite _ _) => true
  | PyUnicode s =>
      match int_of_text s with Some _ => true | None => false end
  | _ => false
  end.

(** The type errors that the check of a field against the example instance
    [x] adds. *)
Definition type_errors (int_of_text : ustring -> option Z)
    (fieldName : ustring) (x candidateField : value) : list message :=
  if isinstance candidateField (type x) then []
  else if pytype_eqb (type x) int_t then
    if converts int_of_text candidateField then []
    else [FieldIncorrectType fieldName int_t (type candidateField)]
  else [FieldIncorrectType fieldName (type x) (type candidateField)].

(** The warning of l.300, if any. *)
Definition entry_warnings (fieldName : ustring) (candidateField : value)
    (required : bool) : list message :=
  if required && negb (valid_entry candidateField)
  then [InvalidEntry fieldName candidateField] else [].

(** The binding of expected values and fields done by [validate]. *)
Definition bind_expected (int_of_text : ustring -> option Z) (e : expected)
    : bound :=
  match e with
  | Instance x => BInstance x
  | Checker c => BChecker (validate int_of_text c)
  end.

Definition bind_field (int_of_text : ustring -> option Z) (f : Field)
    : Field_ bound :=
  mkField (name f) (bind_expected int_of_text (expectedValue f))
    (disallowedFields f).

(** The number of messages of a list that satisfy [p]. *)
Definition count (p : message -> bool) (l : list message) : nat :=
  length (filter p l).

(** A message about the field [F] of the record itself: one that gives
    [F] as the field missing, unexpected, of the wrong type, invalid, or
    at fault inside, or as one of two fields that must not come together. *)
Definition names_field (F : ustring) (x : message) : bool :=
  match x with
  | MissingRequired n | UnexpectedField n | FieldIncorrectType n _ _
  | InField n _ | InvalidEntry n _ => ustr_eqb n F
  | NotAllowedTogether n u => ustr_eqb n F || ustr_eqb u F
  | _ => false
  end.

(** The message of l.304 for the field [F] and its disallowed name [D]. *)
Definition is_not_allowed (F D : ustring) (x : message) : bool :=
  match x with
  | NotAllowedTogether n u => ustr_eqb n F && ustr_eqb u D
  | _ => false
  end.

(** The number of times the name [D] occurs in [l]. *)
Definition occurrences (D : ustring) (l : list ustring) : nat :=
  length (filter (ustr_eqb D) l).

(** A report put behind the messages gathered so far. *)
Definition extend (errors warnings : list message) (r : outcome report)
    : outcome report :=
  '(e, w) <- r ;; Returns (errors ++ e, warnings ++ w).

Definition extend3 (errors warnings : list message)
    (r : outcome (dict value * list message * list message))
    : outcome (dict value * list message * list message) :=
  '(c, e, w) <- r ;; Returns (c, errors ++ e, warnings ++ w).

(** The errors of l.302-305 for a field named [name]. *)
Definition disallowed_errors (name : ustring) (disallowedFields : list ustring)
    (candidateFields : list ustring) : list message :=
  map (NotAllowedTogether name)
    (filter (fun unallowed => name_in unallowed candidateFields)
       disallowedFields).

(** A track record with a wrong [type], no [name], an artist without
    [name] and a field that the schema does not know. *)
Definition track_incomplete : dict value :=
  [ (U "type", PyInt 5);
    (U "id", PyUnicode (U "T1"));
    (U "artist", PyDict [ (U "id", PyUnicode (U "A1")) ]);
    (U "bogus", PyInt 1) ].

Definition track_incomplete_errors : list message :=
  [ FieldIncorrectType (U "type") unicode_t int_t;
    MissingRequired (U "name");
    InField (U "artist") (MissingRequired (U "name"));
    UnexpectedField (U "bogus") ].

(** Every entry of a dictionary of fields is filed under its own name. *)
Definition filed_by_name (E : Type) (d : dict (Field_ E)) : Prop :=
  forall k x, dict_get d k = Some x -> name x = k.

(** The fields [l] filed by name in [d], as [dict] does at l.237. *)
Definition file (E : Type) (l : list (Field_ E)) (d : dict (Field_ E))
    : dict (Field_ E) :=
  fold_left (fun d kv => dict_set d (fst kv) (snd kv))
    (map (fun x : Field_ E => (name x, x)) l) d.

(** The track record of the scenario with both [regions] and
    [regions_add], and the errors it gives. *)
Definition track_regions : dict value :=
  [ (U "type", PyUnicode (U "track"));
    (U "id", PyUnicode (U "T1"));
    (U "name", PyUnicode (U "Song"));
    (U "artist", PyDict [ (U "id", PyUnicode (U "A1"));
                          (U "name", PyUnicode (U "Artist")) ]);
    (U "regions", PyList [PyUnicode (U "US")]);
    (U "regions_add", PyList [PyUnicode (U "CA")]) ].

Definition track_regions_errors : list message :=
  [ NotAllowedTogether (U "regions") (U "regions_add");
    NotAllowedTogether (U "regions_add") (U "regions") ].

Definition regions_field : Field :=
  mkField (U "regions") (Checker (ListTypeChecker unicode'))
    [U "regions_add"; U "regions_delete"].

(** A schema whose optional field [alias] must not come with the required
    field [id], and a record that holds both. *)
Definition alias_fields : FieldChecker :=
  DictFieldChecker [ Field' "id" unicode' ]
    [ mkField (U "alias") unicode' [U "id"] ] [].

Definition alias_record : dict value :=
  [ (U "alias", PyUnicode (U "B")); (U "id", PyUnicode (U "A1")) ].

(** A line that adds an error to [errors]: [json.loads] fails on it, or
    [validate] returns at least one error. *)
Definition adds_error (int_of_text : ustring -> option Z)
    (json_loads : ustring -> value + ustring)
    (ingestion_fields : FieldChecker) (line : ustring) : bool :=
  match json_loads line with
  | inr _ => true
  | inl candidate =>
      match validate int_of_text ingestion_fields candidate true with
      | Returns (validateErrors, _) => (0 <? length validateErrors)%nat
      | Raises _ => false
      end
  end.

(** A line on which [validate] raises. *)
Definition line_raises (int_of_text : ustring -> option Z)
    (json_loads : ustring -> value + ustring)
    (ingestion_fields : FieldChecker) (line : ustring) : bool :=
  match json_loads line with
  | inr _ => false
  | inl candidate =>
      match validate int_of_text ingestion_fields candidate true with
      | Returns _ => false
      | Raises _ => true
      end
  end.

(** The body of the loop, l.358-374, on the line numbered [lineCount]. *)
Definition examine (int_of_text : ustring -> option Z)
    (json_loads : ustring -> value + ustring)
    (ingestion_fields : FieldChecker) (lineCount : Z) (line : ustring)
    (errors warnings : list message) : outcome report :=
  match json_loads line with
  | inr e => Returns (errors ++ [InvalidJSON (lineCount + 1) e], warnings)
  | inl candidate =>
      '(validateErrors, warns) <-
        validate int_of_text ingestion_fields candidate true ;;
      Returns (if (0 <? length validateErrors)%nat
               then errors ++ [SchemaMismatch (lineCount + 1) validateErrors]
               else errors,
               warnings ++ warns)
  end.

(** The generator that yields the given lines and stops. *)
Fixpoint generator_of (lines : list ustring) : generator :=
  match lines with
  | [] => StopIteration
  | line :: rest => Yield line (generator_of rest)
  end.

(** Three lines for the budget example: the second one is a valid track
    record, the other two are not JSON. *)
Definition budget_file : list read :=
  [ Line (U "{"); Line track_line; Line (U "}"); Line (U "]") ].

(** The number of the line for which the loop of the driver made the error
    [x] (l.361, l.367); a schema error holds at least one message. *)
Definition line_error (x : message) : option Z :=
  match x with
  | InvalidJSON n _ => Some n
  | SchemaMismatch n (_ :: _) => Some n
  | _ => None
  end.

(** Errors made for lines, in increasing order of the line numbers, all
    of them above [lo] and at most [hi]. *)
Fixpoint in_line_order (lo hi : Z) (l : list message) : Prop :=
  match l with
  | [] => True
  | x :: l' =>
      exists n, line_error x = Some n /\ (lo < n <= hi)%Z
                /\ in_line_order n hi l'
  end.

(** A file whose second read fails to decode. *)
Definition undecodable_file : list read :=
  [ Line (U "{"); Undecodable (U "invalid start byte") ].

(** An expected value that is a nested checker. *)
Definition is_checker (e : expected) : bool :=
  match e with
  | Checker _ => true
  | Instance _ => false
  end.

(** The type errors that [DictTypeChecker._check_field] adds for a key or a
    value checked against the example instance [x]. *)
Definition key_value_type_errors (int_of_text : ustring -> option Z)
    (fieldName : ustring) (x candidateField : value) : list message :=
  if isinstance candidateField (type x) then []
  else if eq_int0 x then
    if converts int_of_text candidateField then []
    else [KeyValueIncorrectType fieldName candidateField int_t
            (type candidateField)]
  else [KeyValueIncorrectType fieldName candidateField (type x)
          (type candidateField)].

(** A dictionary checker with the example [5] for its values, and one with
    a nested checker for its values. *)
Definition five_values : FieldChecker :=
  DictTypeChecker unicode' (Instance (PyInt 5)).

Definition nested_values : FieldChecker :=
  DictTypeChecker unicode' (Checker (ListTypeChecker unicode')).

(** The elements of [l] that are no instance of the type of [x], each with
    its index in [l]. *)
Definition wrong_elements (x : value) (l : list value) : list (nat * value) :=
  filter (fun p => negb (isinstance (snd p) (type x)))
    (combine (seq 0 (length l)) l).

(** The error of l.212-217 for an element at an index. *)
Definition element_error (x : value) (p : nat * value) : message :=
  ElementIncorrectType (fst p) (type x) (type (snd p)).

(** A checker accepts a candidate: [validate] returns no error. *)
Definition accepts (int_of_text : ustring -> option Z) (c : FieldChecker)
    (candidate : value) (required : bool) : Prop :=
  exists warnings,
    validate int_of_text c candidate required = Returns ([], warnings).

(** The message of l.337 for the key [k]. *)
Definition is_unexpected (k : ustring) (x : message) : bool :=
  match x with
  | UnexpectedField n => ustr_eqb n k
  | _ => false
  end.

(** The names a [DictFieldChecker] declares. *)
Definition declared_names (required optional historical : list Field)
    : list ustring :=
  map (@name _) (required ++ optional ++ historical).

(** The artist record of the example with one key more, which the
    checker does not declare. *)
Definition artist_labelled : dict value :=
  artist_items ++ [ (U "label", PyUnicode (U "Ace")) ].

(** A value that holds no infinite float, at any depth. *)
Fixpoint finite (x : value) : bool :=
  match x with
  | PyFloat (Inf _) => false
  | PyList l => forallb finite l
  | PyDict d => forallb (fun kv => finite (snd kv)) d
  | _ => true
  end.

(** A checker that gives no nested checker to a [DictTypeChecker], at any
    depth: the checkers that l.111-115 can run. *)
Fixpoint supported (c : FieldChecker) : bool :=
  let supported_expected (e : expected) : bool :=
    match e with
    | Instance _ => true
    | Checker c' => supported c'
    end in
  let supported_field (f : Field) : bool :=
    supported_expected (expectedValue f) in
  match c with
  | DictTypeChecker k v => negb (is_checker k) && negb (is_checker v)
  | StringListChecker _ => true
  | ListTypeChecker e => supported_expected e
  | DictFieldChecker required optional historical =>
      forallb supported_field required && forallb supported_field optional
      && forallb supported_field historical
  end.

(** [P] holds of the nested checker of an expected value, if it is one. *)
Definition expected_holds (P : FieldChecker -> Prop) (e : expected) : Prop :=
  match e with
  | Instance _ => True
  | Checker c => P c
  end.

(** A bound expected value whose nested [validate], if there is one,
    returns on every value without an infinite float. *)
Definition returns_on_finite (b : bound) : Prop :=
  match b with
  | BInstance _ => True
  | BChecker v =>
      forall candidate required,
        finite candidate = true -> exists r, v candidate required = Returns r
  end.



(** A generator that raises nothing but [UnicodeDecodeError]. *)
Fixpoint decode_errors_only (g : generator) : Prop :=
  match g with
  | Yield _ rest => decode_errors_only rest
  | StopIteration => True
  | Raise (UnicodeDecodeError _) => True
  | Raise _ => False
  end.

(** What [f.next()] gives is never the empty text: a line read from a file
    holds its line end, or is the non-empty rest of the file. *)
Definition nonempty_reads (f : list read) : Prop :=
  Forall (fun r => r <> Line []) f.

(** A value that holds no empty or blank text, as a key or as a value, at
    any depth. *)
Fixpoint blank_free (x : value) : bool :=
  match x with
  | PyUnicode s => valid_entry (PyUnicode s)
  | PyList l => forallb blank_free l
  | PyDict d =>
      forallb (fun kv => valid_entry (PyUnicode (fst kv))
                         && blank_free (snd kv)) d
  | _ => true
  end.

(** A line that [json.loads] does not decode, or decodes to a value with
    no infinite float and no blank text. *)
Definition decodes_plain (json_loads : ustring -> value + ustring)
    (line : ustring) : Prop :=
  forall candidate,
    json_loads line = inl candidate ->
    finite candidate = true /\ blank_free candidate = true.

(** A bound expected value whose nested [validate], if there is one, gives
    no warning on a value without blank text. *)
Definition warns_nothing (b : bound) : Prop :=
  match b with
  | BInstance _ => True
  | BChecker v =>
      forall candidate required e w,
        blank_free candidate = true ->
        v candidate required = Returns (e, w) -> w = []
  end.

(** [_check_field] finds nothing wrong with a field: it returns without
    an error. *)
Definition field_accepts (int_of_text : ustring -> option Z)
    (fieldName : ustring) (candidateField : value)
    (validationField : Field_ bound) (candidateFields : list ustring)
    (required : bool) : Prop :=
  exists warnings,
    DictFieldChecker__check_field int_of_text fieldName candidateField
      validationField candidateFields [] [] required
    = Returns ([], warnings).

(** A value passes for an expected value: it is an instance of the type of
    the example, or the example is an [int] and [int] converts the value;
    or the nested checker returns no error on it. *)
Definition value_accepts (int_of_text : ustring -> option Z) (b : bound)
    (candidateField : value) (required : bool) : Prop :=
  match b with
  | BInstance x =>
      isinstance candidateField (type x) = true
      \/ (pytype_eqb (type x) int_t = true
          /\ converts int_of_text candidateField = true)
  | BChecker validate =>
      exists warnings,
        validate candidateField required = Returns ([], warnings)
  end.

(** ** The description of a schema *)

(** [s * n] for a text [s]: nothing when [n] is not positive. *)
Definition times (s : ustring) (n : Z) : ustring :=
  concat (repeat s (Z.to_nat n)).

(** [_indent], l.36-37 *)
Definition _indent (val : ustring) (indent : Z) : ustring :=
  [10%N] ++ times (times [32%N] indent) 4 ++ val.

(** [a <= b] for two names: the order of their code points, a proper
    prefix coming first. *)
Fixpoint ustr_leb (a b : ustring) : bool :=
  match a, b with
  | [], _ => true
  | _ :: _, [] => false
  | x :: a', y :: b' =>
      if (x <? y)%N then true
      else if (y <? x)%N then false
      else ustr_leb a' b'
  end.

(** [sorted(items, key=lambda x: x.name)], l.246: a stable sort, here by
    insertion of each field before the first one whose name is not
    smaller. *)
Fixpoint insert_by_name (E : Type) (x : Field_ E) (l : list (Field_ E))
    : list (Field_ E) :=
  match l with
  | [] => [x]
  | y :: l' =>
      if ustr_leb (name x) (name y) then x :: l
      else y :: insert_by_name x l'
  end.

Definition sorted_by_name (E : Type) (items : list (Field_ E))
    : list (Field_ E) :=
  fold_right (@insert_by_name E) [] items.

(** The name of the type of an expected value, l.98-104, l.187-189,
    l.249-251. *)
Definition typeName (e : expected) : ustring :=
  match e with
  | Instance x => __name__ (type x)
  | Checker c => __name__ (topLevelType c)
  end.

(** The [stringify] method of a checker, once the checker is known. *)
Definition stringifier := Z -> ustring.

(** What [_stringify_fields] reads of an expected value: the name of its
    type and, for a nested checker, its [stringify] method. *)
Definition shown := (ustring * option stringifier)%type.

(** The body of the loop of [_stringify_fields], l.247-259. *)
Definition _stringify_field (required : bool) (indent : Z)
    (retVal : ustring) (field : Field_ shown) : ustring :=
  let fieldName := name field in
  let '(typeName, nested) := expectedValue field in
  let req := if required then U "required" else U "optional" in
  let retVal :=
    retVal ++ _indent (quoted fieldName ++ U ": type " ++ quoted typeName
                         ++ U ", " ++ req) indent in
  match nested with
  | Some stringify =>
      let nestedString := stringify (indent + 1)%Z in
      match nestedString with
      | [] => retVal
      | _ => retVal ++ U ":" ++ nestedString
      end
  | None => retVal
  end.

(** [DictFieldChecker._stringify_fields], l.244-260 *)
Definition _stringify_fields (items : list (Field_ shown)) (required : bool)
    (indent : Z) : ustring :=
  fold_left (_stringify_field required indent) (sorted_by_name items) [].

Section Stringify.
(** ['%r' % fields] is a Python built-in. *)
Variable repr : list ustring -> ustring.

(** The four [stringify] methods, l.97-106, l.157-158, l.186-191 and
    l.262-270.  The fields that are historical are not read. *)
Fixpoint stringify (c : FieldChecker) (indent : Z) : ustring :=
  let show (f : Field) : Field_ shown :=
    mkField (name f)
      (typeName (expectedValue f),
       match expectedValue f with
       | Instance _ => None
       | Checker c' => Some (stringify c')
       end)
      (disallowedFields f) in
  match c with
  | DictTypeChecker k v =>
      _indent (U "dict of " ++ quoted (typeName k) ++ U ":"
                 ++ quoted (typeName v)) indent
  | StringListChecker fields => _indent (U "string in " ++ repr fields) indent
  | ListTypeChecker e => _indent (U "list of " ++ quoted (typeName e)) indent
  | DictFieldChecker required optional _ =>
      let retVal := _indent (U "{") (indent - 1) in
      let retVal :=
        retVal ++ _stringify_fields (map show required) true indent in
      let retVal :=
        retVal ++ _stringify_fields (map show optional) false indent in
      retVal ++ _indent (U "} ") (indent - 1)
  end.

(** The binding of a field done by [stringify]. *)
Definition show (f : Field) : Field_ shown :=
  mkField (name f)
    (typeName (expectedValue f),
     match expectedValue f with
     | Instance _ => None
     | Checker c' => Some (stringify c')
     end)
    (disallowedFields f).
End Stringify.

(** A field comes before another one in [sorted]. *)
Definition name_le (E : Type) (a b : Field_ E) : Prop :=
  ustr_leb (name a) (name b) = true.

(** The fields of tracks in another order of declaration, and with other
    historical fields. *)
Definition track_fields_reordered : FieldChecker :=
  DictFieldChecker (rev track_required) (rev track_optional) [].

(** The message of l.304 about the two fields [a] and [b], whichever of
    them was the field under check. *)
Definition is_pair_error (a b : ustring) (x : message) : bool :=
  is_not_allowed a b x || is_not_allowed b a x.

(** The co-occurrence rule as the specification words it: a record that
    holds a declared field and one of the names it disallows gets exactly
    one error about the two of them. *)
Definition one_error_per_pair (int_of_text : ustring -> option Z) : Prop :=
  forall (required optional historical : list Field) (d : dict value)
         (req : bool) (f : Field) (D : ustring) (errs warns : list message),
    NoDup (map (@name _) (required ++ historical ++ optional)) ->
    NoDup (dict_keys d) ->
    In f (required ++ historical ++ optional) ->
    NoDup (disallowedFields f) ->
    In D (disallowedFields f) ->
    In (name f) (dict_keys d) ->
    In D (dict_keys d) ->
    validate int_of_text (DictFieldChecker required optional historical)
      (PyDict d) req = Returns (errs, warns) ->
    count (is_pair_error (name f) D) errs = 1.

Definition regions_add_field : Field :=
  mkField (U "regions_add") (Checker (ListTypeChecker unicode'))
    [U "regions"].

(** * Properties *)

(** ** Text and dictionaries *)

Lemma ustr_eqb_eq (a b : ustring) : ustr_eqb a b = true <-> a = b.
Proof.
  revert b; induction a as [|x a IH]; intros [|y b]; simpl;
    try (split; (discriminate || reflexivity)).
  rewrite andb_true_iff, N.eqb_eq, IH.
  split; [intros [-> ->]; reflexivity | intros [= -> ->]; split; reflexivity].
Qed.

Lemma ustr_eqb_refl (a : ustring) : ustr_eqb a a = true.
Proof. apply ustr_eqb_eq; reflexivity. Qed.

Lemma ustr_eqb_neq (a b : ustring) : ustr_eqb a b = false <-> a <> b.
Proof.
  rewrite <- ustr_eqb_eq; destruct (ustr_eqb a b); split; congruence.
Qed.

Lemma ustr_eqb_sym (a b : ustring) : ustr_eqb a b = ustr_eqb b a.
Proof.
  destruct (ustr_eqb b a) eqn:E.
  - apply ustr_eqb_eq in E; subst; apply ustr_eqb_refl.
  - apply ustr_eqb_neq; apply ustr_eqb_neq in E; congruence.
Qed.

Lemma name_in_cons (x n : ustring) (l : list ustring) :
  name_in x (n :: l) = ustr_eqb x n || name_in x l.
Proof. reflexivity. Qed.

Lemma name_in_In (x : ustring) (l : list ustring) : name_in x l = true <-> In x l.
Proof.
  unfold name_in; rewrite existsb_exists; split.
  - intros [y [Hy E]]; apply ustr_eqb_eq in E; subst; exact Hy.
  - intros H; exists x; split; [exact H | apply ustr_eqb_refl].
Qed.

(** ** [FieldChecker.validate] *)

(** C7: for each of the four checkers and every candidate whose type is not
    the checker's top-level type, [validate] returns the single error built
    at l.79 from the two type names, and no warning; the result does not
    depend on anything else of the checker or of the candidate, so no
    [_validate] method has run. *)
Theorem validate_wrong_kind (int_of_text : ustring -> option Z)
    (c : FieldChecker) (candidate : value) (required : bool) :
  type candidate <> topLevelType c ->
  validate int_of_text c candidate required
  = Returns ([ExpectedType (topLevelType c) (type candidate)], []).
Proof.
  intros H.
  assert (E : isinstance candidate (topLevelType c) = false).
  { unfold isinstance.
    destruct c, candidate; simpl in *; try reflexivity; congruence. }
  destruct c; simpl; unfold FieldChecker__validate; simpl in *;
    rewrite E; reflexivity.
Qed.

Lemma validate_wrong_kind_witness :
  type (PyList [PyInt 3]) <> topLevelType track_fields
  /\ validate int_of_ascii track_fields (PyList [PyInt 3]) true
     = Returns ([ExpectedType dict_t list_t], []).
Proof.
  split; [discriminate |].
  apply (validate_wrong_kind int_of_ascii track_fields (PyList [PyInt 3]) true).
  discriminate.
Defined.

(** ** The driver on small inputs *)

(** C10: when the reader yields no logical line, the loop body never runs,
    [lineCount] keeps its initial value 0 and the driver returns no error, no
    warning, [lineCount + 1 = 1] processed lines and [stoppedEarly = False]. *)
Theorem validateFile_empty (int_of_text : ustring -> option Z)
    (json_loads : ustring -> value + ustring) (input_file : list read)
    (ingestion_fields : FieldChecker) (max_errors : Z) :
  safe_file_reader input_file = StopIteration ->
  _validateFile int_of_text json_loads input_file ingestion_fields max_errors
  = Returns ([], [], 1%Z, false).
Proof.
  intros H; unfold _validateFile; rewrite H; reflexivity.
Qed.

Lemma validateFile_empty_witness :
  safe_file_reader [] = StopIteration
  /\ _validateFile int_of_ascii (loads_only track_line track_example) []
       track_fields 1000
     = Returns ([], [], 1%Z, false).
Proof.
  split; [reflexivity |].
  exact (validateFile_empty int_of_ascii (loads_only track_line track_example)
           [] track_fields 1000 eq_refl).
Defined.

(** ** Blank entries *)

Lemma valid_entry_unicode (s : ustring) :
  valid_entry (PyUnicode s) = negb (ustr_eqb (strip s) []).
Proof. simpl; rewrite orb_false_r; reflexivity. Qed.

(** ** Coercion of text to an integer *)

(** C6: for a text [s] that [int] converts, the list checker with an
    integer element reports the element as of the wrong type (l.211 has no
    coercion), while the dictionary checker with an integer value and the
    field checker with an integer field report nothing. *)
Theorem coercion_asymmetry (int_of_text : ustring -> option Z)
    (s key : ustring) (z : Z) (required : bool) :
  int_of_text s = Some z ->
  validate int_of_text (ListTypeChecker int') (PyList [PyUnicode s]) required
  = Returns ([ElementIncorrectType 0 int_t unicode_t], [])
  /\ validate int_of_text (DictTypeChecker unicode' int')
       (PyDict [(key, PyUnicode s)]) false
     = Returns ([], [])
  /\ validate int_of_text
       (DictFieldChecker [] [mkField key int' []] [])
       (PyDict [(key, PyUnicode s)]) required
     = Returns ([], []).
Proof.
  intros H; split; [reflexivity | split].
  - cbn. unfold FieldChecker__validate; cbn.
    unfold DictTypeChecker__check_field; cbn. rewrite H; reflexivity.
  - cbn. unfold FieldChecker__validate; cbn.
    rewrite ustr_eqb_refl.
    unfold DictFieldChecker__check_field; cbn. rewrite H; reflexivity.
Qed.

Lemma coercion_asymmetry_witness :
  int_of_ascii (U "1") = Some 1%Z
  /\ validate int_of_ascii (ListTypeChecker int') (PyList [PyUnicode (U "1")])
       true
     = Returns ([ElementIncorrectType 0 int_t unicode_t], [])
  /\ validate int_of_ascii (DictTypeChecker unicode' int')
       (PyDict [(U "a", PyUnicode (U "1"))]) false
     = Returns ([], [])
  /\ validate int_of_ascii
       (DictFieldChecker [] [mkField (U "a") int' []] [])
       (PyDict [(U "a", PyUnicode (U "1"))]) true
     = Returns ([], []).
Proof.
  split; [reflexivity |].
  apply (@coercion_asymmetry int_of_ascii (U "1") (U "a") 1%Z true).
  reflexivity.
Defined.

(** ** The line reader *)

Section Reader.
Implicit Types (nextLine s : ustring) (f : list read).

Lemma reader_step nextLine s f :
  safe_file_reader_from nextLine (Line s :: f)
  = match rev (nextLine ++ s) with
    | [] => Raise IndexError
    | _ :: _ =>
        if ends_in_problem (nextLine ++ s)
        then safe_file_reader_from (nextLine ++ s) f
        else Yield (nextLine ++ s) (safe_file_reader_from [] f)
    end.
Proof.
  cbn [safe_file_reader_from]; unfold ends_in_problem.
  destruct (rev (nextLine ++ s)); reflexivity.
Qed.

Lemma ends_in_problem_nonempty s : ends_in_problem s = true -> s <> [].
Proof. intros H ->; discriminate. Qed.

Lemma rev_nonempty s : s <> [] -> exists c r, rev s = c :: r.
Proof.
  intros H; destruct (rev s) as [|c r] eqn:E.
  - apply (f_equal (@rev N)) in E; rewrite rev_involutive in E; contradiction.
  - exists c, r; reflexivity.
Qed.

(** A physical line that leaves [nextLine] ending in a separator is not a
    boundary: the reader goes on with the concatenation. *)
Lemma reader_continues nextLine s f :
  ends_in_problem (nextLine ++ s) = true ->
  safe_file_reader_from nextLine (Line s :: f)
  = safe_file_reader_from (nextLine ++ s) f.
Proof.
  intros H; rewrite reader_step, H.
  destruct (rev_nonempty (ends_in_problem_nonempty H)) as [c [r ->]].
  reflexivity.
Qed.



End Reader.


(** ** The check of a field against an example instance *)

(** C1, as the specification states it, fails: a float in an integer field
    differs in type from the expected integer and is not text, yet [int]
    converts it and no error is emitted. *)
Lemma text_only_coercion_fails : ~ text_only_coercion int_of_ascii.
Proof.
  intros H.
  destruct (H (U "release_year") (PyFloat (Finite 3 (-1))) (PyInt 0)
              [] [] [] false) as [w E]; try discriminate.
Qed.

(** C1, amended: against an example instance [x], a candidate that is an
    instance of the type of [x] (a [bool] is an [int]) adds no type error;
    otherwise, when [x] is an integer, [int(candidate)] is tried whatever
    the candidate is and the error of l.294 is added only if it raises
    [TypeError] or [ValueError] (text that does not parse, NaN, [None], a
    list, a dict), so that text that parses, a long and a finite float add
    nothing; when [x] is not an integer the error of l.296 is added
    directly.  The infinite floats, on which [int] raises [OverflowError],
    are left out. *)
Theorem check_field_instance (int_of_text : ustring -> option Z)
    (fieldName declaredName : ustring) (candidateField x : value)
    (disallowed keys : list ustring) (errors warnings : list message)
    (required : bool) :
  (type x = int_t -> forall b, candidateField <> PyFloat (Inf b)) ->
  DictFieldChecker__check_field int_of_text fieldName candidateField
    (mkField declaredName (BInstance x) disallowed) keys errors warnings required
  = Returns
      (disallowed_loop declaredName disallowed keys
         (errors ++ type_errors int_of_text fieldName x candidateField),
       warnings ++ entry_warnings fieldName candidateField required).
Proof.
  intros Hinf.
  unfold DictFieldChecker__check_field, type_errors, entry_warnings.
  cbn [expectedValue name disallowedFields].
  destruct (isinstance candidateField (type x)) eqn:Ei; cbn [negb].
  - cbn [bind]; rewrite app_nil_r.
    destruct (required && negb (valid_entry candidateField));
      rewrite ?app_nil_r; reflexivity.
  - destruct (pytype_eqb (type x) int_t) eqn:Et.
    + assert (Hx : type x = int_t) by (destruct x; simpl in *; congruence).
      specialize (Hinf Hx).
      unfold _type_error.
      destruct candidateField as [| b | z | z | [m e | | b] | s | l | d |];
        cbn [int converts type bind];
        try (destruct (required && negb (valid_entry _));
             rewrite ?app_nil_r; reflexivity).
      * exfalso; apply (Hinf b); reflexivity.
      * destruct (int_of_text s); cbn [bind];
          destruct (required && negb (valid_entry _));
          rewrite ?app_nil_r; reflexivity.
    + cbn [bind]; unfold _type_error.
      destruct (required && negb (valid_entry candidateField));
        rewrite ?app_nil_r; reflexivity.
Qed.

Lemma check_field_instance_witness :
  (type (PyInt 0) = int_t ->
   forall b, PyFloat (Finite 3 (-1)) <> PyFloat (Inf b))
  /\ DictFieldChecker__check_field int_of_ascii (U "release_year")
       (PyFloat (Finite 3 (-1)))
       (mkField (U "release_year") (BInstance (PyInt 0)) [])
       [U "release_year"] [] [] false
     = Returns ([], []).
Proof.
  split; [intros _ b; discriminate |].
  apply (@check_field_instance int_of_ascii (U "release_year")
           (U "release_year") (PyFloat (Finite 3 (-1))) (PyInt 0)
           [] [U "release_year"] [] [] false).
  intros _ b; discriminate.
Defined.

(** ** [DictFieldChecker]: the messages gathered so far are kept *)

Lemma validate_DictFieldChecker int_of_text required optional historical :
  validate int_of_text (DictFieldChecker required optional historical)
  = FieldChecker__validate dict_t
      (DictFieldChecker__validate int_of_text
         (map (bind_field int_of_text) required)
         (make_optional_dict (map (bind_field int_of_text) historical)
            (map (bind_field int_of_text) optional))).
Proof. reflexivity. Qed.

Lemma count_app p a b : count p (a ++ b) = count p a + count p b.
Proof. unfold count; rewrite filter_app, length_app; reflexivity. Qed.

Lemma count_map_none (A : Type) p (g : A -> message) (l : list A) :
  (forall x, p (g x) = false) -> count p (map g l) = 0.
Proof.
  intros H; unfold count; induction l as [|x l IH]; simpl;
    [reflexivity | rewrite H; exact IH].
Qed.

Lemma disallowed_loop_app name dis keys errors :
  disallowed_loop name dis keys errors
  = errors ++ disallowed_errors name dis keys.
Proof.
  unfold disallowed_errors; revert errors.
  induction dis as [|u dis IH]; intros errors; simpl.
  - rewrite app_nil_r; reflexivity.
  - rewrite IH; destruct (name_in u keys); simpl;
      [rewrite <- app_assoc |]; reflexivity.
Qed.

Section Frames.
Variable int_of_text : ustring -> option Z.

Lemma extend_nil r : extend [] [] r = r.
Proof. destruct r as [[e w] | x]; reflexivity. Qed.

Lemma extend_extend e1 w1 e2 w2 r :
  extend e1 w1 (extend e2 w2 r) = extend (e1 ++ e2) (w1 ++ w2) r.
Proof.
  destruct r as [[e w] | x]; simpl; [| reflexivity].
  rewrite !app_assoc; reflexivity.
Qed.

Lemma check_field_frame fieldName candidateField validationField keys
    errors warnings required :
  DictFieldChecker__check_field int_of_text fieldName candidateField
    validationField keys errors warnings required
  = extend errors warnings
      (DictFieldChecker__check_field int_of_text fieldName candidateField
         validationField keys [] [] required).
Proof.
  unfold DictFieldChecker__check_field.
  destruct (expectedValue validationField) as [x | v].
  - destruct (negb (isinstance candidateField (type x)));
      [destruct (pytype_eqb (type x) int_t);
       [destruct (int int_of_text candidateField) as [z | []] |] |];
      cbn [bind extend]; try reflexivity;
      rewrite !disallowed_loop_app, ?app_nil_l, ?app_assoc;
      destruct (required && negb (valid_entry candidateField));
      rewrite ?app_nil_r; reflexivity.
  - destruct (v candidateField required) as [[errs warns] | x];
      cbn [bind extend]; [| reflexivity].
    rewrite !disallowed_loop_app, ?app_nil_l, ?app_assoc.
    destruct (required && negb (valid_entry candidateField));
      rewrite ?app_nil_l, ?app_nil_r, ?app_assoc; reflexivity.
Qed.

Lemma required_loop_frame fs candidate keys errors warnings :
  required_loop int_of_text fs candidate keys errors warnings
  = extend3 errors warnings
      (required_loop int_of_text fs candidate keys [] []).
Proof.
  revert candidate errors warnings.
  induction fs as [|f fs IH]; intros candidate errors warnings.
  - simpl; rewrite !app_nil_r; reflexivity.
  - cbn [required_loop].
    destruct (dict_get candidate (name f)) as [v |].
    + rewrite check_field_frame.
      destruct (DictFieldChecker__check_field int_of_text (name f) v f keys
                  [] [] true) as [[e w] | x]; cbn [extend bind];
        [| reflexivity].
      rewrite IH, (IH _ e w).
      destruct (required_loop int_of_text fs _ keys [] [])
        as [[[c e'] w'] | x]; simpl; [| reflexivity].
      rewrite !app_assoc; reflexivity.
    + rewrite IH, (IH _ ([] ++ _) []).
      destruct (required_loop int_of_text fs _ keys [] [])
        as [[[c e'] w'] | x]; simpl; [| reflexivity].
      rewrite <- !app_assoc; reflexivity.
Qed.

Lemma remaining_loop_frame od items keys errors warnings :
  remaining_loop int_of_text od items keys errors warnings
  = extend errors warnings
      (remaining_loop int_of_text od items keys [] []).
Proof.
  revert errors warnings.
  induction items as [|[k v] items IH]; intros errors warnings.
  - simpl; rewrite !app_nil_r; reflexivity.
  - cbn [remaining_loop].
    destruct (dict_get od k) as [vf |].
    + rewrite check_field_frame.
      destruct (DictFieldChecker__check_field int_of_text k v vf keys
                  [] [] false) as [[e w] | x]; cbn [extend bind];
        [| reflexivity].
      rewrite IH, (IH e w), extend_extend; reflexivity.
    + cbn [bind]. rewrite IH, (IH ([] ++ _) []), extend_extend.
      rewrite app_nil_r; reflexivity.
Qed.
End Frames.

(** ** Dictionaries, again *)

Section DictFacts.
Variable V : Type.
Implicit Types (d : dict V) (k n : ustring).

Lemma dict_get_None d k : dict_get d k = None <-> ~ In k (dict_keys d).
Proof.
  induction d as [|[k' v] d IH]; simpl.
  - split; auto.
  - destruct (ustr_eqb k' k) eqn:E.
    + apply ustr_eqb_eq in E; subst; split; [discriminate | tauto].
    + apply ustr_eqb_neq in E; rewrite IH; tauto.
Qed.

Lemma dict_get_filter (q : ustring -> bool) d k :
  dict_get (filter (fun kv => q (fst kv)) d) k
  = if q k then dict_get d k else None.
Proof.
  induction d as [|[k' v] d IH]; simpl.
  - destruct (q k); reflexivity.
  - destruct (q k') eqn:Q; simpl.
    + destruct (ustr_eqb k' k) eqn:E; [| exact IH].
      apply ustr_eqb_eq in E; rewrite <- E, Q; reflexivity.
    + rewrite IH; destruct (ustr_eqb k' k) eqn:E; [| reflexivity].
      apply ustr_eqb_eq in E; rewrite <- E, Q; reflexivity.
Qed.

Lemma dict_get_remove d n k :
  dict_get (dict_remove d n) k
  = if ustr_eqb k n then None else dict_get d k.
Proof.
  unfold dict_remove.
  rewrite (dict_get_filter (fun x => negb (ustr_eqb x n))).
  destruct (ustr_eqb k n); reflexivity.
Qed.

Lemma dict_remove_filter (q : ustring -> bool) d n :
  dict_remove (filter (fun kv => q (fst kv)) d) n
  = filter (fun kv => q (fst kv) && negb (ustr_eqb (fst kv) n)) d.
Proof.
  unfold dict_remove; induction d as [|[k v] d IH]; simpl;
    [reflexivity |].
  destruct (q k); simpl; [destruct (ustr_eqb k n); simpl |];
    rewrite IH; reflexivity.
Qed.
End DictFacts.

Lemma dict_keys_filter (V : Type) (q : ustring -> bool) (d : dict V) k :
  In k (dict_keys (filter (fun kv => q (fst kv)) d))
  <-> In k (dict_keys d) /\ q k = true.
Proof.
  unfold dict_keys; rewrite !in_map_iff; split.
  - intros [[k' v] [<- H]]; apply filter_In in H; destruct H as [H Q].
    split; [exists (k', v); auto | exact Q].
  - intros [[[k' v] [<- H]] Q]; exists (k', v); split; [reflexivity |].
    apply filter_In; auto.
Qed.

Lemma dict_keys_filter_NoDup (V : Type) (p : ustring * V -> bool) (d : dict V) :
  NoDup (dict_keys d) -> NoDup (dict_keys (filter p d)).
Proof.
  unfold dict_keys; induction d as [|[k v] d IH]; simpl; intros H;
    [constructor |].
  inversion H as [|? ? Hk Hd]; subst.
  destruct (p (k, v)); simpl; [constructor |]; auto.
  intros Hin; apply Hk.
  apply in_map_iff in Hin; destruct Hin as [[k' v'] [<- Hin]].
  apply filter_In in Hin; apply in_map_iff; exists (k', v'); tauto.
Qed.

(** ** The loop over the required fields *)

Section RequiredLoop.
Variable int_of_text : ustring -> option Z.
Implicit Types (fs : list (Field_ bound)) (candidate : dict value).

Lemma required_loop_app fs1 fs2 candidate keys errors warnings :
  required_loop int_of_text (fs1 ++ fs2) candidate keys errors warnings
  = '(c, e, w) <-
      required_loop int_of_text fs1 candidate keys errors warnings ;;
    required_loop int_of_text fs2 c keys e w.
Proof.
  revert candidate errors warnings.
  induction fs1 as [|f fs1 IH]; intros candidate errors warnings;
    [reflexivity |].
  cbn [app required_loop].
  destruct (dict_get candidate (name f)) as [v |]; [| apply IH].
  destruct (DictFieldChecker__check_field int_of_text (name f) v f keys
              errors warnings true) as [[e w] | x]; cbn [bind];
    [apply IH | reflexivity].
Qed.

(** What the loop leaves in [candidate]: the items whose key is not the
    name of a required field. *)
Lemma required_loop_candidate fs candidate keys errors warnings c e w :
  required_loop int_of_text fs candidate keys errors warnings
  = Returns (c, e, w) ->
  c = filter (fun kv => negb (name_in (fst kv) (map (@name _) fs)))
        candidate.
Proof.
  revert candidate errors warnings.
  induction fs as [|f fs IH]; intros candidate errors warnings H.
  - injection H as <- _ _; simpl.
    induction candidate as [|kv d IHd]; simpl; congruence.
  - cbn [required_loop] in H.
    assert (E : filter (fun kv => negb (name_in (fst kv) (map (@name _) fs)))
                  (dict_remove candidate (name f))
                = filter (fun kv => negb (name_in (fst kv)
                                            (map (@name _) (f :: fs))))
                    candidate).
    { unfold dict_remove; clear.
      induction candidate as [|[k v] d IHd]; [reflexivity |].
      cbn [filter map fst]; rewrite name_in_cons.
      destruct (ustr_eqb k (name f)); cbn [negb orb]; [exact IHd |].
      cbn [filter fst].
      destruct (negb (name_in k (map (@name _) fs))); rewrite IHd;
        reflexivity. }
    destruct (dict_get candidate (name f)) as [v |] eqn:G.
    + destruct (DictFieldChecker__check_field int_of_text (name f) v f keys
                  errors warnings true) as [[e' w'] | x]; cbn [bind] in H;
        [| discriminate].
      apply IH in H; rewrite H; exact E.
    + apply IH in H; rewrite H, <- E.
      f_equal. unfold dict_remove.
      apply dict_get_None in G.
      clear -G; induction candidate as [|[k v] d IHd]; simpl;
        [reflexivity |].
      simpl in G. destruct (ustr_eqb k (name f)) eqn:E.
      * apply ustr_eqb_eq in E; tauto.
      * simpl; f_equal; apply IHd; tauto.
Qed.
End RequiredLoop.

(** ** The dictionary of the optional fields *)

Section OptionalDict.
Variable E : Type.
Implicit Types (d : dict (Field_ E)) (l : list (Field_ E)) (k : ustring).

Lemma dict_get_set (V : Type) (d : dict V) k (v : V) k' :
  dict_get (dict_set d k v) k'
  = if ustr_eqb k k' then Some v else dict_get d k'.
Proof.
  induction d as [|[k0 v0] d IH]; simpl; [reflexivity |].
  destruct (ustr_eqb k0 k) eqn:E0; simpl.
  - apply ustr_eqb_eq in E0; subst k0.
    destruct (ustr_eqb k k'); reflexivity.
  - rewrite IH.
    destruct (ustr_eqb k0 k') eqn:E1; [| reflexivity].
    destruct (ustr_eqb k k') eqn:E2; [| reflexivity].
    apply ustr_eqb_eq in E1, E2; subst.
    rewrite ustr_eqb_refl in E0; discriminate.
Qed.

Lemma file_other l d k :
  ~ In k (map (@name _) l) -> dict_get (file l d) k = dict_get d k.
Proof.
  revert d; induction l as [|x l IH]; intros d H; [reflexivity |].
  simpl in H; unfold file in *; simpl.
  rewrite IH by tauto.
  rewrite dict_get_set.
  destruct (ustr_eqb (name x) k) eqn:E0; [| reflexivity].
  apply ustr_eqb_eq in E0; tauto.
Qed.

Lemma file_found l d f :
  NoDup (map (@name _) l) -> In f l -> dict_get (file l d) (name f) = Some f.
Proof.
  revert d; induction l as [|x l IH]; intros d Hnd Hin; [contradiction |].
  simpl in Hnd; inversion Hnd as [|? ? Hx Hl]; subst.
  destruct Hin as [-> | Hin].
  - change (file (f :: l) d) with (file l (dict_set d (name f) f)).
    rewrite file_other by exact Hx.
    rewrite dict_get_set, ustr_eqb_refl; reflexivity.
  - apply (IH (dict_set d (name x) x) Hl Hin).
Qed.

Lemma file_by_name l d : filed_by_name d -> filed_by_name (file l d).
Proof.
  revert d; induction l as [|x l IH]; intros d H; [exact H |].
  apply (IH (dict_set d (name x) x)).
  intros k y; rewrite dict_get_set.
  destruct (ustr_eqb (name x) k) eqn:E0.
  - apply ustr_eqb_eq in E0; intros [= <-]; exact E0.
  - apply H.
Qed.

Lemma dict_of_pairs_found l f :
  NoDup (map (@name _) l) -> In f l ->
  dict_get (dict_of_pairs (map (fun x : Field_ E => (name x, x)) l)) (name f)
  = Some f.
Proof. apply (file_found l []). Qed.

Lemma dict_of_pairs_by_name l :
  filed_by_name (dict_of_pairs (map (fun x : Field_ E => (name x, x)) l)).
Proof. apply (file_by_name l (d := [])); intros k x; discriminate. Qed.
End OptionalDict.

(** ** Counting the messages of [DictFieldChecker._validate] *)

Lemma count_Forall_none p l :
  Forall (fun x => p x = false) l -> count p l = 0.
Proof.
  unfold count; induction 1 as [|x l Hx _ IH]; simpl;
    [reflexivity | rewrite Hx; exact IH].
Qed.

Lemma disallowed_errors_names F n dis keys :
  n <> F -> ~ In F keys ->
  count (names_field F) (disallowed_errors n dis keys) = 0.
Proof.
  intros Hn HF; unfold disallowed_errors.
  apply count_Forall_none, Forall_forall; intros x Hx.
  apply in_map_iff in Hx; destruct Hx as [u [<- Hu]].
  apply filter_In in Hu; destruct Hu as [_ Hu]; apply name_in_In in Hu.
  simpl; apply orb_false_iff; split; apply ustr_eqb_neq; congruence.
Qed.

Lemma occurrences_cons D u l :
  occurrences D (u :: l) = (if ustr_eqb D u then 1 else 0) + occurrences D l.
Proof. unfold occurrences; simpl; destruct (ustr_eqb D u); reflexivity. Qed.

Lemma disallowed_errors_cons n u dis keys :
  disallowed_errors n (u :: dis) keys
  = (if name_in u keys then [NotAllowedTogether n u] else [])
      ++ disallowed_errors n dis keys.
Proof.
  unfold disallowed_errors; simpl; destruct (name_in u keys); reflexivity.
Qed.

Lemma disallowed_errors_count F D n dis keys :
  count (is_not_allowed F D) (disallowed_errors n dis keys)
  = if ustr_eqb n F && name_in D keys then occurrences D dis else 0.
Proof.
  induction dis as [|u dis IH].
  - destruct (ustr_eqb n F && name_in D keys); reflexivity.
  - rewrite disallowed_errors_cons, count_app, IH, occurrences_cons,
      (ustr_eqb_sym D u).
    destruct (ustr_eqb u D) eqn:E.
    + apply ustr_eqb_eq in E; subst u.
      destruct (name_in D keys), (ustr_eqb n F) eqn:E'; unfold count; simpl;
        rewrite ?E', ?ustr_eqb_refl; reflexivity.
    + destruct (name_in u keys); unfold count; simpl;
        rewrite ?E, ?andb_false_r; simpl;
        destruct (ustr_eqb n F && name_in D keys); reflexivity.
Qed.

Section Counting.
Variable int_of_text : ustring -> option Z.
Implicit Types (fs : list (Field_ bound)) (candidate : dict value).

(** The errors of one field: its own, which are about [fieldName], then
    those of its disallowed names. *)
Lemma check_field_shape fieldName candidateField validationField keys
    required e w :
  DictFieldChecker__check_field int_of_text fieldName candidateField
    validationField keys [] [] required = Returns (e, w) ->
  exists own,
    e = own ++ disallowed_errors (name validationField)
                 (disallowedFields validationField) keys
    /\ Forall (fun x => (exists a b, x = FieldIncorrectType fieldName a b)
                        \/ (exists y, x = InField fieldName y))
         own.
Proof.
  unfold DictFieldChecker__check_field.
  destruct (expectedValue validationField) as [x | v].
  - destruct (negb (isinstance candidateField (type x)));
      [destruct (pytype_eqb (type x) int_t);
       [destruct (int int_of_text candidateField) as [z | []] |] |];
      cbn [bind]; intros H; try discriminate;
      injection H as <- _; rewrite disallowed_loop_app;
      eexists; (split; [reflexivity |]);
      repeat (apply Forall_cons;
              [left; eexists; eexists; reflexivity |]);
      apply Forall_nil.
  - destruct (v candidateField required) as [[errs warns] | x];
      cbn [bind]; intros H; [| discriminate].
    injection H as <- _; rewrite disallowed_loop_app.
    eexists; split; [reflexivity |].
    simpl; apply Forall_forall; intros x Hx.
    apply in_map_iff in Hx; destruct Hx as [y [<- _]].
    right; exists y; reflexivity.
Qed.

Lemma check_field_names F fieldName candidateField validationField keys
    required e w :
  fieldName <> F -> name validationField <> F -> ~ In F keys ->
  DictFieldChecker__check_field int_of_text fieldName candidateField
    validationField keys [] [] required = Returns (e, w) ->
  count (names_field F) e = 0.
Proof.
  intros Hn Hv HF H.
  apply check_field_shape in H; destruct H as [own [-> Hown]].
  rewrite count_app, disallowed_errors_names, Nat.add_0_r by assumption.
  apply count_Forall_none; revert Hown; apply Forall_impl.
  intros x [[a [b ->]] | [y ->]]; simpl; apply ustr_eqb_neq; exact Hn.
Qed.

Lemma check_field_not_allowed F D fieldName candidateField validationField
    keys required e w :
  DictFieldChecker__check_field int_of_text fieldName candidateField
    validationField keys [] [] required = Returns (e, w) ->
  count (is_not_allowed F D) e
  = if ustr_eqb (name validationField) F && name_in D keys
    then occurrences D (disallowedFields validationField) else 0.
Proof.
  intros H; apply check_field_shape in H; destruct H as [own [-> Hown]].
  rewrite count_app, disallowed_errors_count.
  rewrite count_Forall_none; [reflexivity |].
  revert Hown; apply Forall_impl.
  intros x [[a [b ->]] | [y ->]]; reflexivity.
Qed.

Lemma required_loop_names F fs candidate keys c e w :
  ~ In F (map (@name _) fs) -> ~ In F keys ->
  required_loop int_of_text fs candidate keys [] [] = Returns (c, e, w) ->
  count (names_field F) e = 0.
Proof.
  intros HF HK; revert candidate c e w HF.
  induction fs as [|f fs IH]; intros candidate c e w HF H.
  - injection H as _ <- _; reflexivity.
  - cbn [required_loop] in H; simpl in HF.
    assert (Hf : name f <> F) by tauto.
    destruct (dict_get candidate (name f)) as [v |].
    + destruct (DictFieldChecker__check_field int_of_text (name f) v f keys
                  [] [] true) as [[e1 w1] | x] eqn:C; cbn [bind] in H;
        [| discriminate].
      rewrite required_loop_frame in H.
      destruct (required_loop int_of_text fs _ keys [] [])
        as [[[c2 e2] w2] | x] eqn:R; simpl in H; [| discriminate].
      injection H as _ <- _.
      rewrite count_app, (@check_field_names F _ _ _ _ _ _ _ Hf Hf HK C).
      apply (IH _ _ _ _ (fun G => HF (or_intror G)) R).
    + rewrite required_loop_frame in H.
      destruct (required_loop int_of_text fs _ keys [] [])
        as [[[c2 e2] w2] | x] eqn:R; simpl in H; [| discriminate].
      injection H as _ <- _.
      change (count (names_field F) ([MissingRequired (name f)] ++ e2) = 0).
      rewrite count_app, (IH _ _ _ _ (fun G => HF (or_intror G)) R).
      unfold count; simpl.
      destruct (ustr_eqb (name f) F) eqn:E; [| reflexivity].
      apply ustr_eqb_eq in E; contradiction.
Qed.

Lemma remaining_loop_names F od items keys e w :
  filed_by_name od -> ~ In F (dict_keys items) -> ~ In F keys ->
  remaining_loop int_of_text od items keys [] [] = Returns (e, w) ->
  count (names_field F) e = 0.
Proof.
  intros Hod HF HK; revert e w HF.
  induction items as [|[k v] items IH]; intros e w HF H.
  - injection H as <- _; reflexivity.
  - cbn [remaining_loop] in H; simpl in HF.
    assert (Hk : k <> F) by tauto.
    destruct (dict_get od k) as [vf |] eqn:G.
    + assert (Hv : name vf <> F) by (rewrite (Hod _ _ G); exact Hk).
      destruct (DictFieldChecker__check_field int_of_text k v vf keys
                  [] [] false) as [[e1 w1] | x] eqn:C; cbn [bind] in H;
        [| discriminate].
      rewrite remaining_loop_frame in H.
      destruct (remaining_loop int_of_text od items keys [] [])
        as [[e2 w2] | x] eqn:R; simpl in H; [| discriminate].
      injection H as <- _.
      rewrite count_app, (@check_field_names F _ _ _ _ _ _ _ Hk Hv HK C).
      apply (IH _ _ (fun K => HF (or_intror K)) eq_refl).
    + cbn [bind] in H; rewrite remaining_loop_frame in H.
      destruct (remaining_loop int_of_text od items keys [] [])
        as [[e2 w2] | x] eqn:R; simpl in H; [| discriminate].
      injection H as <- _.
      change (count (names_field F) ([UnexpectedField k] ++ e2) = 0).
      rewrite count_app, (IH _ _ (fun K => HF (or_intror K)) eq_refl).
      unfold count; simpl.
      destruct (ustr_eqb k F) eqn:E; [| reflexivity].
      apply ustr_eqb_eq in E; contradiction.
Qed.
End Counting.

(** ** A missing required field *)

Lemma bind_field_names int_of_text (l : list Field) :
  map (@name _) (map (bind_field int_of_text) l) = map (@name _) l.
Proof. rewrite map_map; reflexivity. Qed.

(** C4: let a checker declare the required fields [pre ++ f :: post], with
    distinct names, and let the candidate have no key [name f].  Whenever
    [validate] returns, exactly one of its errors is about the field
    [name f] of the record, and it is the message of l.319; nothing else is
    lost: without that message the errors, and the warnings as they are, are
    those of the same checker with [f] taken out of the required fields, so
    every other field has been checked. *)
Theorem missing_required_field (int_of_text : ustring -> option Z)
    (pre post : list Field) (f : Field) (optional historical : list Field)
    (d : dict value) (required : bool) (errs warns : list message) :
  NoDup (map (@name _) (pre ++ f :: post)) ->
  dict_get d (name f) = None ->
  validate int_of_text
    (DictFieldChecker (pre ++ f :: post) optional historical)
    (PyDict d) required = Returns (errs, warns) ->
  count (names_field (name f)) errs = 1
  /\ exists e1 e2,
       errs = e1 ++ MissingRequired (name f) :: e2
       /\ validate int_of_text
            (DictFieldChecker (pre ++ post) optional historical)
            (PyDict d) required = Returns (e1 ++ e2, warns).
Proof.
  intros Hnd Hd H.
  rewrite validate_DictFieldChecker in *.
  unfold FieldChecker__validate, DictFieldChecker__validate in *.
  change (isinstance (PyDict d) dict_t) with true in *; cbn [negb] in *.
  set (od := make_optional_dict _ _) in *.
  assert (Hod : filed_by_name od) by apply dict_of_pairs_by_name.
  rewrite map_app, required_loop_app in *; cbn [map] in H.
  assert (Hpre : ~ In (name f) (map (@name _) (map (bind_field int_of_text) pre))
                 /\ ~ In (name f)
                      (map (@name _) (map (bind_field int_of_text) post))).
  { rewrite !bind_field_names; rewrite ?map_app in Hnd; cbn [map] in Hnd.
    apply NoDup_remove_2 in Hnd; rewrite in_app_iff in Hnd; tauto. }
  destruct Hpre as [Hpre Hpost].
  assert (Hkeys : ~ In (name f) (dict_keys d)) by (apply dict_get_None, Hd).
  destruct (required_loop int_of_text (map (bind_field int_of_text) pre) d
              (dict_keys d) [] []) as [[[c1 e1] w1] | x] eqn:R1;
    cbn [bind] in *; [| discriminate].
  assert (G : dict_get c1 (name f) = None).
  { rewrite (required_loop_candidate _ _ _ _ _ _ R1).
    rewrite (dict_get_filter
               (fun k => negb (name_in k (map (@name _)
                                            (map (bind_field int_of_text) pre))))).
    rewrite Hd; destruct (negb _); reflexivity. }
  cbn [required_loop] in H.
  change (name (bind_field int_of_text f)) with (name f) in H.
  rewrite G in H.
  rewrite required_loop_frame in H |- *.
  destruct (required_loop int_of_text (map (bind_field int_of_text) post) c1
              (dict_keys d) [] []) as [[[c2 e2] w2] | x] eqn:R2;
    cbn [extend3 bind] in *; [| discriminate].
  assert (Hc2 : ~ In (name f) (dict_keys c2)).
  { rewrite (required_loop_candidate _ _ _ _ _ _ R2).
    rewrite (dict_keys_filter
               (fun k => negb (name_in k (map (@name _)
                                            (map (bind_field int_of_text)
                                               post))))).
    intros [K _]; apply dict_get_None in G; contradiction. }
  rewrite remaining_loop_frame in H |- *.
  destruct (remaining_loop int_of_text od c2 (dict_keys d) [] [])
    as [[e3 w3] | x] eqn:R3; cbn [extend bind] in *; [| discriminate].
  injection H as <- <-.
  split.
  - rewrite !count_app.
    rewrite (@required_loop_names int_of_text (name f) _ _ _ _ _ _
               Hpre Hkeys R1),
      (@required_loop_names int_of_text (name f) _ _ _ _ _ _
         Hpost Hkeys R2),
      (@remaining_loop_names int_of_text (name f) _ _ _ _ _
         Hod Hc2 Hkeys R3).
    unfold count; simpl; rewrite ustr_eqb_refl; reflexivity.
  - exists e1, (e2 ++ e3); split.
    + rewrite <- !app_assoc; reflexivity.
    + rewrite <- !app_assoc; reflexivity.
Qed.

Lemma missing_required_field_witness :
  validate int_of_ascii track_fields (PyDict track_incomplete) true
  = Returns (track_incomplete_errors, [])
  /\ count (names_field (U "name")) track_incomplete_errors = 1
  /\ exists e1 e2,
       track_incomplete_errors = e1 ++ MissingRequired (U "name") :: e2
       /\ validate int_of_ascii
            (DictFieldChecker
               ([Field' "type" unicode'; Field' "id" unicode']
                  ++ [Field' "artist" (Checker (DictFieldChecker
                        [ Field' "id" unicode';
                          Field' "name" unicode' ] [] []))])
               track_optional track_historical)
            (PyDict track_incomplete) true
          = Returns (e1 ++ e2, []).
Proof.
  split; [vm_compute; reflexivity |].
  apply (@missing_required_field int_of_ascii
           [Field' "type" unicode'; Field' "id" unicode']
           [Field' "artist" (Checker (DictFieldChecker
              [ Field' "id" unicode'; Field' "name" unicode' ] [] []))]
           (Field' "name" unicode') track_optional track_historical
           track_incomplete true track_incomplete_errors []).
  - repeat constructor; simpl; intuition discriminate.
  - reflexivity.
  - vm_compute; reflexivity.
Defined.

Lemma NoDup_app_disjoint (A : Type) (l l' : list A) (a : A) :
  NoDup (l ++ l') -> In a l -> ~ In a l'.
Proof.
  induction l as [|x l IH]; simpl; intros H Hin; [contradiction |].
  inversion H as [|? ? Hx Hl]; subst.
  destruct Hin as [-> | Hin]; [| apply (IH Hl Hin)].
  intros Ha; apply Hx, in_or_app; right; exact Ha.
Qed.

Lemma occurrences_absent D l : ~ In D l -> occurrences D l = 0.
Proof.
  induction l as [|u l IH]; intros H; [reflexivity |].
  rewrite occurrences_cons, IH by (simpl in H; tauto).
  destruct (ustr_eqb D u) eqn:E0; [| reflexivity].
  apply ustr_eqb_eq in E0; subst; simpl in H; tauto.
Qed.

Lemma occurrences_NoDup D l : NoDup l -> In D l -> occurrences D l = 1.
Proof.
  induction 1 as [|u l Hu Hl IH]; intros Hin; [contradiction |].
  rewrite occurrences_cons.
  destruct Hin as [-> | Hin].
  - rewrite ustr_eqb_refl, occurrences_absent by exact Hu; reflexivity.
  - rewrite (IH Hin).
    destruct (ustr_eqb D u) eqn:E0; [| reflexivity].
    apply ustr_eqb_eq in E0; subst; contradiction.
Qed.

(** ** Fields that must not come together *)

Section NotAllowed.
Variable int_of_text : ustring -> option Z.
Implicit Types (fs pre post : list (Field_ bound)) (candidate : dict value).
Implicit Types (od : dict (Field_ bound)) (items : list (ustring * value)).

Lemma required_loop_not_allowed_other F D fs candidate keys c e w :
  ~ In F (map (@name _) fs) ->
  required_loop int_of_text fs candidate keys [] [] = Returns (c, e, w) ->
  count (is_not_allowed F D) e = 0.
Proof.
  revert candidate c e w.
  induction fs as [|f fs IH]; intros candidate c e w HF H.
  - injection H as _ <- _; reflexivity.
  - cbn [required_loop] in H; simpl in HF.
    assert (Hf : ustr_eqb (name f) F = false)
      by (apply ustr_eqb_neq; tauto).
    destruct (dict_get candidate (name f)) as [v |].
    + destruct (DictFieldChecker__check_field int_of_text (name f) v f keys
                  [] [] true) as [[e1 w1] | x] eqn:C; cbn [bind] in H;
        [| discriminate].
      rewrite required_loop_frame in H.
      destruct (required_loop int_of_text fs _ keys [] [])
        as [[[c2 e2] w2] | x] eqn:R; simpl in H; [| discriminate].
      injection H as _ <- _.
      rewrite count_app, (check_field_not_allowed _ F D _ _ _ _ _ C), Hf.
      apply (IH _ _ _ _ (fun G => HF (or_intror G)) R).
    + rewrite required_loop_frame in H.
      destruct (required_loop int_of_text fs _ keys [] [])
        as [[[c2 e2] w2] | x] eqn:R; simpl in H; [| discriminate].
      injection H as _ <- _.
      change (count (is_not_allowed F D) ([MissingRequired (name f)] ++ e2) = 0).
      rewrite count_app; apply (IH _ _ _ _ (fun G => HF (or_intror G)) R).
Qed.

Lemma required_loop_not_allowed D pre f post candidate keys v c e w :
  NoDup (map (@name _) (pre ++ f :: post)) ->
  dict_get candidate (name f) = Some v ->
  required_loop int_of_text (pre ++ f :: post) candidate keys [] []
  = Returns (c, e, w) ->
  count (is_not_allowed (name f) D) e
  = if name_in D keys then occurrences D (disallowedFields f) else 0.
Proof.
  intros Hnd Hv H.
  rewrite map_app in Hnd; cbn [map] in Hnd.
  assert (Hpre : ~ In (name f) (map (@name _) pre)
                 /\ ~ In (name f) (map (@name _) post)).
  { apply NoDup_remove_2 in Hnd; rewrite in_app_iff in Hnd; tauto. }
  destruct Hpre as [Hpre Hpost].
  rewrite required_loop_app in H.
  destruct (required_loop int_of_text pre candidate keys [] [])
    as [[[c1 e1] w1] | x] eqn:R1; cbn [bind] in H; [| discriminate].
  assert (G : dict_get c1 (name f) = Some v).
  { rewrite (required_loop_candidate _ _ _ _ _ _ R1).
    rewrite (dict_get_filter
               (fun k => negb (name_in k (map (@name _) pre)))).
    destruct (name_in (name f) (map (@name _) pre)) eqn:N; [| exact Hv].
    apply name_in_In in N; contradiction. }
  cbn [required_loop] in H; rewrite G in H.
  rewrite check_field_frame in H.
  destruct (DictFieldChecker__check_field int_of_text (name f) v f keys
              [] [] true) as [[e2 w2] | x] eqn:C; cbn [extend bind] in H;
    [| discriminate].
  rewrite required_loop_frame in H.
  destruct (required_loop int_of_text post _ keys [] [])
    as [[[c3 e3] w3] | x] eqn:R3; simpl in H; [| discriminate].
  injection H as _ <- _.
  rewrite !count_app.
  rewrite (required_loop_not_allowed_other (name f) D _ _ _ Hpre R1),
    (required_loop_not_allowed_other (name f) D _ _ _ Hpost R3),
    (check_field_not_allowed _ (name f) D _ _ _ _ _ C).
  rewrite ustr_eqb_refl; cbn [andb]; lia.
Qed.

Lemma remaining_loop_app od items1 items2 keys errors warnings :
  remaining_loop int_of_text od (items1 ++ items2) keys errors warnings
  = '(e, w) <- remaining_loop int_of_text od items1 keys errors warnings ;;
    remaining_loop int_of_text od items2 keys e w.
Proof.
  revert errors warnings.
  induction items1 as [|[k v] items1 IH]; intros errors warnings;
    [reflexivity |].
  cbn [app remaining_loop].
  destruct (dict_get od k) as [vf |]; cbn [bind]; [| apply IH].
  destruct (DictFieldChecker__check_field int_of_text k v vf keys
              errors warnings false) as [[e w] | x]; cbn [bind];
    [apply IH | reflexivity].
Qed.

Lemma remaining_loop_not_allowed_other F D od items keys e w :
  filed_by_name od ->
  ~ In F (dict_keys items) ->
  remaining_loop int_of_text od items keys [] [] = Returns (e, w) ->
  count (is_not_allowed F D) e = 0.
Proof.
  intros Hod; revert e w.
  induction items as [|[k v] items IH]; intros e w HF H.
  - injection H as <- _; reflexivity.
  - cbn [remaining_loop] in H; simpl in HF.
    destruct (dict_get od k) as [vf |] eqn:G.
    + assert (Hf : ustr_eqb (name vf) F = false).
      { apply ustr_eqb_neq; rewrite (Hod _ _ G); tauto. }
      destruct (DictFieldChecker__check_field int_of_text k v vf keys
                  [] [] false) as [[e1 w1] | x] eqn:C; cbn [bind] in H;
        [| discriminate].
      rewrite remaining_loop_frame in H.
      destruct (remaining_loop int_of_text od items keys [] [])
        as [[e2 w2] | x] eqn:R; simpl in H; [| discriminate].
      injection H as <- _.
      rewrite count_app, (check_field_not_allowed _ F D _ _ _ _ _ C), Hf.
      apply (IH _ _ (fun K => HF (or_intror K)) eq_refl).
    + cbn [bind] in H; rewrite remaining_loop_frame in H.
      destruct (remaining_loop int_of_text od items keys [] [])
        as [[e2 w2] | x] eqn:R; simpl in H; [| discriminate].
      injection H as <- _.
      apply (IH _ _ (fun K => HF (or_intror K)) eq_refl).
Qed.

Lemma remaining_loop_not_allowed F D od items keys vf e w :
  filed_by_name od ->
  NoDup (dict_keys items) ->
  In F (dict_keys items) ->
  dict_get od F = Some vf ->
  remaining_loop int_of_text od items keys [] [] = Returns (e, w) ->
  count (is_not_allowed F D) e
  = if name_in D keys then occurrences D (disallowedFields vf) else 0.
Proof.
  intros Hod Hnd Hin Hvf H.
  unfold dict_keys in Hin; apply in_map_iff in Hin.
  destruct Hin as [[k v] [Hk Hin]]; simpl in Hk; subst k.
  apply in_split in Hin; destruct Hin as [items1 [items2 ->]].
  unfold dict_keys in Hnd; rewrite map_app in Hnd; cbn [map fst] in Hnd.
  assert (Hout : ~ In F (dict_keys items1) /\ ~ In F (dict_keys items2)).
  { apply NoDup_remove_2 in Hnd; rewrite in_app_iff in Hnd;
      unfold dict_keys; tauto. }
  destruct Hout as [H1 H2].
  rewrite remaining_loop_app in H.
  destruct (remaining_loop int_of_text od items1 keys [] [])
    as [[e1 w1] | x] eqn:R1; cbn [bind] in H; [| discriminate].
  cbn [remaining_loop] in H; rewrite Hvf in H.
  rewrite check_field_frame in H.
  destruct (DictFieldChecker__check_field int_of_text F v vf keys
              [] [] false) as [[e2 w2] | x] eqn:C; cbn [extend bind] in H;
    [| discriminate].
  rewrite remaining_loop_frame in H.
  destruct (remaining_loop int_of_text od items2 keys [] [])
    as [[e3 w3] | x] eqn:R3; simpl in H; [| discriminate].
  injection H as <- _.
  rewrite !count_app.
  rewrite (remaining_loop_not_allowed_other F D _ _ Hod H1 R1),
    (remaining_loop_not_allowed_other F D _ _ Hod H2 R3),
    (check_field_not_allowed _ F D _ _ _ _ _ C).
  rewrite (Hod _ _ Hvf), ustr_eqb_refl; cbn [andb]; lia.
Qed.
End NotAllowed.

Lemma dict_get_present (V : Type) (d : dict V) k :
  In k (dict_keys d) -> exists v, dict_get d k = Some v.
Proof.
  intros H; destruct (dict_get d k) as [v |] eqn:G; [exists v; reflexivity |].
  apply dict_get_None in G; contradiction.
Qed.

(** The errors of l.304 that the check of one declared field gives: for a
    checker that declares fields with distinct names, a record with
    distinct keys that holds [name f] and any name [D], the error for
    [(name f, D)] occurs as often as [D] is listed among the names that [f]
    disallows if [D] is a key of the original record, and not at all
    otherwise. *)
Lemma not_allowed_count (int_of_text : ustring -> option Z)
    (required optional historical : list Field) (d : dict value)
    (req : bool) (f : Field) (D : ustring) (errs warns : list message) :
  NoDup (map (@name _) (required ++ historical ++ optional)) ->
  NoDup (dict_keys d) ->
  In f (required ++ historical ++ optional) ->
  In (name f) (dict_keys d) ->
  validate int_of_text (DictFieldChecker required optional historical)
    (PyDict d) req = Returns (errs, warns) ->
  count (is_not_allowed (name f) D) errs
  = if name_in D (dict_keys d) then occurrences D (disallowedFields f) else 0.
Proof.
  intros Hnd Hd Hf Hk H.
  rewrite validate_DictFieldChecker in H.
  unfold FieldChecker__validate, DictFieldChecker__validate in H.
  change (isinstance (PyDict d) dict_t) with true in H; cbn [negb] in H.
  set (bf := bind_field int_of_text) in *.
  destruct (required_loop int_of_text (map bf required) d (dict_keys d) [] [])
    as [[[c e1] w1] | x] eqn:R1; cbn [bind] in H; [| discriminate].
  rewrite remaining_loop_frame in H.
  destruct (remaining_loop int_of_text _ c (dict_keys d) [] [])
    as [[e2 w2] | x] eqn:R2; cbn [extend bind] in H; [| discriminate].
  injection H as <- _.
  pose proof (required_loop_candidate _ _ _ _ _ _ R1) as Hc.
  assert (Hod : filed_by_name
                  (make_optional_dict (map bf historical) (map bf optional)))
    by apply dict_of_pairs_by_name.
  rewrite map_app in Hnd.
  rewrite count_app.
  change (disallowedFields f) with (disallowedFields (bf f)).
  change (name f) with (name (bf f)) in *.
  apply in_app_or in Hf; destruct Hf as [Hf | Hf].
  - apply in_split in Hf; destruct Hf as [pre [post ->]].
    destruct (dict_get_present d _ Hk) as [v Hv].
    rewrite map_app in R1; cbn [map] in R1.
    assert (E1 : count (is_not_allowed (name (bf f)) D) e1
                 = if name_in D (dict_keys d)
                   then occurrences D (disallowedFields (bf f)) else 0).
    { eapply required_loop_not_allowed; [| exact Hv | exact R1].
      apply NoDup_app_remove_r in Hnd.
      rewrite <- (bind_field_names int_of_text) in Hnd.
      fold bf in Hnd; rewrite map_app in Hnd; exact Hnd. }
    assert (E2 : count (is_not_allowed (name (bf f)) D) e2 = 0).
    { eapply remaining_loop_not_allowed_other; [exact Hod | | exact R2].
      rewrite Hc.
      rewrite (dict_keys_filter
                 (fun k => negb (name_in k (map (@name _)
                                              (map bf (pre ++ f :: post)))))).
      intros [_ Q]; apply negb_true_iff in Q.
      assert (Q' : name_in (name (bf f))
                     (map (@name _) (map bf (pre ++ f :: post))) = true).
      { apply name_in_In; unfold bf; rewrite bind_field_names.
        change (In (name f) (map (@name _) (pre ++ f :: post))).
        apply in_map, in_elt. }
      congruence. }
    rewrite E1, E2; lia.
  - assert (Hreq : ~ In (name (bf f)) (map (@name _) (map bf required))).
    { unfold bf; rewrite bind_field_names; intros Hin.
      apply (@NoDup_app_disjoint _ _ _ _ Hnd Hin).
      change (In (name f) (map (@name _) (historical ++ optional))).
      apply in_map, Hf. }
    assert (E1 : count (is_not_allowed (name (bf f)) D) e1 = 0).
    { eapply required_loop_not_allowed_other; [exact Hreq | exact R1]. }
    assert (E2 : count (is_not_allowed (name (bf f)) D) e2
                 = if name_in D (dict_keys d)
                   then occurrences D (disallowedFields (bf f)) else 0).
    { eapply remaining_loop_not_allowed; [exact Hod | | | | exact R2].
      - rewrite Hc; apply dict_keys_filter_NoDup, Hd.
      - rewrite Hc.
        apply (dict_keys_filter
                 (fun k => negb (name_in k (map (@name _) (map bf required))))).
        split; [exact Hk |].
        apply negb_true_iff.
        destruct (name_in _ _) eqn:Q; [| reflexivity].
        apply name_in_In in Q; contradiction.
      - unfold make_optional_dict.
        apply dict_of_pairs_found.
        + rewrite map_app; unfold bf; rewrite !bind_field_names.
          rewrite <- map_app; apply NoDup_app_remove_l in Hnd; exact Hnd.
        + rewrite <- map_app; apply in_map, Hf. }
    rewrite E1, E2; lia.
Qed.

Lemma count_pair_error (a b : ustring) (l : list message) :
  a <> b ->
  count (is_pair_error a b) l
  = count (is_not_allowed a b) l + count (is_not_allowed b a) l.
Proof.
  intros Hab; unfold count; induction l as [|x l IH]; [reflexivity |].
  cbn [filter]; unfold is_pair_error at 1.
  destruct (is_not_allowed a b x) eqn:E1; cbn [orb length].
  - assert (E2 : is_not_allowed b a x = false).
    { destruct x; try reflexivity; cbn [is_not_allowed] in *.
      apply andb_true_iff in E1; destruct E1 as [E1 E1'].
      apply ustr_eqb_eq in E1, E1'; subst.
      apply andb_false_iff; left; apply ustr_eqb_neq; exact Hab. }
    rewrite E2, IH; reflexivity.
  - destruct (is_not_allowed b a x); cbn [length]; rewrite IH; lia.
Qed.

(** C3, corrected: the errors of l.304 are counted for each declaration,
    not for each pair of fields.  Let a checker declare fields with distinct
    names and let the record, a dictionary with distinct keys, hold the
    declared field [f].  Whenever [validate] returns, for every name [D] the
    error for [(name f, D)] occurs as often as [D] is listed among the
    names that [f] disallows if [D] is a key of the original record (once
    when it is listed once) and not at all otherwise, whether [f] is
    required or optional and whether or not the item [D] has already been
    taken out of [candidate].  When the record also holds another declared
    field [g], the errors about the two fields are those of both
    declarations: two when each of them disallows the other once. *)
Theorem not_allowed_together_reported (int_of_text : ustring -> option Z)
    (required optional historical : list Field) (d : dict value)
    (req : bool) (f : Field) (errs warns : list message) :
  NoDup (map (@name _) (required ++ historical ++ optional)) ->
  NoDup (dict_keys d) ->
  In f (required ++ historical ++ optional) ->
  In (name f) (dict_keys d) ->
  validate int_of_text (DictFieldChecker required optional historical)
    (PyDict d) req = Returns (errs, warns) ->
  (forall D,
     count (is_not_allowed (name f) D) errs
     = if name_in D (dict_keys d)
       then occurrences D (disallowedFields f) else 0)
  /\ (forall g,
        In g (required ++ historical ++ optional) ->
        In (name g) (dict_keys d) ->
        name f <> name g ->
        count (is_pair_error (name f) (name g)) errs
        = occurrences (name g) (disallowedFields f)
          + occurrences (name f) (disallowedFields g)).
Proof.
  intros Hnd Hd Hf Hk H; split.
  - intros D.
    apply (@not_allowed_count int_of_text required optional historical d req
             f D errs warns Hnd Hd Hf Hk H).
  - intros g Hg Hkg Hfg.
    rewrite (count_pair_error _ Hfg).
    rewrite (@not_allowed_count int_of_text required optional historical d
               req f (name g) errs warns Hnd Hd Hf Hk H).
    rewrite (@not_allowed_count int_of_text required optional historical d
               req g (name f) errs warns Hnd Hd Hg Hkg H).
    apply name_in_In in Hk, Hkg; rewrite Hk, Hkg; reflexivity.
Qed.

Lemma not_allowed_together_reported_witness :
  validate int_of_ascii track_fields (PyDict track_regions) true
  = Returns (track_regions_errors, [])
  /\ count (is_not_allowed (U "regions") (U "regions_add"))
       track_regions_errors = 1
  /\ count (is_pair_error (U "regions") (U "regions_add"))
       track_regions_errors = 2.
Proof.
  assert (Hv : validate int_of_ascii track_fields (PyDict track_regions) true
               = Returns (track_regions_errors, []))
    by (vm_compute; reflexivity).
  assert (Hnd : NoDup (map (@name _)
                         (track_required ++ track_historical
                            ++ track_optional)))
    by (repeat constructor; simpl; intuition discriminate).
  assert (Hd : NoDup (dict_keys track_regions))
    by (repeat constructor; simpl; intuition discriminate).
  assert (Hf : In regions_field
                 (track_required ++ track_historical ++ track_optional))
    by (simpl; tauto).
  assert (Hk : In (name regions_field) (dict_keys track_regions))
    by (simpl; tauto).
  destruct (@not_allowed_together_reported int_of_ascii track_required
              track_optional track_historical track_regions true
              regions_field track_regions_errors [] Hnd Hd Hf Hk Hv)
    as [H1 H2].
  split; [exact Hv | split; [exact (H1 (U "regions_add")) |]].
  apply (H2 regions_add_field).
  - simpl; tauto.
  - simpl; tauto.
  - discriminate.
Defined.

(** The rule as the specification words it fails on the track record that
    holds both [regions] and [regions_add]: each of the two fields
    disallows the other, and each check reports it. *)
Lemma one_error_per_pair_fails : ~ one_error_per_pair int_of_ascii.
Proof.
  intros H.
  assert (Hv : validate int_of_ascii track_fields (PyDict track_regions) true
               = Returns (track_regions_errors, []))
    by (vm_compute; reflexivity).
  specialize (H track_required track_optional track_historical track_regions
                true regions_field (U "regions_add") track_regions_errors []).
  assert (E : count (is_pair_error (name regions_field) (U "regions_add"))
                track_regions_errors = 1).
  { apply H.
    - repeat constructor; simpl; intuition discriminate.
    - repeat constructor; simpl; intuition discriminate.
    - simpl; tauto.
    - repeat constructor; simpl; intuition discriminate.
    - simpl; tauto.
    - simpl; tauto.
    - simpl; tauto.
    - exact Hv. }
  vm_compute in E; discriminate E.
Qed.

(** The test of l.303 reads the keys of the original record: [id] has been
    popped from [candidate] when [alias] is checked, and the error is still
    reported. *)
Example not_allowed_after_pop :
  validate int_of_ascii alias_fields (PyDict alias_record) true
  = Returns ([NotAllowedTogether (U "alias") (U "id")], []).
Proof. reflexivity. Qed.

(** ** The error budget *)

Section Budget.
Variable int_of_text : ustring -> option Z.
Variable json_loads : ustring -> value + ustring.
Variable ingestion_fields : FieldChecker.

Abbreviation adds := (adds_error int_of_text json_loads ingestion_fields).
Abbreviation raises := (line_raises int_of_text json_loads ingestion_fields).
Abbreviation loop := (_validateFile_loop int_of_text json_loads ingestion_fields).
Abbreviation body := (examine int_of_text json_loads ingestion_fields).

(** One turn of the loop when the budget does not stop it. *)
Lemma loop_Yield max_errors line rest count errors warnings lineCount :
  (0 <? max_errors)%Z && (max_errors <=? Z.of_nat (length errors))%Z = false ->
  loop max_errors (Yield line rest) count errors warnings lineCount
  = match body count line errors warnings with
    | Returns (e, w) => loop max_errors rest (count + 1)%Z e w count
    | Raises x => except_UnicodeDecodeError x errors warnings count false
    end.
Proof.
  intros H; unfold examine; cbn [_validateFile_loop]; rewrite H.
  destruct (json_loads line) as [candidate | e]; [| reflexivity].
  destruct (validate int_of_text ingestion_fields candidate true)
    as [[validateErrors warns] | x]; reflexivity.
Qed.

(** What a line that does not raise does to [errors]. *)
Lemma body_returns count line errors warnings :
  raises line = false ->
  exists e w,
    body count line errors warnings = Returns (e, w)
    /\ length e = length errors + (if adds line then 1 else 0).
Proof.
  unfold line_raises, examine, adds_error.
  destruct (json_loads line) as [candidate | x].
  - destruct (validate int_of_text ingestion_fields candidate true)
      as [[validateErrors warns] | x]; [| discriminate].
    intros _; cbn [bind]; eexists; eexists; split; [reflexivity |].
    destruct (0 <? length validateErrors);
      rewrite ?length_app; simpl; lia.
  - intros _; eexists; eexists; split; [reflexivity |].
    rewrite length_app; simpl; lia.
Qed.

Lemma budget_open max_errors (errors : list message) :
  (Z.of_nat (length errors) < max_errors)%Z ->
  (0 <? max_errors)%Z && (max_errors <=? Z.of_nat (length errors))%Z = false.
Proof.
  intros H; apply andb_false_iff; right; apply Z.leb_gt; exact H.
Qed.

Lemma budget_loop max_errors (g : generator) :
  forall count errors warnings lineCount,
    (Z.of_nat (length errors) < max_errors)%Z ->
    Forall (fun line => raises line = false) (yields g) ->
    (max_errors
     < Z.of_nat (length errors + length (filter adds (yields g))))%Z ->
    exists errors' warnings' k,
      loop max_errors g count errors warnings lineCount
      = Returns (errors', warnings', (count + Z.of_nat k)%Z, true)
      /\ Z.of_nat (length errors') = max_errors
      /\ 0 < k < length (yields g)
      /\ length errors + length (filter adds (firstn k (yields g)))
         = length errors'
      /\ loop (-1) (generator_of (firstn k (yields g))) count errors warnings
           lineCount
         = Returns (errors', warnings', (count + Z.of_nat k)%Z, false).
Proof.
  induction g as [line rest IH | | x];
    intros count errors warnings lineCount Hlt Hok Hmany;
    [| simpl in Hmany; lia | simpl in Hmany; lia].
  cbn [yields] in *.
  inversion Hok as [|? ? Hline Hrest]; subst.
  destruct (body_returns count line errors warnings Hline)
    as [e [w [Hbody Hlen]]].
  assert (Hpos : (0 < max_errors)%Z) by lia.
  rewrite loop_Yield by (apply budget_open; exact Hlt); rewrite Hbody.
  cbn [filter] in Hmany.
  destruct (Z.eq_dec (Z.of_nat (length e)) max_errors) as [Hfull | Hmore].
  - (* the budget is reached: the next line stops the loop *)
    assert (Hnext : 0 < length (filter adds (yields rest))).
    { destruct (adds line); simpl in Hmany; lia. }
    destruct rest as [line' rest' | | x]; [| simpl in Hnext; lia ..].
    exists e, w, 1; repeat split.
    + cbn [_validateFile_loop].
      replace ((0 <? max_errors)%Z
               && (max_errors <=? Z.of_nat (length e))%Z) with true.
      * replace (count + 1 - 1 + 1)%Z with (count + Z.of_nat 1)%Z by lia.
        reflexivity.
      * symmetry; apply andb_true_iff; split;
          [apply Z.ltb_lt | apply Z.leb_le]; lia.
    + exact Hfull.
    + lia.
    + simpl; lia.
    + cbn [filter firstn]; destruct (adds line); simpl; lia.
    + cbn [firstn generator_of].
      rewrite loop_Yield, Hbody by reflexivity.
      cbn [_validateFile_loop]; reflexivity.
  - (* still under the budget *)
    assert (Hlt' : (Z.of_nat (length e) < max_errors)%Z).
    { destruct (adds line); lia. }
    destruct (IH (count + 1)%Z e w count Hlt' Hrest)
      as [errors' [warnings' [k [Hrun [Hfull [Hk [Hcount Hprefix]]]]]]].
    { destruct (adds line); simpl in Hmany; lia. }
    exists errors', warnings', (S k); repeat split.
    + rewrite Hrun.
      replace (count + 1 + Z.of_nat k)%Z with (count + Z.of_nat (S k))%Z by lia.
      reflexivity.
    + exact Hfull.
    + lia.
    + simpl; lia.
    + cbn [firstn filter].
      destruct (adds line); simpl; lia.
    + cbn [firstn generator_of].
      rewrite loop_Yield, Hbody by reflexivity.
      rewrite Hprefix.
      replace (count + 1 + Z.of_nat k)%Z with (count + Z.of_nat (S k))%Z by lia.
      reflexivity.
Qed.
End Budget.

(** C2: with a budget [max_errors > 0], if the reader yields more than
    [max_errors] lines that add an error (and [validate] raises on none of
    the lines), the driver returns with [stoppedEarly = True], exactly
    [max_errors] errors and a count [k] such that: the line of index [k]
    exists and is the one on which the loop stopped; the first [k] lines
    hold exactly [max_errors] lines that add an error; and the errors, the
    warnings and the count are those of a run without budget over the first
    [k] lines alone.  So [k] is the number of lines examined, the line that
    met the exhausted budget left out. *)
Theorem error_budget (int_of_text : ustring -> option Z)
    (json_loads : ustring -> value + ustring) (input_file : list read)
    (ingestion_fields : FieldChecker) (max_errors : Z) :
  (0 < max_errors)%Z ->
  Forall (fun line =>
            line_raises int_of_text json_loads ingestion_fields line = false)
    (yields (safe_file_reader input_file)) ->
  (max_errors
   < Z.of_nat (length (filter
                         (adds_error int_of_text json_loads ingestion_fields)
                         (yields (safe_file_reader input_file)))))%Z ->
  exists errors warnings k,
    _validateFile int_of_text json_loads input_file ingestion_fields
      max_errors
    = Returns (errors, warnings, Z.of_nat k, true)
    /\ Z.of_nat (length errors) = max_errors
    /\ 0 < k < length (yields (safe_file_reader input_file))
    /\ length (filter (adds_error int_of_text json_loads ingestion_fields)
                 (firstn k (yields (safe_file_reader input_file))))
       = length errors
    /\ _validateFile_loop int_of_text json_loads ingestion_fields (-1)
         (generator_of (firstn k (yields (safe_file_reader input_file))))
         0 [] [] 0
       = Returns (errors, warnings, Z.of_nat k, false).
Proof.
  intros Hpos Hok Hmany.
  destruct (@budget_loop int_of_text json_loads ingestion_fields max_errors
              (safe_file_reader input_file) 0%Z [] [] 0%Z Hpos Hok Hmany)
    as [errors [warnings [k H]]].
  exists errors, warnings, k; exact H.
Qed.

Lemma error_budget_witness :
  (0 < 2)%Z
  /\ Forall (fun line =>
               line_raises int_of_ascii (loads_only track_line track_example)
                 track_fields line = false)
       (yields (safe_file_reader budget_file))
  /\ (2 < Z.of_nat (length (filter
                              (adds_error int_of_ascii
                                 (loads_only track_line track_example)
                                 track_fields)
                              (yields (safe_file_reader budget_file)))))%Z
  /\ exists errors warnings k,
       _validateFile int_of_ascii (loads_only track_line track_example)
         budget_file track_fields 2
       = Returns (errors, warnings, Z.of_nat k, true)
       /\ Z.of_nat (length errors) = 2%Z
       /\ 0 < k < length (yields (safe_file_reader budget_file))
       /\ length (filter (adds_error int_of_ascii
                            (loads_only track_line track_example)
                            track_fields)
                    (firstn k (yields (safe_file_reader budget_file))))
          = length errors
       /\ _validateFile_loop int_of_ascii
            (loads_only track_line track_example) track_fields (-1)
            (generator_of (firstn k (yields (safe_file_reader budget_file))))
            0 [] [] 0
          = Returns (errors, warnings, Z.of_nat k, false).
Proof.
  assert (H1 : (0 < 2)%Z) by reflexivity.
  assert (H2 : Forall (fun line =>
                  line_raises int_of_ascii
                    (loads_only track_line track_example)
                    track_fields line = false)
                 (yields (safe_file_reader budget_file)))
    by (unfold budget_file, safe_file_reader;
        cbn [safe_file_reader_from yields app rev existsb];
        repeat (apply Forall_cons; [vm_compute; reflexivity |]);
        apply Forall_nil).
  assert (H3 : (2 < Z.of_nat (length (filter
                              (adds_error int_of_ascii
                                 (loads_only track_line track_example)
                                 track_fields)
                              (yields (safe_file_reader budget_file)))))%Z)
    by (vm_compute; reflexivity).
  repeat split; try assumption.
  exact (@error_budget int_of_ascii (loads_only track_line track_example)
           budget_file track_fields 2%Z H1 H2 H3).
Defined.

(** The run of the example: the fourth line meets the exhausted budget. *)
Example budget_example :
  _validateFile int_of_ascii (loads_only track_line track_example)
    budget_file track_fields 2
  = Returns ([ InvalidJSON 1 (U "No JSON object could be decoded");
               InvalidJSON 3 (U "No JSON object could be decoded") ],
             [], 3%Z, true).
Proof. vm_compute; reflexivity. Qed.

(** ** The order of the items of a record *)

Lemma name_in_Permutation (u : ustring) (l l' : list ustring) :
  Permutation l l' -> name_in u l = name_in u l'.
Proof.
  intros H.
  destruct (name_in u l) eqn:E, (name_in u l') eqn:E'; try reflexivity.
  - apply name_in_In in E; apply (Permutation_in _ H), name_in_In in E.
    congruence.
  - apply name_in_In in E'.
    apply (Permutation_in _ (Permutation_sym H)), name_in_In in E'.
    congruence.
Qed.

Lemma dict_remove_Permutation (V : Type) (d d' : dict V) n :
  Permutation d d' -> Permutation (dict_remove d n) (dict_remove d' n).
Proof.
  unfold dict_remove; induction 1 as [| x l l' _ IH | x y l | l l' l'' _ IH1 _ IH2];
    simpl.
  - constructor.
  - destruct (negb _); [constructor |]; exact IH.
  - destruct (negb (ustr_eqb (fst x) n)), (negb (ustr_eqb (fst y) n));
      try apply Permutation_refl; constructor.
  - exact (Permutation_trans IH1 IH2).
Qed.

Lemma dict_keys_Permutation (V : Type) (d d' : dict V) :
  Permutation d d' -> Permutation (dict_keys d) (dict_keys d').
Proof. apply Permutation_map. Qed.

Lemma dict_get_Permutation (V : Type) (d d' : dict V) k :
  NoDup (dict_keys d) -> Permutation d d' -> dict_get d k = dict_get d' k.
Proof.
  intros Hnd H; revert Hnd.
  induction H as [| [k0 v0] l l' _ IH | [k1 v1] [k2 v2] l
                  | l l' l'' H1 IH1 H2 IH2]; intros Hnd.
  - reflexivity.
  - simpl in *; inversion Hnd; subst.
    destruct (ustr_eqb k0 k); [reflexivity | auto].
  - simpl in *.
    destruct (ustr_eqb k1 k) eqn:E1, (ustr_eqb k2 k) eqn:E2; try reflexivity.
    apply ustr_eqb_eq in E1, E2; subst.
    inversion Hnd as [|? ? Hx _]; subst; simpl in Hx; tauto.
  - rewrite IH1 by exact Hnd; apply IH2.
    apply (Permutation_NoDup (dict_keys_Permutation H1) Hnd).
Qed.

Section ItemOrder.
Variable int_of_text : ustring -> option Z.
Implicit Types (fs : list (Field_ bound)) (keys : list ustring).

Lemma disallowed_loop_keys name dis keys keys' errors :
  (forall u, name_in u keys = name_in u keys') ->
  disallowed_loop name dis keys errors = disallowed_loop name dis keys' errors.
Proof.
  intros H; revert errors; induction dis as [|u dis IH]; intros errors;
    simpl; [reflexivity |].
  rewrite (H u); apply IH.
Qed.

Lemma check_field_keys fieldName candidateField validationField keys keys'
    errors warnings required :
  (forall u, name_in u keys = name_in u keys') ->
  DictFieldChecker__check_field int_of_text fieldName candidateField
    validationField keys errors warnings required
  = DictFieldChecker__check_field int_of_text fieldName candidateField
      validationField keys' errors warnings required.
Proof.
  intros H; unfold DictFieldChecker__check_field.
  destruct (match expectedValue validationField with
            | BInstance _ => _ | BChecker _ => _ end) as [[e w] | x];
    cbn [bind]; [| reflexivity].
  rewrite (@disallowed_loop_keys _ _ keys keys' _ H); reflexivity.
Qed.

Lemma remaining_loop_keys od items keys keys' errors warnings :
  (forall u, name_in u keys = name_in u keys') ->
  remaining_loop int_of_text od items keys errors warnings
  = remaining_loop int_of_text od items keys' errors warnings.
Proof.
  intros H; revert errors warnings.
  induction items as [|[k v] items IH]; intros errors warnings;
    [reflexivity |].
  cbn [remaining_loop].
  destruct (dict_get od k) as [vf |]; cbn [bind]; [| apply IH].
  rewrite (@check_field_keys _ _ _ keys keys' _ _ _ H).
  destruct (DictFieldChecker__check_field int_of_text k v vf keys'
              errors warnings false) as [[e w] | x]; cbn [bind];
    [apply IH | reflexivity].
Qed.

(** On two orders of the same items the first loop gathers the same
    messages and leaves the same items. *)
Lemma required_loop_Permutation fs :
  forall (candidate candidate' : dict value) keys keys' errors warnings,
    NoDup (dict_keys candidate) ->
    Permutation candidate candidate' ->
    (forall u, name_in u keys = name_in u keys') ->
    match required_loop int_of_text fs candidate keys errors warnings,
          required_loop int_of_text fs candidate' keys' errors warnings with
    | Returns (c, e, w), Returns (c', e', w') =>
        Permutation c c' /\ e = e' /\ w = w'
    | Raises x, Raises x' => x = x'
    | _, _ => False
    end.
Proof.
  induction fs as [|f fs IH];
    intros candidate candidate' keys keys' errors warnings Hnd Hp Hk.
  - simpl; auto.
  - cbn [required_loop].
    rewrite <- (@dict_get_Permutation _ candidate candidate' (name f) Hnd Hp).
    destruct (dict_get candidate (name f)) as [v |].
    + rewrite (@check_field_keys _ _ _ keys keys' _ _ _ Hk).
      destruct (DictFieldChecker__check_field int_of_text (name f) v f keys'
                  errors warnings true) as [[e w] | x]; cbn [bind];
        [| reflexivity].
      apply IH; [| apply dict_remove_Permutation, Hp | exact Hk].
      apply dict_keys_filter_NoDup, Hnd.
    + apply IH; assumption.
Qed.

(** When at most one item is left for the second loop, [validate] does not
    depend on the order of the items of the record. *)
Lemma validate_items_order required optional historical
    (d d' : dict value) req :
  NoDup (dict_keys d) ->
  Permutation d d' ->
  length (filter (fun kv => negb (name_in (fst kv) (map (@name _) required)))
            d') <= 1 ->
  validate int_of_text (DictFieldChecker required optional historical)
    (PyDict d) req
  = validate int_of_text (DictFieldChecker required optional historical)
      (PyDict d') req.
Proof.
  intros Hnd Hp Hone.
  rewrite validate_DictFieldChecker.
  unfold FieldChecker__validate, DictFieldChecker__validate.
  change (isinstance (PyDict d) dict_t) with true.
  change (isinstance (PyDict d') dict_t) with true; cbn [negb].
  set (od := make_optional_dict _ _).
  assert (Hk : forall u, name_in u (dict_keys d) = name_in u (dict_keys d')).
  { intros u; apply name_in_Permutation, dict_keys_Permutation, Hp. }
  pose proof (@required_loop_Permutation
                (map (bind_field int_of_text) required) d d' (dict_keys d)
                (dict_keys d') [] [] Hnd Hp Hk) as H.
  destruct (required_loop int_of_text _ d (dict_keys d) [] [])
    as [[[c e] w] | x];
    destruct (required_loop int_of_text _ d' (dict_keys d') [] [])
      as [[[c' e'] w'] | x'] eqn:R'; try contradiction; cbn [bind];
    [| congruence].
  destruct H as [Hc [<- <-]].
  rewrite (@remaining_loop_keys _ _ (dict_keys d) (dict_keys d') _ _ Hk).
  replace c with c'; [reflexivity |].
  apply required_loop_candidate in R'.
  rewrite bind_field_names in R'; rewrite <- R' in Hone.
  destruct c' as [|kv [|kv' c']]; [| | simpl in Hone; lia].
  - symmetry; apply Permutation_nil, Permutation_sym, Hc.
  - symmetry; apply Permutation_length_1_inv, Permutation_sym, Hc.
Qed.
End ItemOrder.

(** ** The two scenarios, whatever the order of the items *)

Lemma NoDup_keys_Permutation (V : Type) (d d' : dict V) :
  Permutation d d' -> NoDup (dict_keys d') -> NoDup (dict_keys d).
Proof.
  intros H; apply Permutation_NoDup, Permutation_sym, dict_keys_Permutation, H.
Qed.

(** C5: a required field present with blank text gives a warning and no
    error.  (1) The artist record of the scenario, its three items in any
    order, validates with no error and the single warning for [name].
    (2) [valid_entry] holds exactly of the values that are not text and of
    the texts that [strip] leaves non-empty.  (3) In general, checking blank
    text against an expected text adds the warning of l.300 and no error of
    its own. *)
Theorem blank_required_field_warns :
  (forall int_of_text d,
      Permutation d artist_items ->
      validate int_of_text artist_fields (PyDict d) true
      = Returns ([], [InvalidEntry (U "name") (PyUnicode [])]))
  /\ (forall field,
         valid_entry field = true
         <-> (type field <> unicode_t
              \/ exists s, field = PyUnicode s /\ strip s <> []))
  /\ (forall int_of_text fieldName s x disallowed keys errors warnings,
         strip s = [] ->
         DictFieldChecker__check_field int_of_text fieldName (PyUnicode s)
           (mkField fieldName (BInstance (PyUnicode x)) disallowed)
           keys errors warnings true
         = Returns (disallowed_loop fieldName disallowed keys errors,
                    warnings ++ [InvalidEntry fieldName (PyUnicode s)])).
Proof.
  split; [| split].
  - intros int_of_text d Hp; unfold artist_fields.
    rewrite (@validate_items_order int_of_text artist_required
               artist_optional artist_historical d artist_items true).
    + reflexivity.
    + apply (NoDup_keys_Permutation Hp).
      repeat constructor; simpl; intuition discriminate.
    + exact Hp.
    + apply le_n.
  - intros field; split.
    + destruct field; try (intros _; left; discriminate).
      rewrite valid_entry_unicode, negb_true_iff, ustr_eqb_neq.
      intros H; right; exists s; split; [reflexivity | exact H].
    + intros [H | [s [-> H]]].
      * destruct field; try reflexivity; contradiction H; reflexivity.
      * rewrite valid_entry_unicode, negb_true_iff, ustr_eqb_neq; exact H.
  - intros int_of_text fieldName s x disallowed keys errors warnings H.
    unfold DictFieldChecker__check_field; cbn [expectedValue bind].
    change (isinstance (PyUnicode s) (type (PyUnicode x))) with true.
    cbn [negb bind andb].
    rewrite valid_entry_unicode, H; reflexivity.
Qed.

Lemma validate_track_bound (int_of_text : ustring -> option Z)
    (artist : validator) (od : dict (Field_ bound)) (a : dict value) :
  artist (PyDict a) true = Returns ([], []) ->
  DictFieldChecker__validate int_of_text
    [ mkField (U "type") (BInstance (PyUnicode [])) [];
      mkField (U "id") (BInstance (PyUnicode [])) [];
      mkField (U "name") (BInstance (PyUnicode [])) [];
      mkField (U "artist") (BChecker artist) [] ]
    od (PyDict (track_items a)) true
  = Returns ([], []).
Proof.
  intros H; unfold DictFieldChecker__validate, track_items.
  cbn [required_loop name dict_get].
  unfold DictFieldChecker__check_field; simpl.
  rewrite H; reflexivity.
Qed.

Lemma validate_track_items (int_of_text : ustring -> option Z)
    (d a : dict value) :
  Permutation d (track_items a) ->
  Permutation a track_artist_items ->
  validate int_of_text track_fields (PyDict d) true = Returns ([], []).
Proof.
  intros Hd Ha.
  assert (Hartist : validate int_of_text track_artist_fields (PyDict a) true
                    = Returns ([], [])).
  { unfold track_artist_fields.
    rewrite (@validate_items_order int_of_text _ _ _ a track_artist_items true).
    - reflexivity.
    - apply (NoDup_keys_Permutation Ha).
      repeat constructor; simpl; intuition discriminate.
    - exact Ha.
    - apply le_0_n. }
  unfold track_fields.
  rewrite (@validate_items_order int_of_text track_required track_optional
             track_historical d (track_items a) true).
  - rewrite validate_DictFieldChecker.
    unfold FieldChecker__validate.
    change (isinstance (PyDict (track_items a)) dict_t) with true.
    cbn [negb].
    apply (@validate_track_bound int_of_text
             (validate int_of_text track_artist_fields) _ a Hartist).
  - apply (NoDup_keys_Permutation Hd).
    repeat constructor; simpl; intuition discriminate.
  - exact Hd.
  - apply le_0_n.
Qed.

(** C9: take the one-line file holding the track record of the scenario,
    and let [json.loads] decode that line to a dictionary with the four
    items of the record, the nested artist with its two items, each in any
    order.  Against [track_fields] the driver returns no error, no warning
    and one processed line, whatever the budget. *)
Theorem validateFile_track_example (int_of_text : ustring -> option Z)
    (json_loads : ustring -> value + ustring) (max_errors : Z)
    (d a : dict value) :
  json_loads track_line = inl (PyDict d) ->
  Permutation d (track_items a) ->
  Permutation a track_artist_items ->
  _validateFile int_of_text json_loads [Line track_line] track_fields
    max_errors
  = Returns ([], [], 1%Z, false).
Proof.
  intros H Hd Ha.
  unfold _validateFile.
  change (safe_file_reader [Line track_line])
    with (Yield track_line StopIteration).
  cbn [_validateFile_loop].
  replace ((0 <? max_errors)%Z
           && (max_errors <=? Z.of_nat (length (@nil message)))%Z)
    with false
    by (simpl; destruct (0 <? max_errors)%Z eqn:E1,
          (max_errors <=? 0)%Z eqn:E2; try reflexivity; lia).
  rewrite H, (validate_track_items int_of_text Hd Ha).
  reflexivity.
Qed.

Lemma validateFile_track_example_witness :
  loads_only track_line track_example track_line = inl track_example
  /\ Permutation (track_items track_artist_items)
       (track_items track_artist_items)
  /\ Permutation track_artist_items track_artist_items
  /\ _validateFile int_of_ascii (loads_only track_line track_example)
       [Line track_line] track_fields 1000
     = Returns ([], [], 1%Z, false).
Proof.
  assert (H : loads_only track_line track_example track_line
              = inl (PyDict (track_items track_artist_items)))
    by (vm_compute; reflexivity).
  split; [exact H |].
  split; [apply Permutation_refl |].
  split; [apply Permutation_refl |].
  exact (@validateFile_track_example int_of_ascii
           (loads_only track_line track_example) 1000
           (track_items track_artist_items) track_artist_items H
           (Permutation_refl _) (Permutation_refl _)).
Defined.

(** * Further properties of the code *)

(** ** [valid_entry] and white space *)

Lemma lstrip_nil (s : ustring) : lstrip s = [] <-> forallb isspace s = true.
Proof.
  induction s as [|c s IH]; simpl; [tauto |].
  destruct (isspace c); simpl; [exact IH | split; discriminate].
Qed.

Lemma forallb_rev (A : Type) (p : A -> bool) (l : list A) :
  forallb p (rev l) = forallb p l.
Proof.
  induction l as [|x l IH]; [reflexivity |].
  simpl; rewrite forallb_app, IH; simpl.
  rewrite andb_true_r; apply andb_comm.
Qed.

Lemma lstrip_suffix (s : ustring) : exists blanks, s = blanks ++ lstrip s
                                                   /\ forallb isspace blanks = true.
Proof.
  induction s as [|c s [blanks [E H]]]; simpl; [exists []; auto |].
  destruct (isspace c) eqn:C; [| exists []; auto].
  exists (c :: blanks); simpl; rewrite C, H; split; [congruence | reflexivity].
Qed.

Lemma strip_nil (s : ustring) : strip s = [] <-> forallb isspace s = true.
Proof.
  unfold strip, rstrip; split.
  - intros H.
    apply (f_equal (@rev N)) in H; rewrite rev_involutive in H; simpl in H.
    apply lstrip_nil in H; rewrite forallb_rev in H.
    destruct (lstrip_suffix s) as [blanks [E Hb]].
    rewrite E, forallb_app, Hb, H; reflexivity.
  - intros H.
    assert (E : lstrip s = []) by (apply lstrip_nil, H).
    rewrite E; reflexivity.
Qed.

(** X1 ([valid_entry], l.39-42): a text is an invalid entry exactly when all
    its characters are white space (the empty text included); in
    particular a text made of U+2028 or U+2029 alone is invalid. *)
Theorem valid_entry_blank (s : ustring) :
  valid_entry (PyUnicode s) = negb (forallb isspace s).
Proof.
  rewrite valid_entry_unicode.
  destruct (forallb isspace s) eqn:H.
  - apply strip_nil in H; rewrite H; reflexivity.
  - simpl; apply negb_true_iff, ustr_eqb_neq; intros E.
    apply strip_nil in E; congruence.
Qed.

(** ** The line reader, again *)

Lemma reader_yields_nonempty nextLine f :
  Forall (fun line => line <> []) (yields (safe_file_reader_from nextLine f))
  /\ length (yields (safe_file_reader_from nextLine f))
     <= length f + (match nextLine with [] => 0 | _ => 1 end).
Proof.
  revert nextLine; induction f as [|[s | reason] f IH]; intros nextLine.
  - destruct nextLine; simpl; split; auto.
    constructor; [discriminate | constructor].
  - rewrite reader_step.
    destruct (rev (nextLine ++ s)) as [|c r] eqn:E; [simpl; split; [constructor | lia] |].
    assert (Hne : nextLine ++ s <> []).
    { intros H; rewrite H in E; discriminate. }
    destruct (ends_in_problem (nextLine ++ s)).
    + destruct (IH (nextLine ++ s)) as [H1 H2]; split; [exact H1 |].
      assert (B : (match nextLine ++ s with [] => 0 | _ => 1 end) <= 1)
        by (destruct (nextLine ++ s); lia).
      cbn [length]; destruct nextLine; lia.
    + destruct (IH []) as [H1 H2]; cbn [yields length]; split;
        [constructor; assumption |].
      rewrite Nat.add_0_r in H2.
      destruct nextLine;
        [rewrite Nat.add_0_r | rewrite Nat.add_1_r; apply le_S];
        apply le_n_S, H2.
  - simpl; split; [constructor | apply Nat.le_0_l].
Qed.

(** X2 ([safe_file_reader], l.21-34): whatever the file holds, no yielded
    line is empty, and there are at most as many logical lines as physical
    lines. *)
Theorem safe_file_reader_lines (f : list read) :
  Forall (fun line => line <> []) (yields (safe_file_reader f))
  /\ length (yields (safe_file_reader f)) <= length f.
Proof.
  destruct (reader_yields_nonempty [] f) as [H1 H2]; split; [exact H1 |].
  rewrite Nat.add_0_r in H2; exact H2.
Qed.

(** X3 ([safe_file_reader], l.21-34): on a file whose physical lines are
    non-empty and none of which ends in U+2028 or U+2029 the reader changes
    nothing: it yields the physical lines one by one and stops. *)
Theorem safe_file_reader_plain (ps : list ustring) :
  Forall (fun p => p <> [] /\ ends_in_problem p = false) ps ->
  safe_file_reader (map Line ps) = generator_of ps.
Proof.
  unfold safe_file_reader; induction 1 as [|p ps [Hp He] _ IH];
    [reflexivity |].
  cbn [map]; rewrite reader_step; cbn [app].
  destruct (rev_nonempty Hp) as [c [r ->]].
  rewrite He, IH; reflexivity.
Qed.

Lemma safe_file_reader_plain_witness :
  Forall (fun p => p <> [] /\ ends_in_problem p = false)
    [U "{}"; track_line]
  /\ safe_file_reader (map Line [U "{}"; track_line])
     = generator_of [U "{}"; track_line].
Proof.
  assert (H : Forall (fun p => p <> [] /\ ends_in_problem p = false)
                [U "{}"; track_line]).
  { repeat (apply Forall_cons; [split; [discriminate | reflexivity] |]).
    apply Forall_nil. }
  split; [exact H | exact (safe_file_reader_plain H)].
Defined.

Lemma ends_in_problem_app (nextLine p : ustring) :
  ends_in_problem p = true -> ends_in_problem (nextLine ++ p) = true.
Proof.
  intros H; unfold ends_in_problem in *; rewrite rev_app_distr.
  destruct (rev p) as [|c r]; [discriminate | exact H].
Qed.

(** A line cut after a separator, at any place of the file and whatever is
    pending: the reader runs as on the file with the two pieces joined. *)
Lemma reader_joined (pre : list read) (p q : ustring) (f : list read) :
  ends_in_problem p = true ->
  forall nextLine,
    safe_file_reader_from nextLine (pre ++ Line p :: Line q :: f)
    = safe_file_reader_from nextLine (pre ++ Line (p ++ q) :: f).
Proof.
  intros H; induction pre as [|[s | reason] pre IH]; intros nextLine.
  - cbn [app].
    rewrite (reader_continues nextLine p (Line q :: f)
               (@ends_in_problem_app nextLine p H)).
    rewrite !reader_step, app_assoc; reflexivity.
  - cbn [app]; rewrite !reader_step.
    destruct (rev (nextLine ++ s)); [reflexivity |].
    destruct (ends_in_problem (nextLine ++ s)); rewrite IH; reflexivity.
  - reflexivity.
Qed.

(** X4 ([safe_file_reader] with [_validateFile], l.21-34 and l.342-383): a
    record cut in two physical lines after U+2028 or U+2029, at any place
    of the file, is validated as the single line it was: whatever comes
    before and after the two lines, the driver gives the same result as on
    the file with the two lines joined. *)
Theorem validateFile_joined (int_of_text : ustring -> option Z)
    (json_loads : ustring -> value + ustring) (pre : list read)
    (p q : ustring) (f : list read) (ingestion_fields : FieldChecker)
    (max_errors : Z) :
  ends_in_problem p = true ->
  _validateFile int_of_text json_loads (pre ++ Line p :: Line q :: f)
    ingestion_fields max_errors
  = _validateFile int_of_text json_loads (pre ++ Line (p ++ q) :: f)
      ingestion_fields max_errors.
Proof.
  intros H; unfold _validateFile, safe_file_reader.
  rewrite (@reader_joined pre p q f H []); reflexivity.
Qed.

Lemma validateFile_joined_witness :
  ends_in_problem (U "{" ++ [0x2028]%N) = true
  /\ _validateFile int_of_ascii (loads_only track_line track_example)
       ([Line track_line; Line (U "]")]
          ++ Line (U "{" ++ [0x2028]%N) :: Line (U "}") :: [Line track_line])
       track_fields 1000
     = _validateFile int_of_ascii (loads_only track_line track_example)
         ([Line track_line; Line (U "]")]
            ++ Line ((U "{" ++ [0x2028]%N) ++ U "}") :: [Line track_line])
         track_fields 1000.
Proof.
  split; [reflexivity |].
  apply (@validateFile_joined int_of_ascii
           (loads_only track_line track_example)
           [Line track_line; Line (U "]")]
           (U "{" ++ [0x2028]%N) (U "}") [Line track_line] track_fields 1000).
  reflexivity.
Defined.

(** ** The driver: counts, order and budget *)

Lemma in_line_order_weaken lo lo' hi l :
  (lo' <= lo)%Z -> in_line_order lo hi l -> in_line_order lo' hi l.
Proof.
  destruct l as [|x l]; [auto |].
  intros H [n [E [B R]]]; exists n; repeat split; auto; lia.
Qed.

Lemma in_line_order_length lo hi l :
  in_line_order lo hi l -> (lo <= hi -> Z.of_nat (length l) <= hi - lo)%Z.
Proof.
  revert lo; induction l as [|x l IH]; intros lo; simpl; [lia |].
  intros [n [_ [B R]]] _; specialize (IH n R); lia.
Qed.

Section DriverFacts.
Variable int_of_text : ustring -> option Z.
Variable json_loads : ustring -> value + ustring.
Variable ingestion_fields : FieldChecker.
Variable max_errors : Z.

Abbreviation run := (_validateFile_loop int_of_text json_loads
                       ingestion_fields max_errors).

(** What holds of every run of the loop that returns. *)
Lemma loop_returns (g : generator) :
  forall count errors warnings lineCount e w n s,
    (0 <= count)%Z ->
    (lineCount + 1 = Z.max 1 count)%Z ->
    (Z.of_nat (length errors) <= count)%Z ->
    run g count errors warnings lineCount = Returns (e, w, n, s) ->
    exists added tail,
      e = errors ++ added ++ tail
      /\ in_line_order count n added
      /\ (tail = [] \/ exists reason, tail = [InvalidUTF8 n reason] /\ s = false)
      /\ (Z.max 1 count <= n <= Z.max 1 (count + Z.of_nat (length (yields g))))%Z
      /\ ((0 < max_errors)%Z ->
          (Z.of_nat (length errors) <= max_errors)%Z ->
          (Z.of_nat (length (errors ++ added)) <= max_errors)%Z)
      /\ (s = true ->
          (0 < max_errors)%Z /\ tail = []
          /\ (max_errors <= Z.of_nat (length (errors ++ added)))%Z)
      /\ (s = false -> exhausts g ->
          Forall (fun line =>
                    line_raises int_of_text json_loads ingestion_fields line
                    = false) (yields g) ->
          n = Z.max 1 (count + Z.of_nat (length (yields g))))%Z.
Proof.
  induction g as [line rest IH | | x];
    intros count errors warnings lineCount e w n s Hc Hl He H.
  - (* a line is yielded *)
    cbn [_validateFile_loop] in H.
    destruct ((0 <? max_errors)%Z
              && (max_errors <=? Z.of_nat (length errors))%Z) eqn:B.
    + (* the budget is used up *)
      apply andb_true_iff in B; destruct B as [B1 B2].
      apply Z.ltb_lt in B1; apply Z.leb_le in B2.
      injection H as <- <- <- <-.
      exists [], []; rewrite !app_nil_r; cbn [yields length].
      refine (conj _ (conj _ (conj _ (conj _ (conj _ (conj _ _)))))).
      * replace (count - 1 + 1)%Z with count by lia; reflexivity.
      * exact I.
      * left; reflexivity.
      * lia.
      * intros _ Hm; exact Hm.
      * intros _; repeat split; [exact B1 | exact B2].
      * discriminate.
    + assert (Step : forall errors1 warnings1 added1,
                 errors1 = errors ++ added1 ->
                 in_line_order count (count + 1) added1 ->
                 (length added1 <= 1)%nat ->
                 (line_raises int_of_text json_loads ingestion_fields line
                  = false) ->
                 run rest (count + 1)%Z errors1 warnings1 count
                 = Returns (e, w, n, s) ->
                 exists added tail,
                   e = errors ++ added ++ tail
                   /\ in_line_order count n added
                   /\ (tail = []
                       \/ exists reason, tail = [InvalidUTF8 n reason]
                                         /\ s = false)
                   /\ (Z.max 1 count <= n
                       <= Z.max 1 (count
                                   + Z.of_nat (length (yields (Yield line rest)))))%Z
                   /\ ((0 < max_errors)%Z ->
                       (Z.of_nat (length errors) <= max_errors)%Z ->
                       (Z.of_nat (length (errors ++ added)) <= max_errors)%Z)
                   /\ (s = true ->
                       (0 < max_errors)%Z /\ tail = []
                       /\ (max_errors
                           <= Z.of_nat (length (errors ++ added)))%Z)
                   /\ (s = false -> exhausts (Yield line rest) ->
                       Forall (fun line =>
                                 line_raises int_of_text json_loads
                                   ingestion_fields line = false)
                         (yields (Yield line rest)) ->
                       n = Z.max 1 (count
                                    + Z.of_nat
                                        (length (yields (Yield line rest)))))%Z).
      { intros errors1 warnings1 added1 -> Ho Hlen _ R.
        apply IH in R; [| lia | lia | rewrite length_app; lia].
        destruct R as [added [tail [-> [Ho' [Ht [Hn [Hb [Hs Hx]]]]]]]].
        exists (added1 ++ added), tail; cbn [yields length].
        rewrite <- !app_assoc in *.
        refine (conj _ (conj _ (conj _ (conj _ (conj _ (conj _ _)))))).
        - reflexivity.
        - destruct added1 as [|x1 [|x2 added1]]; [| | simpl in Hlen; lia].
          + apply (in_line_order_weaken (lo := count + 1)); [lia | exact Ho'].
          + destruct Ho as [k [Ek [Bk _]]]; exists k.
            repeat split; [exact Ek | lia | lia |].
            apply (in_line_order_weaken (lo := count + 1)); [lia | exact Ho'].
        - exact Ht.
        - lia.
        - intros Hp Hm; apply Hb; [exact Hp |].
          apply andb_false_iff in B; destruct B as [B | B];
            [apply Z.ltb_ge in B; lia |].
          apply Z.leb_gt in B; rewrite length_app; lia.
        - exact Hs.
        - intros Hf Hex Hall; inversion Hall as [|? ? _ Hall'].
          rewrite (Hx Hf Hex Hall'); lia. }
      destruct (json_loads line) as [candidate | reason] eqn:J.
      * destruct (validate int_of_text ingestion_fields candidate true)
          as [[validateErrors warns] | x] eqn:V.
        -- destruct validateErrors as [|v1 vs]; cbn [length Nat.ltb Nat.leb] in H.
           ++ apply (Step errors (warnings ++ warns) []);
                [rewrite app_nil_r; reflexivity | exact I | simpl; lia | | exact H].
              unfold line_raises; rewrite J, V; reflexivity.
           ++ apply (Step (errors ++ [SchemaMismatch (count + 1) (v1 :: vs)])
                       (warnings ++ warns)
                       [SchemaMismatch (count + 1) (v1 :: vs)]);
                [reflexivity | | simpl; lia | | exact H].
              ** exists (count + 1)%Z; repeat split; lia.
              ** unfold line_raises; rewrite J, V; reflexivity.
        -- (* [validate] raises *)
           destruct x as [| | | | | why]; try discriminate.
           injection H as <- <- <- <-.
           exists [], [InvalidUTF8 (count + 1) why]; cbn [yields length app].
           refine (conj _ (conj _ (conj _ (conj _ (conj _ (conj _ _)))))).
           ++ reflexivity.
           ++ exact I.
           ++ right; exists why; split; reflexivity.
           ++ lia.
           ++ intros _ Hm; rewrite app_nil_r; exact Hm.
           ++ discriminate.
           ++ intros _ _ Hall; inversion Hall as [|? ? Hr _]; subst.
              unfold line_raises in Hr; rewrite J, V in Hr; discriminate.
      * apply (Step (errors ++ [InvalidJSON (count + 1) reason]) warnings
                 [InvalidJSON (count + 1) reason]);
          [reflexivity | | simpl; lia | | exact H].
        -- exists (count + 1)%Z; repeat split; lia.
        -- unfold line_raises; rewrite J; reflexivity.
  - (* the reader is exhausted *)
    injection H as <- <- <- <-.
    exists [], []; rewrite !app_nil_r; cbn [yields length].
    refine (conj _ (conj _ (conj _ (conj _ (conj _ (conj _ _)))))).
    + reflexivity.
    + exact I.
    + left; reflexivity.
    + lia.
    + intros _ Hm; exact Hm.
    + discriminate.
    + intros _ _ _; lia.
  - (* the reader raises *)
    destruct x as [| | | | | why]; try discriminate.
    injection H as <- <- <- <-.
    exists [], [InvalidUTF8 (lineCount + 1) why]; cbn [yields length app].
    refine (conj _ (conj _ (conj _ (conj _ (conj _ (conj _ _)))))).
    + reflexivity.
    + exact I.
    + right; exists why; split; reflexivity.
    + lia.
    + intros _ Hm; rewrite app_nil_r; exact Hm.
    + discriminate.
    + intros _ [].
Qed.
End DriverFacts.

Section DriverTheorems.
Variable int_of_text : ustring -> option Z.
Variable json_loads : ustring -> value + ustring.
Variable ingestion_fields : FieldChecker.

Lemma validateFile_returns input_file max_errors e w n s :
  _validateFile int_of_text json_loads input_file ingestion_fields max_errors
  = Returns (e, w, n, s) ->
  exists added tail,
    e = added ++ tail
    /\ in_line_order 0 n added
    /\ (tail = [] \/ exists reason, tail = [InvalidUTF8 n reason] /\ s = false)
    /\ (1 <= n
        <= Z.max 1 (Z.of_nat (length (yields (safe_file_reader input_file)))))%Z
    /\ ((0 < max_errors)%Z -> (Z.of_nat (length added) <= max_errors)%Z)
    /\ (s = true ->
        (0 < max_errors)%Z /\ tail = []
        /\ (max_errors <= Z.of_nat (length added))%Z)
    /\ (s = false -> exhausts (safe_file_reader input_file) ->
        Forall (fun line =>
                  line_raises int_of_text json_loads ingestion_fields line
                  = false) (yields (safe_file_reader input_file)) ->
        n = Z.max 1 (Z.of_nat (length (yields (safe_file_reader input_file)))))%Z.
Proof.
  unfold _validateFile; intros H.
  apply loop_returns in H; [| lia | lia | simpl; lia].
  destruct H as [added [tail [E [Ho [Ht [Hn [Hb [Hs Hx]]]]]]]].
  exists added, tail; cbn [app length] in *.
  refine (conj E (conj Ho (conj Ht (conj _ (conj _ (conj Hs Hx)))))).
  - lia.
  - intros Hp; apply Hb; [exact Hp | lia].
Qed.

(** X5 ([_validateFile], l.354-357): the driver reports [stoppedEarly] only
    under a positive budget, and then it holds exactly [max_errors] errors;
    with [max_errors <= 0] no run is ever stopped early. *)
Theorem validateFile_stopped input_file max_errors e w n :
  _validateFile int_of_text json_loads input_file ingestion_fields max_errors
  = Returns (e, w, n, true) ->
  (0 < max_errors)%Z /\ Z.of_nat (length e) = max_errors.
Proof.
  intros H; apply validateFile_returns in H.
  destruct H as [added [tail [-> [_ [_ [_ [Hb [Hs _]]]]]]]].
  destruct (Hs eq_refl) as [Hp [-> Hm]]; rewrite app_nil_r.
  specialize (Hb Hp); split; [exact Hp | lia].
Qed.

(** X6 ([_validateFile], l.354-381): under a positive budget the errors made
    for lines never exceed [max_errors]; the whole list exceeds it by at
    most one, and only by the error of l.378 for a stream that does not
    decode, which is then its last element. *)
Theorem validateFile_budget input_file max_errors e w n s :
  (0 < max_errors)%Z ->
  _validateFile int_of_text json_loads input_file ingestion_fields max_errors
  = Returns (e, w, n, s) ->
  (Z.of_nat (length e) <= max_errors + 1)%Z
  /\ ((max_errors < Z.of_nat (length e))%Z ->
      exists line_errors reason,
        e = line_errors ++ [InvalidUTF8 n reason] /\ s = false).
Proof.
  intros Hp H; apply validateFile_returns in H.
  destruct H as [added [tail [-> [_ [Ht [_ [Hb _]]]]]]].
  specialize (Hb Hp); rewrite length_app.
  destruct Ht as [-> | [reason [-> ->]]]; simpl; split; try lia.
  intros _; exists added, reason; split; reflexivity.
Qed.


(** X8 ([_validateFile], l.349-383): when the reader comes to its end,
    [validate] raises on no line and the run is not stopped early, the
    returned count is the number of logical lines, or 1 when there is
    none. *)
Theorem validateFile_count input_file max_errors e w n :
  exhausts (safe_file_reader input_file) ->
  Forall (fun line =>
            line_raises int_of_text json_loads ingestion_fields line = false)
    (yields (safe_file_reader input_file)) ->
  _validateFile int_of_text json_loads input_file ingestion_fields max_errors
  = Returns (e, w, n, false) ->
  n = Z.max 1 (Z.of_nat (length (yields (safe_file_reader input_file)))).
Proof.
  intros Hex Hall H; apply validateFile_returns in H.
  destruct H as [added [tail [_ [_ [_ [_ [_ [_ Hx]]]]]]]].
  apply Hx; auto.
Qed.
End DriverTheorems.

Lemma validateFile_stopped_witness :
  _validateFile int_of_ascii (loads_only track_line track_example)
    budget_file track_fields 2
  = Returns ([ InvalidJSON 1 (U "No JSON object could be decoded");
               InvalidJSON 3 (U "No JSON object could be decoded") ],
             [], 3%Z, true)
  /\ (0 < 2)%Z
  /\ Z.of_nat (length [ InvalidJSON 1 (U "No JSON object could be decoded");
                        InvalidJSON 3 (U "No JSON object could be decoded") ])
     = 2%Z.
Proof.
  assert (H : _validateFile int_of_ascii (loads_only track_line track_example)
                budget_file track_fields 2
              = Returns ([ InvalidJSON 1 (U "No JSON object could be decoded");
                           InvalidJSON 3 (U "No JSON object could be decoded") ],
                         [], 3%Z, true))
    by (vm_compute; reflexivity).
  split; [exact H |].
  exact (@validateFile_stopped int_of_ascii
           (loads_only track_line track_example) track_fields budget_file 2
           _ _ _ H).
Defined.

Lemma validateFile_budget_witness :
  (0 < 1)%Z
  /\ _validateFile int_of_ascii (loads_only track_line track_example)
       undecodable_file track_fields 1
     = Returns ([ InvalidJSON 1 (U "No JSON object could be decoded");
                  InvalidUTF8 1 (U "invalid start byte") ],
                [], 1%Z, false)
  /\ (Z.of_nat (length [ InvalidJSON 1 (U "No JSON object could be decoded");
                         InvalidUTF8 1 (U "invalid start byte") ])
      <= 1 + 1)%Z
  /\ ((1 < Z.of_nat (length [ InvalidJSON 1
                                (U "No JSON object could be decoded");
                              InvalidUTF8 1 (U "invalid start byte") ]))%Z ->
      exists line_errors reason,
        [ InvalidJSON 1 (U "No JSON object could be decoded");
          InvalidUTF8 1 (U "invalid start byte") ]
        = line_errors ++ [InvalidUTF8 1 reason] /\ false = false).
Proof.
  assert (H : _validateFile int_of_ascii (loads_only track_line track_example)
                undecodable_file track_fields 1
              = Returns ([ InvalidJSON 1 (U "No JSON object could be decoded");
                           InvalidUTF8 1 (U "invalid start byte") ],
                         [], 1%Z, false))
    by (vm_compute; reflexivity).
  assert (Hp : (0 < 1)%Z) by reflexivity.
  split; [exact Hp |]; split; [exact H |].
  exact (@validateFile_budget int_of_ascii
           (loads_only track_line track_example) track_fields
           undecodable_file 1 _ _ _ _ Hp H).
Defined.


Lemma validateFile_count_witness :
  exhausts (safe_file_reader budget_file)
  /\ Forall (fun line =>
               line_raises int_of_ascii (loads_only track_line track_example)
                 track_fields line = false)
       (yields (safe_file_reader budget_file))
  /\ _validateFile int_of_ascii (loads_only track_line track_example)
       budget_file track_fields (-1)
     = Returns ([ InvalidJSON 1 (U "No JSON object could be decoded");
                  InvalidJSON 3 (U "No JSON object could be decoded");
                  InvalidJSON 4 (U "No JSON object could be decoded") ],
                [], 4%Z, false)
  /\ 4%Z = Z.max 1 (Z.of_nat (length (yields (safe_file_reader budget_file)))).
Proof.
  assert (H1 : exhausts (safe_file_reader budget_file)) by exact I.
  assert (H2 : Forall (fun line =>
                  line_raises int_of_ascii
                    (loads_only track_line track_example)
                    track_fields line = false)
                 (yields (safe_file_reader budget_file)))
    by (unfold budget_file, safe_file_reader;
        cbn [safe_file_reader_from yields app rev existsb];
        repeat (apply Forall_cons; [vm_compute; reflexivity |]);
        apply Forall_nil).
  assert (H3 : _validateFile int_of_ascii
                 (loads_only track_line track_example)
                 budget_file track_fields (-1)
               = Returns ([ InvalidJSON 1 (U "No JSON object could be decoded");
                            InvalidJSON 3 (U "No JSON object could be decoded");
                            InvalidJSON 4 (U "No JSON object could be decoded") ],
                          [], 4%Z, false))
    by (vm_compute; reflexivity).
  split; [exact H1 |]; split; [exact H2 |]; split; [exact H3 |].
  exact (@validateFile_count int_of_ascii
           (loads_only track_line track_example) track_fields
           budget_file (-1) _ _ _ H1 H2 H3).
Defined.

(** ** [DictTypeChecker] *)

Section DictTypeCheckerFacts.
Variable int_of_text : ustring -> option Z.

Lemma DictTypeChecker_nested_field fieldName candidateField v errors warnings
    required :
  exists x,
    DictTypeChecker__check_field int_of_text fieldName candidateField
      (BChecker v) errors warnings required = Raises x.
Proof.
  unfold DictTypeChecker__check_field.
  destruct (v candidateField false) as [r | x]; cbn [bind]; eauto.
Qed.

(** X9 ([DictTypeChecker._check_field], l.112-115): a [DictTypeChecker]
    whose key or value is given as a nested checker cannot validate any
    item: on every dictionary with at least one item [validate] raises
    (the generator of l.114 adds a string to a list), and on the empty
    dictionary it returns no error and no warning. *)
Theorem DictTypeChecker_nested_raises (k v : expected) (key : ustring)
    (val : value) (d : dict value) (required : bool) :
  is_checker k || is_checker v = true ->
  (exists x,
      validate int_of_text (DictTypeChecker k v) (PyDict ((key, val) :: d))
        required = Raises x)
  /\ validate int_of_text (DictTypeChecker k v) (PyDict []) required
     = Returns ([], []).
Proof.
  intros H; split; [| reflexivity].
  cbn [validate]; unfold FieldChecker__validate.
  cbn [topLevelType isinstance type issubclass pytype_eqb negb
       DictTypeChecker__validate DictTypeChecker__loop].
  destruct k as [xk | ck].
  - destruct v as [xv | cv]; [discriminate |].
    destruct (DictTypeChecker__check_field int_of_text (U "key")
                (PyUnicode key) (BInstance xk) [] [] required)
      as [[e w] | x]; cbn [bind]; [| eauto].
    destruct (DictTypeChecker_nested_field (U "value") val
                (validate int_of_text cv) e w required) as [x ->].
    cbn [bind]; eauto.
  - destruct (DictTypeChecker_nested_field (U "key") (PyUnicode key)
                (validate int_of_text ck) [] [] required) as [x ->].
    cbn [bind]; eauto.
Qed.

Lemma key_value_check (fieldName : ustring)
    (candidateField x : value) (errors warnings : list message)
    (required : bool) :
  (eq_int0 x = true -> forall b, candidateField <> PyFloat (Inf b)) ->
  DictTypeChecker__check_field int_of_text fieldName candidateField
    (BInstance x) errors warnings required
  = Returns
      (errors ++ key_value_type_errors int_of_text fieldName x candidateField,
       warnings ++ entry_warnings fieldName candidateField required).
Proof.
  intros Hinf.
  unfold DictTypeChecker__check_field, key_value_type_errors, entry_warnings.
  destruct (isinstance candidateField (type x)); cbn [negb].
  - cbn [bind]; rewrite app_nil_r.
    destruct (required && negb (valid_entry candidateField));
      rewrite ?app_nil_r; reflexivity.
  - destruct (eq_int0 x).
    + specialize (Hinf eq_refl).
      destruct candidateField as [| b | z | z | [m e | | b] | s | l | d |];
        cbn [int converts type bind];
        try (destruct (required && negb (valid_entry _));
             rewrite ?app_nil_r; reflexivity).
      * exfalso; apply (Hinf b); reflexivity.
      * destruct (int_of_text s); cbn [bind];
          destruct (required && negb (valid_entry _));
          rewrite ?app_nil_r; reflexivity.
    + cbn [bind].
      destruct (required && negb (valid_entry candidateField));
        rewrite ?app_nil_r; reflexivity.
Qed.

(** X10 ([DictTypeChecker._check_field], l.117-135): checked against an
    example instance [x], a key or value that is an instance of the type of
    [x] adds no type error.  Otherwise [int] is tried exactly when [x]
    equals 0: for the examples [int()] and [bool()] alike, and not for an
    integer example other than 0; an [int] that raises [TypeError] or
    [ValueError] adds an error that names [int] as the expected type, and
    one that returns adds nothing.  When [x] does not equal 0 the error
    names the type of [x].  The infinite floats, on which [int] raises
    [OverflowError], are left out. *)
Theorem DictTypeChecker_check_instance (fieldName : ustring)
    (candidateField x : value) (errors warnings : list message)
    (required : bool) :
  (eq_int0 x = true -> forall b, candidateField <> PyFloat (Inf b)) ->
  DictTypeChecker__check_field int_of_text fieldName candidateField
    (BInstance x) errors warnings required
  = Returns
      (errors ++ key_value_type_errors int_of_text fieldName x candidateField,
       warnings ++ entry_warnings fieldName candidateField required).
Proof.
  apply key_value_check.
Qed.

Lemma DictTypeChecker_any_loop (a : ustring) (d : dict value)
    (errors warnings : list message) (required : bool) :
  exists w,
    DictTypeChecker__loop int_of_text (BInstance (PyUnicode a))
      (BInstance PyObject) d errors warnings required
    = Returns (errors, warnings ++ w)
    /\ (required = false -> w = [])
    /\ Forall (fun x => exists n c, x = InvalidEntry n c) w.
Proof.
  revert errors warnings; induction d as [|[key val] d IH];
    intros errors warnings.
  - exists []; rewrite app_nil_r; repeat split; auto.
  - cbn [DictTypeChecker__loop].
    rewrite key_value_check by discriminate.
    cbn [bind].
    rewrite key_value_check by discriminate.
    cbn [bind].
    unfold key_value_type_errors.
    change (isinstance (PyUnicode key) (type (PyUnicode a))) with true.
    change (isinstance val (type PyObject)) with true.
    cbn iota; rewrite !app_nil_r.
    destruct (IH errors
                ((warnings ++ entry_warnings (U "key") (PyUnicode key) required)
                   ++ entry_warnings (U "value") val required))
      as [w [E [Hf Hw]]].
    exists (entry_warnings (U "key") (PyUnicode key) required
              ++ entry_warnings (U "value") val required ++ w).
    split; [rewrite E, <- !app_assoc; reflexivity | split].
    + intros ->; rewrite (Hf eq_refl); reflexivity.
    + unfold entry_warnings.
      repeat (apply Forall_app; split); try exact Hw;
        destruct (required && negb (valid_entry _)); repeat constructor;
        eexists; eexists; reflexivity.
Qed.

(** X11 ([DictTypeChecker._validate], l.137-146, as used for the field
    [extras]): against text keys and [object()] values every dictionary is
    accepted, whatever its values: [validate] returns no error; it returns
    no warning either when [required] is false, as it is for an optional
    field, and otherwise only warnings for blank keys or values. *)
Theorem DictTypeChecker_any_values (a : ustring) (d : dict value)
    (required : bool) :
  exists w,
    validate int_of_text
      (DictTypeChecker (Instance (PyUnicode a)) (Instance PyObject))
      (PyDict d) required
    = Returns ([], w)
    /\ (required = false -> w = [])
    /\ Forall (fun x => exists n c, x = InvalidEntry n c) w.
Proof.
  destruct (DictTypeChecker_any_loop a d [] [] required) as [w H].
  exists w; exact H.
Qed.
End DictTypeCheckerFacts.

Lemma DictTypeChecker_nested_raises_witness :
  is_checker unicode' || is_checker (Checker (ListTypeChecker unicode')) = true
  /\ (exists x,
         validate int_of_ascii nested_values
           (PyDict ((U "a", PyList []) :: [])) false = Raises x)
  /\ validate int_of_ascii nested_values (PyDict []) false = Returns ([], []).
Proof.
  split; [reflexivity |].
  apply (@DictTypeChecker_nested_raises int_of_ascii unicode'
           (Checker (ListTypeChecker unicode')) (U "a") (PyList []) [] false).
  reflexivity.
Defined.

Lemma DictTypeChecker_check_instance_witness :
  (eq_int0 (PyBool false) = true ->
   forall b, PyUnicode (U "1") <> PyFloat (Inf b))
  /\ DictTypeChecker__check_field int_of_ascii (U "value") (PyUnicode (U "1"))
       (BInstance (PyBool false)) [] [] false
     = Returns ([], [])
  /\ validate int_of_ascii five_values (PyDict [(U "a", PyUnicode (U "1"))])
       false
     = Returns ([KeyValueIncorrectType (U "value") (PyUnicode (U "1"))
                   int_t unicode_t], []).
Proof.
  split; [intros _ b; discriminate |].
  split; [| reflexivity].
  apply (@DictTypeChecker_check_instance int_of_ascii (U "value")
           (PyUnicode (U "1")) (PyBool false) [] [] false).
  intros _ b; discriminate.
Defined.

(** ** [ListTypeChecker] and [StringListChecker] *)

Section ListCheckerFacts.
Variable int_of_text : ustring -> option Z.

Lemma ListTypeChecker_instance_loop (x : value) (l : list value) (pos : nat)
    (errors warnings : list message) (required : bool) :
  ListTypeChecker__loop (BInstance x) pos l errors warnings required
  = Returns
      (errors ++ map (element_error x)
                   (filter (fun p => negb (isinstance (snd p) (type x)))
                      (combine (seq pos (length l)) l)),
       warnings).
Proof.
  revert pos errors; induction l as [|elem rest IH]; intros pos errors.
  - cbn; rewrite app_nil_r; reflexivity.
  - cbn [ListTypeChecker__loop length seq combine filter snd].
    destruct (negb (isinstance elem (type x))); cbn [bind]; rewrite IH.
    + rewrite <- app_assoc; reflexivity.
    + reflexivity.
Qed.

(** X12 ([ListTypeChecker._validate], l.198-219, element given by an example
    instance): on a list [validate] returns, in the order of the list, one
    error for each element that is no instance of the type of the example,
    carrying the index of the element in the list, and nothing else; it
    never warns, whatever [required] is and however blank the elements
    are. *)
Theorem ListTypeChecker_instance_errors (x : value) (l : list value)
    (required : bool) :
  validate int_of_text (ListTypeChecker (Instance x)) (PyList l) required
  = Returns (map (element_error x) (wrong_elements x l), []).
Proof.
  cbn [validate]; unfold FieldChecker__validate.
  cbn [topLevelType isinstance type issubclass pytype_eqb negb
       ListTypeChecker__validate].
  apply (ListTypeChecker_instance_loop x l 0 [] [] required).
Qed.

Lemma ListTypeChecker_nested_loop (v : validator) (required : bool)
    (l : list value) (pos : nat) (errors warnings : list message) :
  (exists w,
      ListTypeChecker__loop (BChecker v) pos l errors warnings required
      = Returns ([], w))
  <-> errors = []
      /\ Forall (fun elem => exists w, v elem required = Returns ([], w)) l.
Proof.
  revert pos errors warnings; induction l as [|elem rest IH];
    intros pos errors warnings.
  - cbn; split.
    + intros [w H]; inversion H; split; [reflexivity | constructor].
    + intros [-> _]; eauto.
  - cbn [ListTypeChecker__loop].
    destruct (v elem required) as [[errs warns] | e] eqn:E; cbn [bind].
    + rewrite IH; split.
      * intros [H1 H2]; apply app_eq_nil in H1; destruct H1 as [-> H1].
        apply map_eq_nil in H1; subst errs.
        split; [reflexivity | constructor; eauto].
      * intros [-> H]; inversion H as [|? ? [w Hw] Hrest]; subst.
        rewrite E in Hw; inversion Hw; subst.
        split; [reflexivity | exact Hrest].
    + split.
      * intros [w H]; discriminate.
      * intros [_ H]; inversion H as [|? ? [w Hw] _]; subst.
        rewrite E in Hw; discriminate.
Qed.

(** X13 ([ListTypeChecker._validate], l.204-209, element given by a nested
    checker): a list is accepted, that is validated without error, exactly
    when the nested checker accepts each of its elements. *)
Theorem ListTypeChecker_nested_accepts (c : FieldChecker) (l : list value)
    (required : bool) :
  accepts int_of_text (ListTypeChecker (Checker c)) (PyList l) required
  <-> Forall (fun elem => accepts int_of_text c elem required) l.
Proof.
  unfold accepts.
  cbn [validate]; unfold FieldChecker__validate.
  cbn [topLevelType isinstance type issubclass pytype_eqb negb
       ListTypeChecker__validate].
  rewrite ListTypeChecker_nested_loop; tauto.
Qed.

(** X14 ([StringListChecker._validate] with [FieldChecker.validate],
    l.72-82 and l.164-173): a candidate is accepted exactly when it is a
    text that is one of the listed strings; an accepted candidate gets no
    warning. *)
Theorem StringListChecker_accepts (fields : list ustring) (candidate : value)
    (required : bool) (warnings : list message) :
  validate int_of_text (StringListChecker fields) candidate required
  = Returns ([], warnings)
  <-> (exists s, candidate = PyUnicode s /\ In s fields) /\ warnings = [].
Proof.
  cbn [validate]; unfold FieldChecker__validate.
  cbn [topLevelType StringListChecker__validate].
  split.
  - destruct candidate; cbn; try discriminate.
    destruct (name_in s fields) eqn:E; cbn; [| discriminate].
    intros H; inversion H; split; [| reflexivity].
    exists s; split; [reflexivity | apply name_in_In; exact E].
  - intros [[s [-> H]] ->]; cbn.
    apply name_in_In in H; rewrite H; reflexivity.
Qed.
End ListCheckerFacts.

(** ** [DictFieldChecker]: undeclared keys *)

Lemma file_declared (E : Type) (l : list (Field_ E)) (d : dict (Field_ E))
    (k : ustring) :
  In k (map (@name _) l) -> exists x, dict_get (file l d) k = Some x.
Proof.
  revert d; induction l as [|x l IH]; intros d H; [contradiction |].
  change (file (x :: l) d) with (file l (dict_set d (name x) x)).
  destruct (name_in k (map (@name _) l)) eqn:N.
  - apply IH, name_in_In; exact N.
  - assert (Hn : ~ In k (map (@name _) l)).
    { intros Hin; apply name_in_In in Hin; congruence. }
    rewrite file_other by exact Hn.
    destruct H as [H | H]; [| contradiction].
    exists x; rewrite dict_get_set, H, ustr_eqb_refl; reflexivity.
Qed.

Lemma optional_dict_None (E : Type) (historical optional : list (Field_ E))
    (k : ustring) :
  dict_get (dict_of_pairs (map (fun x : Field_ E => (name x, x))
                             (historical ++ optional))) k = None
  <-> ~ In k (map (@name _) (optional ++ historical)).
Proof.
  change (dict_of_pairs (map (fun x : Field_ E => (name x, x))
                           (historical ++ optional)))
    with (file (historical ++ optional) []).
  assert (P : In k (map (@name _) (optional ++ historical))
              <-> In k (map (@name _) (historical ++ optional))).
  { rewrite !map_app, !in_app_iff; tauto. }
  rewrite P; split.
  - intros H Hin; destruct (file_declared _ [] _ Hin) as [x Hx]; congruence.
  - intros H; rewrite file_other by exact H; reflexivity.
Qed.

Section Undeclared.
Variable int_of_text : ustring -> option Z.
Implicit Types (fs : list (Field_ bound)) (candidate : dict value).

Lemma check_field_unexpected k fieldName candidateField validationField keys
    required e w :
  DictFieldChecker__check_field int_of_text fieldName candidateField
    validationField keys [] [] required = Returns (e, w) ->
  count (is_unexpected k) e = 0.
Proof.
  intros H; apply check_field_shape in H; destruct H as [own [-> Hown]].
  rewrite count_app; unfold disallowed_errors.
  rewrite (count_map_none (is_unexpected k)) by reflexivity.
  rewrite Nat.add_0_r; apply count_Forall_none.
  revert Hown; apply Forall_impl.
  intros x [[a [b ->]] | [y ->]]; reflexivity.
Qed.

Lemma required_loop_unexpected k fs candidate keys c e w :
  required_loop int_of_text fs candidate keys [] [] = Returns (c, e, w) ->
  count (is_unexpected k) e = 0.
Proof.
  revert candidate c e w.
  induction fs as [|f fs IH]; intros candidate c e w H.
  - injection H as _ <- _; reflexivity.
  - cbn [required_loop] in H.
    destruct (dict_get candidate (name f)) as [v |].
    + destruct (DictFieldChecker__check_field int_of_text (name f) v f keys
                  [] [] true) as [[e1 w1] | x] eqn:C; cbn [bind] in H;
        [| discriminate].
      rewrite required_loop_frame in H.
      destruct (required_loop int_of_text fs _ keys [] [])
        as [[[c2 e2] w2] | x] eqn:R; simpl in H; [| discriminate].
      injection H as _ <- _.
      rewrite count_app, (check_field_unexpected k _ _ _ _ _ C).
      apply (IH _ _ _ _ R).
    + rewrite required_loop_frame in H.
      destruct (required_loop int_of_text fs _ keys [] [])
        as [[[c2 e2] w2] | x] eqn:R; simpl in H; [| discriminate].
      injection H as _ <- _.
      change (count (is_unexpected k) ([MissingRequired (name f)] ++ e2) = 0).
      rewrite count_app, (IH _ _ _ _ R); reflexivity.
Qed.

Lemma remaining_loop_unexpected k od items keys e w :
  remaining_loop int_of_text od items keys [] [] = Returns (e, w) ->
  count (is_unexpected k) e
  = match dict_get od k with
    | Some _ => 0
    | None => occurrences k (dict_keys items)
    end.
Proof.
  revert e w; induction items as [|[k0 v] items IH]; intros e w H.
  - injection H as <- _; destruct (dict_get od k); reflexivity.
  - cbn [remaining_loop] in H.
    cbn [dict_keys map fst]; fold (dict_keys items).
    rewrite occurrences_cons.
    destruct (dict_get od k0) as [vf |] eqn:G.
    + destruct (DictFieldChecker__check_field int_of_text k0 v vf keys
                  [] [] false) as [[e1 w1] | x] eqn:C; cbn [bind] in H;
        [| discriminate].
      rewrite remaining_loop_frame in H.
      destruct (remaining_loop int_of_text od items keys [] [])
        as [[e2 w2] | x] eqn:R; simpl in H; [| discriminate].
      injection H as <- _.
      rewrite count_app, (check_field_unexpected k _ _ _ _ _ C),
        (IH _ _ eq_refl).
      destruct (dict_get od k) eqn:G'; [reflexivity |].
      destruct (ustr_eqb k k0) eqn:E0; [| reflexivity].
      apply ustr_eqb_eq in E0; subst; congruence.
    + cbn [bind] in H; rewrite remaining_loop_frame in H.
      destruct (remaining_loop int_of_text od items keys [] [])
        as [[e2 w2] | x] eqn:R; simpl in H; [| discriminate].
      injection H as <- _.
      change (count (is_unexpected k) ([UnexpectedField k0] ++ e2)
              = match dict_get od k with
                | Some _ => 0
                | None => (if ustr_eqb k k0 then 1 else 0)
                          + occurrences k (dict_keys items)
                end).
      rewrite count_app, (IH _ _ eq_refl).
      unfold count at 1; cbn [filter is_unexpected].
      rewrite (ustr_eqb_sym k0 k).
      destruct (dict_get od k) eqn:G';
        [| destruct (ustr_eqb k k0); reflexivity].
      destruct (ustr_eqb k k0) eqn:E0; [| reflexivity].
      apply ustr_eqb_eq in E0; subst; congruence.
Qed.

Lemma validate_unexpected k required optional historical d required' e w :
  validate int_of_text (DictFieldChecker required optional historical)
    (PyDict d) required' = Returns (e, w) ->
  count (is_unexpected k) e
  = if name_in k (declared_names required optional historical) then 0
    else occurrences k (dict_keys d).
Proof.
  rewrite validate_DictFieldChecker; unfold FieldChecker__validate.
  cbn [isinstance type issubclass pytype_eqb negb DictFieldChecker__validate].
  intros H.
  destruct (required_loop int_of_text (map (bind_field int_of_text) required)
              d (dict_keys d) [] []) as [[[c e1] w1] | x] eqn:R;
    cbn [bind] in H; [| discriminate].
  rewrite remaining_loop_frame in H.
  destruct (remaining_loop int_of_text _ c (dict_keys d) [] [])
    as [[e2 w2] | x] eqn:M; simpl in H; [| discriminate].
  injection H as <- _.
  rewrite count_app, (required_loop_unexpected k _ _ _ R).
  rewrite (remaining_loop_unexpected k _ _ _ M).
  apply required_loop_candidate in R; rewrite bind_field_names in R.
  assert (Hod : dict_get
                  (make_optional_dict (map (bind_field int_of_text) historical)
                     (map (bind_field int_of_text) optional)) k = None
                <-> ~ In k (map (@name _) (optional ++ historical))).
  { unfold make_optional_dict.
    etransitivity; [apply optional_dict_None |].
    rewrite <- map_app, bind_field_names; reflexivity. }
  assert (Hdec : In k (declared_names required optional historical)
                 <-> In k (map (@name _) required)
                     \/ In k (map (@name _) (optional ++ historical))).
  { unfold declared_names; rewrite map_app, in_app_iff; reflexivity. }
  destruct (name_in k (declared_names required optional historical)) eqn:Nd.
  - apply name_in_In, Hdec in Nd; destruct Nd as [Hr | Ho].
    + destruct (dict_get _ k); [reflexivity |].
      apply occurrences_absent; subst c.
      rewrite (dict_keys_filter
                 (fun n => negb (name_in n (map (@name _) required)))).
      apply name_in_In in Hr; rewrite Hr; intros [_ F]; discriminate.
    + destruct (dict_get _ k) eqn:G; [reflexivity |].
      exfalso; exact (proj1 Hod eq_refl Ho).
  - assert (Hn : ~ In k (declared_names required optional historical)).
    { intros Hin; apply name_in_In in Hin; congruence. }
    assert (Nr : name_in k (map (@name _) required) = false).
    { destruct (name_in k (map (@name _) required)) eqn:E0; [| reflexivity].
      apply name_in_In in E0; exfalso; apply Hn, Hdec; left; exact E0. }
    destruct (dict_get _ k) eqn:G.
    + exfalso; apply Hn, Hdec; right.
      destruct (in_dec (list_eq_dec N.eq_dec) k
                  (map (@name _) (optional ++ historical)))
        as [Hin | Hout]; [exact Hin |].
      apply Hod in Hout; congruence.
    + subst c; clear -Nr; unfold occurrences; simpl.
      induction d as [|[k0 v] d IH]; [reflexivity |].
      cbn [filter map fst dict_keys].
      destruct (ustr_eqb k k0) eqn:E0.
      * apply ustr_eqb_eq in E0; subst k0; rewrite Nr.
        cbn [negb map fst filter dict_keys]; rewrite ustr_eqb_refl.
        cbn [length]; f_equal; exact IH.
      * destruct (negb (name_in k0 (map (@name _) required)));
          cbn [map fst filter dict_keys]; rewrite ?E0; exact IH.
Qed.

(** X15 ([DictFieldChecker._validate], l.328-337): on a dictionary, whose
    keys are distinct, a returning [validate] reports every key that the
    checker declares neither as required nor as optional nor as historical
    exactly once as unexpected (l.337), and reports no other name so. *)
Theorem unexpected_field_once (k : ustring)
    (required optional historical : list Field) (d : dict value)
    (required' : bool) (e w : list message) :
  NoDup (dict_keys d) ->
  validate int_of_text (DictFieldChecker required optional historical)
    (PyDict d) required' = Returns (e, w) ->
  count (is_unexpected k) e
  = if name_in k (dict_keys d)
       && negb (name_in k (declared_names required optional historical))
    then 1 else 0.
Proof.
  intros Hnd H; rewrite (validate_unexpected k _ _ _ _ _ H).
  destruct (name_in k (declared_names required optional historical));
    [rewrite andb_false_r; reflexivity |].
  rewrite andb_true_r.
  destruct (name_in k (dict_keys d)) eqn:N.
  - apply occurrences_NoDup; [exact Hnd | apply name_in_In; exact N].
  - apply occurrences_absent; intros Hin; apply name_in_In in Hin; congruence.
Qed.

Lemma required_loop_accepts fs candidate keys c w :
  required_loop int_of_text fs candidate keys [] [] = Returns (c, [], w) ->
  forall f, In f fs -> In (name f) (dict_keys candidate).
Proof.
  revert candidate c w.
  induction fs as [|f fs IH]; intros candidate c w H g Hg; [contradiction |].
  cbn [required_loop] in H.
  destruct (dict_get candidate (name f)) as [v |] eqn:G.
  - destruct (DictFieldChecker__check_field int_of_text (name f) v f keys
                [] [] true) as [[e1 w1] | x] eqn:C; cbn [bind] in H;
      [| discriminate].
    rewrite required_loop_frame in H.
    destruct (required_loop int_of_text fs _ keys [] [])
      as [[[c2 e2] w2] | x] eqn:R; simpl in H; [| discriminate].
    injection H as _ He _.
    apply app_eq_nil in He; destruct He as [-> ->].
    destruct Hg as [<- | Hg].
    + destruct (in_dec (list_eq_dec N.eq_dec) (name f) (dict_keys candidate))
        as [Hin | Hout]; [exact Hin |].
      apply dict_get_None in Hout; congruence.
    + specialize (IH _ _ _ R g Hg).
      unfold dict_remove in IH.
      apply (dict_keys_filter (fun n => negb (ustr_eqb n (name f)))) in IH.
      tauto.
  - rewrite required_loop_frame in H.
    destruct (required_loop int_of_text fs _ keys [] [])
      as [[[c2 e2] w2] | x] eqn:R; simpl in H; discriminate.
Qed.

(** X16 ([DictFieldChecker._validate], l.307-340): a dictionary that is
    validated without error has every required name among its keys and
    has no key that the checker does not declare. *)
Theorem DictFieldChecker_accepts_keys
    (required optional historical : list Field) (d : dict value)
    (required' : bool) :
  accepts int_of_text (DictFieldChecker required optional historical)
    (PyDict d) required' ->
  (forall f, In f required -> In (name f) (dict_keys d))
  /\ (forall k, In k (dict_keys d) ->
        In k (declared_names required optional historical)).
Proof.
  intros [w H]; split.
  - revert H; rewrite validate_DictFieldChecker; unfold FieldChecker__validate.
    cbn [isinstance type issubclass pytype_eqb negb
         DictFieldChecker__validate].
    intros H f Hf.
    destruct (required_loop int_of_text
                (map (bind_field int_of_text) required)
                d (dict_keys d) [] []) as [[[c e1] w1] | x] eqn:R;
      cbn [bind] in H; [| discriminate].
    rewrite remaining_loop_frame in H.
    destruct (remaining_loop int_of_text _ c (dict_keys d) [] [])
      as [[e2 w2] | x] eqn:M; simpl in H; [| discriminate].
    injection H as He _; apply app_eq_nil in He; destruct He as [-> ->].
    apply (required_loop_accepts _ _ _ R (bind_field int_of_text f)).
    apply in_map; exact Hf.
  - intros k Hk.
    pose proof (validate_unexpected k _ _ _ _ _ H) as U.
    destruct (name_in k (declared_names required optional historical)) eqn:N;
      [apply name_in_In; exact N |].
    exfalso; change (count (is_unexpected k) []) with 0 in U.
    clear -U Hk; unfold occurrences in U.
    induction d as [|[k0 v] d IH]; [contradiction |].
    cbn [dict_keys map fst filter] in U, Hk.
    destruct (ustr_eqb k k0) eqn:E0; [discriminate |].
    destruct Hk as [-> | Hk]; [rewrite ustr_eqb_refl in E0; discriminate |].
    apply IH; assumption.
Qed.
End Undeclared.

Lemma unexpected_field_once_witness :
  NoDup (dict_keys artist_labelled)
  /\ validate int_of_ascii artist_fields (PyDict artist_labelled) false
     = Returns ([UnexpectedField (U "label")],
                [InvalidEntry (U "name") (PyUnicode [])])
  /\ count (is_unexpected (U "label")) [UnexpectedField (U "label")] = 1.
Proof.
  assert (Hnd : NoDup (dict_keys artist_labelled)).
  { apply (NoDup_count_occ' (list_eq_dec N.eq_dec)).
    intros k Hk; vm_compute in Hk.
    repeat (destruct Hk as [<- | Hk]; [vm_compute; reflexivity |]).
    contradiction. }
  assert (Hv : validate int_of_ascii artist_fields (PyDict artist_labelled)
                 false
               = Returns ([UnexpectedField (U "label")],
                          [InvalidEntry (U "name") (PyUnicode [])]))
    by (vm_compute; reflexivity).
  split; [exact Hnd | split; [exact Hv |]].
  exact (@unexpected_field_once int_of_ascii (U "label") artist_required
           artist_optional artist_historical artist_labelled false _ _
           Hnd Hv).
Defined.

Lemma DictFieldChecker_accepts_keys_witness :
  accepts int_of_ascii artist_fields artist_example false
  /\ (forall f, In f artist_required -> In (name f) (dict_keys artist_items))
  /\ (forall k, In k (dict_keys artist_items) ->
        In k (declared_names artist_required artist_optional
                artist_historical)).
Proof.
  assert (A : accepts int_of_ascii artist_fields artist_example false).
  { exists [InvalidEntry (U "name") (PyUnicode [])]; vm_compute; reflexivity. }
  split; [exact A |].
  exact (@DictFieldChecker_accepts_keys int_of_ascii artist_required
           artist_optional artist_historical artist_items false A).
Defined.

(** ** Checkers that always return *)

(** Induction on a checker, through the checkers nested in its expected
    values. *)
Lemma FieldChecker_nested_ind (P : FieldChecker -> Prop) :
  (forall k v, expected_holds P k -> expected_holds P v ->
     P (DictTypeChecker k v)) ->
  (forall fields, P (StringListChecker fields)) ->
  (forall e, expected_holds P e -> P (ListTypeChecker e)) ->
  (forall required optional historical,
     Forall (fun f : Field => expected_holds P (expectedValue f)) required ->
     Forall (fun f : Field => expected_holds P (expectedValue f)) optional ->
     Forall (fun f : Field => expected_holds P (expectedValue f)) historical ->
     P (DictFieldChecker required optional historical)) ->
  forall c, P c.
Proof.
  intros HD HS HL HF; fix IH 1; intros c.
  destruct c as [k v | fields | e | required optional historical].
  - apply HD; [destruct k as [x | c'] | destruct v as [x | c']];
      try exact I; apply IH.
  - apply HS.
  - apply HL; destruct e as [x | c']; [exact I | apply IH].
  - apply HF.
    + induction required as [|[n [x | c'] dis] l IHl]; constructor;
        try exact IHl; [exact I | apply IH].
    + induction optional as [|[n [x | c'] dis] l IHl]; constructor;
        try exact IHl; [exact I | apply IH].
    + induction historical as [|[n [x | c'] dis] l IHl]; constructor;
        try exact IHl; [exact I | apply IH].
Qed.

Lemma file_In (E : Type) (l : list (Field_ E)) (d : dict (Field_ E))
    (k : ustring) (x : Field_ E) :
  dict_get (file l d) k = Some x -> In x l \/ dict_get d k = Some x.
Proof.
  revert d; induction l as [|y l IH]; intros d H; [right; exact H |].
  change (file (y :: l) d) with (file l (dict_set d (name y) y)) in H.
  apply IH in H; destruct H as [H | H]; [left; right; exact H |].
  rewrite dict_get_set in H.
  destruct (ustr_eqb (name y) k); [| right; exact H].
  injection H as ->; left; left; reflexivity.
Qed.

Lemma finite_dict_get (d : dict value) (k : ustring) (v : value) :
  forallb (fun kv => finite (snd kv)) d = true ->
  dict_get d k = Some v -> finite v = true.
Proof.
  induction d as [|[k0 v0] d IH]; simpl; [discriminate |].
  intros H G; apply andb_true_iff in H; destruct H as [H0 H].
  destruct (ustr_eqb k0 k); [injection G as <-; exact H0 | exact (IH H G)].
Qed.

Lemma finite_filter (p : ustring * value -> bool) (d : dict value) :
  forallb (fun kv => finite (snd kv)) d = true ->
  forallb (fun kv => finite (snd kv)) (filter p d) = true.
Proof.
  rewrite !forallb_forall; intros H kv Hkv.
  apply filter_In in Hkv; apply H; tauto.
Qed.

Section Returns.
Variable int_of_text : ustring -> option Z.
Implicit Types (fs : list (Field_ bound)).

Lemma finite_not_Inf (x : value) :
  finite x = true -> forall b, x <> PyFloat (Inf b).
Proof. intros H b ->; discriminate. Qed.

Lemma DictTypeChecker_loop_returns (xk xv : value) (d : dict value)
    (errors warnings : list message) (required : bool) :
  forallb (fun kv => finite (snd kv)) d = true ->
  exists r,
    DictTypeChecker__loop int_of_text (BInstance xk) (BInstance xv) d
      errors warnings required = Returns r.
Proof.
  revert errors warnings; induction d as [|[key val] d IH];
    intros errors warnings H.
  - eexists; reflexivity.
  - cbn [forallb snd] in H; apply andb_true_iff in H; destruct H as [Hv H].
    cbn [DictTypeChecker__loop].
    rewrite key_value_check by (intros _ b; discriminate).
    cbn [bind].
    rewrite key_value_check by (intros _; apply finite_not_Inf; exact Hv).
    cbn [bind]; apply IH; exact H.
Qed.

Lemma ListTypeChecker_loop_returns (v : validator) (required : bool)
    (l : list value) (pos : nat) (errors warnings : list message) :
  (forall elem, In elem l -> exists r, v elem required = Returns r) ->
  exists r,
    ListTypeChecker__loop (BChecker v) pos l errors warnings required
    = Returns r.
Proof.
  revert pos errors warnings; induction l as [|elem l IH];
    intros pos errors warnings H.
  - eexists; reflexivity.
  - cbn [ListTypeChecker__loop].
    destruct (H elem (or_introl eq_refl)) as [[errs warns] ->]; cbn [bind].
    apply IH; intros x Hx; apply H; right; exact Hx.
Qed.

Lemma check_field_returns fieldName candidateField validationField keys
    errors warnings required :
  returns_on_finite (expectedValue validationField) ->
  finite candidateField = true ->
  exists r,
    DictFieldChecker__check_field int_of_text fieldName candidateField
      validationField keys errors warnings required = Returns r.
Proof.
  intros Hb Hf; unfold DictFieldChecker__check_field.
  destruct (expectedValue validationField) as [x | v].
  - destruct (negb (isinstance candidateField (type x)));
      [destruct (pytype_eqb (type x) int_t) |]; cbn [bind];
      try (eexists; reflexivity).
    destruct candidateField as [| b | z | z | [m e | | b] | s | l | d |];
      cbn [int bind]; try discriminate; try (eexists; reflexivity).
    destruct (int_of_text s); cbn [bind]; eexists; reflexivity.
  - destruct (Hb candidateField required Hf) as [[errs warns] ->].
    cbn [bind]; eexists; reflexivity.
Qed.

Lemma required_loop_returns fs (candidate : dict value) keys errors
    warnings :
  Forall (fun f => returns_on_finite (expectedValue f)) fs ->
  forallb (fun kv => finite (snd kv)) candidate = true ->
  exists r,
    required_loop int_of_text fs candidate keys errors warnings = Returns r.
Proof.
  intros Hfs; revert candidate errors warnings.
  induction Hfs as [|f fs Hf _ IH]; intros candidate errors warnings Hc.
  - eexists; reflexivity.
  - cbn [required_loop].
    destruct (dict_get candidate (name f)) as [v |] eqn:G; [| apply IH, Hc].
    destruct (check_field_returns (name f) v f keys errors warnings true Hf
                (finite_dict_get _ _ Hc G)) as [[e w] ->].
    cbn [bind]; apply IH, finite_filter, Hc.
Qed.

Lemma remaining_loop_returns od items keys errors warnings :
  (forall k f, dict_get od k = Some f ->
     returns_on_finite (expectedValue f)) ->
  forallb (fun kv => finite (snd kv)) items = true ->
  exists r,
    remaining_loop int_of_text od items keys errors warnings = Returns r.
Proof.
  intros Hod; revert errors warnings.
  induction items as [|[k v] items IH]; intros errors warnings Hi.
  - eexists; reflexivity.
  - cbn [forallb snd] in Hi; apply andb_true_iff in Hi; destruct Hi as [Hv Hi].
    cbn [remaining_loop].
    destruct (dict_get od k) as [f |] eqn:G; [| cbn [bind]; apply IH, Hi].
    destruct (check_field_returns k v f keys errors warnings false
                (Hod _ _ G) Hv) as [[e w] ->].
    cbn [bind]; apply IH, Hi.
Qed.

Lemma bound_fields_return (l : list Field) :
  Forall (fun f : Field =>
            expected_holds
              (fun c => supported c = true ->
                 forall candidate required, finite candidate = true ->
                 exists r,
                   validate int_of_text c candidate required = Returns r)
              (expectedValue f)) l ->
  forallb (fun f : Field =>
             match expectedValue f with
             | Instance _ => true
             | Checker c' => supported c'
             end) l = true ->
  Forall (fun f => returns_on_finite (expectedValue f))
    (map (bind_field int_of_text) l).
Proof.
  induction 1 as [|[n [x | c'] dis] l Hf _ IH]; cbn [forallb map];
    intros Hs; constructor;
    try (apply IH; apply andb_true_iff in Hs; tauto).
  - exact I.
  - apply andb_true_iff in Hs; destruct Hs as [Hs _].
    intros candidate required; apply (Hf Hs).
Qed.

Lemma validate_supported_returns (c : FieldChecker) :
  supported c = true ->
  forall candidate required,
    finite candidate = true ->
    exists r, validate int_of_text c candidate required = Returns r.
Proof.
  induction c as [k v Hk Hv | fields | e He
                  | required optional historical Hr Ho Hh]
    using FieldChecker_nested_ind;
    intros Hs candidate required' Hf;
    cbn [validate]; unfold FieldChecker__validate; cbn [topLevelType];
    (destruct (negb (isinstance candidate _)) eqn:T;
     [eexists; reflexivity |]).
  - destruct k as [xk | ck]; [| discriminate].
    destruct v as [xv | cv]; [| discriminate].
    destruct candidate; try discriminate.
    apply DictTypeChecker_loop_returns; exact Hf.
  - destruct candidate; try discriminate.
    cbn [StringListChecker__validate].
    destruct (negb (name_in s fields)); eexists; reflexivity.
  - destruct candidate; try discriminate.
    cbn [ListTypeChecker__validate].
    destruct e as [x | c'].
    + rewrite ListTypeChecker_instance_loop; eexists; reflexivity.
    + apply ListTypeChecker_loop_returns; intros elem Hin.
      apply (He Hs); cbn [finite] in Hf.
      rewrite forallb_forall in Hf; apply Hf; exact Hin.
  - destruct candidate; try discriminate.
    cbn [supported] in Hs.
    apply andb_true_iff in Hs; destruct Hs as [Hs Hsh].
    apply andb_true_iff in Hs; destruct Hs as [Hsr Hso].
    cbn [finite] in Hf.
    change (exists r,
              DictFieldChecker__validate int_of_text
                (map (bind_field int_of_text) required)
                (make_optional_dict (map (bind_field int_of_text) historical)
                   (map (bind_field int_of_text) optional))
                (PyDict d) required' = Returns r).
    cbn [DictFieldChecker__validate].
    destruct (@required_loop_returns _ d (dict_keys d) [] []
                (bound_fields_return Hr Hsr) Hf) as [[[c e] w] R].
    rewrite R; cbn [bind].
    apply remaining_loop_returns.
    + intros k f G; unfold make_optional_dict in G.
      apply (file_In _ []) in G; destruct G as [G | G]; [| discriminate].
      pose proof (bound_fields_return Hh Hsh) as Bh.
      pose proof (bound_fields_return Ho Hso) as Bo.
      rewrite Forall_forall in Bh, Bo.
      apply in_app_or in G; destruct G as [G | G]; auto.
    + apply required_loop_candidate in R; subst c.
      apply finite_filter; exact Hf.
Qed.

(** X17 ([FieldChecker.validate] and the four [_validate] methods, l.72-82,
    l.111-146, l.164-173, l.198-219, l.279-340): a checker that gives no
    nested checker to a [DictTypeChecker], at any depth, returns its errors
    and warnings on every candidate that holds no infinite float; it raises
    nothing.  The checkers for tracks and for artists are of that kind. *)
Theorem validate_returns (c : FieldChecker) (candidate : value)
    (required : bool) :
  supported c = true ->
  finite candidate = true ->
  exists errors warnings,
    validate int_of_text c candidate required = Returns (errors, warnings).
Proof.
  intros Hs Hf.
  destruct (validate_supported_returns c Hs candidate required Hf)
    as [[e w] H].
  exists e, w; exact H.
Qed.
End Returns.

Lemma validate_returns_witness :
  supported track_fields = true
  /\ supported artist_fields = true
  /\ finite track_example = true
  /\ exists errors warnings,
       validate int_of_ascii track_fields track_example false
       = Returns (errors, warnings).
Proof.
  assert (Hs : supported track_fields = true) by reflexivity.
  assert (Hf : finite track_example = true) by reflexivity.
  split; [exact Hs | split; [reflexivity | split; [exact Hf |]]].
  exact (@validate_returns int_of_ascii track_fields track_example false
           Hs Hf).
Defined.

(** ** What a warning can be *)



Section Warnings.
Variable int_of_text : ustring -> option Z.
Implicit Types (fs : list (Field_ bound)).










End Warnings.


(** ** A run that returns *)

Lemma reader_decode_errors_only (f : list read) :
  nonempty_reads f ->
  forall nextLine, decode_errors_only (safe_file_reader_from nextLine f).
Proof.
  induction 1 as [|r f Hr _ IH]; intros nextLine.
  - destruct nextLine; exact I.
  - destruct r as [s | reason]; [| exact I].
    cbn [safe_file_reader_from].
    destruct (rev (nextLine ++ s)) as [|c t] eqn:E.
    + exfalso; apply Hr.
      apply (f_equal (@rev N)) in E; rewrite rev_involutive in E.
      apply app_eq_nil in E; destruct E as [_ ->]; reflexivity.
    + destruct (existsb (N.eqb c) JSON_UNICODE_PROBLEMS); [apply IH |].
      cbn [decode_errors_only]; apply IH.
Qed.

Lemma blank_free_valid_entry (x : value) :
  blank_free x = true -> valid_entry x = true.
Proof. destruct x; try reflexivity; intros H; exact H. Qed.

Lemma blank_free_values (d : dict value) :
  blank_free (PyDict d) = true ->
  forallb (fun kv => blank_free (snd kv)) d = true.
Proof.
  cbn [blank_free]; rewrite !forallb_forall; intros H kv Hkv.
  apply H, andb_true_iff in Hkv; tauto.
Qed.

Lemma blank_free_dict_get (d : dict value) (k : ustring) (v : value) :
  forallb (fun kv => blank_free (snd kv)) d = true ->
  dict_get d k = Some v -> blank_free v = true.
Proof.
  induction d as [|[k0 v0] d IH]; simpl; [discriminate |].
  intros H G; apply andb_true_iff in H; destruct H as [H0 H].
  destruct (ustr_eqb k0 k); [injection G as <-; exact H0 | exact (IH H G)].
Qed.

Lemma blank_free_filter (p : ustring * value -> bool) (d : dict value) :
  forallb (fun kv => blank_free (snd kv)) d = true ->
  forallb (fun kv => blank_free (snd kv)) (filter p d) = true.
Proof.
  rewrite !forallb_forall; intros H kv Hkv.
  apply filter_In in Hkv; apply H; tauto.
Qed.

Section NoWarning.
Variable int_of_text : ustring -> option Z.
Implicit Types (fs : list (Field_ bound)).

Lemma key_value_no_warning fieldName candidateField b errors warnings
    required e w :
  valid_entry candidateField = true ->
  DictTypeChecker__check_field int_of_text fieldName candidateField b
    errors warnings required = Returns (e, w) ->
  w = warnings.
Proof.
  intros Hv; unfold DictTypeChecker__check_field.
  rewrite Hv, andb_false_r.
  destruct b as [x | v];
    [destruct (negb (isinstance candidateField (type x)));
     [destruct (eq_int0 x);
      [destruct (int int_of_text candidateField) as [z | []] |] |]
    | destruct (v candidateField false) as [r | x]];
    cbn [bind]; try discriminate;
    intros H; injection H as _ <-; reflexivity.
Qed.

Lemma DictTypeChecker_loop_no_warning k v (d : dict value) errors warnings
    required e w :
  blank_free (PyDict d) = true ->
  DictTypeChecker__loop int_of_text k v d errors warnings required
  = Returns (e, w) ->
  w = warnings.
Proof.
  revert errors warnings; induction d as [|[key val] d IH];
    intros errors warnings Hd H.
  - injection H as _ <-; reflexivity.
  - cbn [blank_free forallb fst snd] in Hd.
    apply andb_true_iff in Hd; destruct Hd as [Hkv Hd].
    apply andb_true_iff in Hkv; destruct Hkv as [Hk Hv].
    cbn [DictTypeChecker__loop] in H.
    destruct (DictTypeChecker__check_field int_of_text (U "key")
                (PyUnicode key) k errors warnings required)
      as [[e1 w1] | x] eqn:K; cbn [bind] in H; [| discriminate].
    destruct (DictTypeChecker__check_field int_of_text (U "value") val v
                e1 w1 required) as [[e2 w2] | x] eqn:V; cbn [bind] in H;
      [| discriminate].
    apply (key_value_no_warning _ _ _ _ _ _ Hk) in K.
    apply (key_value_no_warning _ _ _ _ _ _ (blank_free_valid_entry _ Hv))
      in V.
    subst w1 w2; apply (IH _ _ Hd H).
Qed.

Lemma ListTypeChecker_loop_no_warning b (l : list value) pos errors warnings
    required e w :
  warns_nothing b ->
  forallb blank_free l = true ->
  ListTypeChecker__loop b pos l errors warnings required = Returns (e, w) ->
  w = warnings.
Proof.
  intros Hb; revert pos errors warnings; induction l as [|elem l IH];
    intros pos errors warnings Hl H.
  - injection H as _ <-; reflexivity.
  - cbn [forallb] in Hl; apply andb_true_iff in Hl; destruct Hl as [He Hl].
    cbn [ListTypeChecker__loop] in H.
    destruct b as [x | v].
    + destruct (negb (isinstance elem (type x))); cbn [bind] in H;
        apply (IH _ _ _ Hl H).
    + destruct (v elem required) as [[errs warns] | x] eqn:V;
        cbn [bind] in H; [| discriminate].
      rewrite (Hb _ _ _ _ He V), app_nil_r in H.
      apply (IH _ _ _ Hl H).
Qed.

Lemma check_field_no_warning fieldName candidateField validationField keys
    errors warnings required e w :
  warns_nothing (expectedValue validationField) ->
  blank_free candidateField = true ->
  DictFieldChecker__check_field int_of_text fieldName candidateField
    validationField keys errors warnings required = Returns (e, w) ->
  w = warnings.
Proof.
  intros Hb Hc; unfold DictFieldChecker__check_field.
  rewrite (blank_free_valid_entry _ Hc), andb_false_r.
  destruct (expectedValue validationField) as [x | v].
  - destruct (negb (isinstance candidateField (type x)));
      [destruct (pytype_eqb (type x) int_t);
       [destruct (int int_of_text candidateField) as [z | []] |] |];
      cbn [bind]; try discriminate;
      intros H; injection H as _ <-; reflexivity.
  - destruct (v candidateField required) as [[errs warns] | x] eqn:V;
      cbn [bind]; [| discriminate].
    intros H; injection H as _ <-.
    rewrite (Hb _ _ _ _ Hc V); apply app_nil_r.
Qed.

Lemma required_loop_no_warning fs (candidate : dict value) keys errors
    warnings c e w :
  Forall (fun f => warns_nothing (expectedValue f)) fs ->
  forallb (fun kv => blank_free (snd kv)) candidate = true ->
  required_loop int_of_text fs candidate keys errors warnings
  = Returns (c, e, w) ->
  w = warnings.
Proof.
  intros Hfs; revert candidate errors warnings.
  induction Hfs as [|f fs Hf _ IH]; intros candidate errors warnings Hc H.
  - injection H as _ _ <-; reflexivity.
  - cbn [required_loop] in H.
    destruct (dict_get candidate (name f)) as [v |] eqn:G;
      [| apply (IH _ _ _ Hc H)].
    destruct (DictFieldChecker__check_field int_of_text (name f) v f keys
                errors warnings true) as [[e1 w1] | x] eqn:C;
      cbn [bind] in H; [| discriminate].
    apply (check_field_no_warning _ _ _ _ _ _ _ Hf
             (blank_free_dict_get _ _ Hc G)) in C; subst w1.
    apply (IH _ _ _ (blank_free_filter _ _ Hc) H).
Qed.

Lemma remaining_loop_no_warning od (items : dict value) keys errors warnings
    e w :
  (forall k f, dict_get od k = Some f -> warns_nothing (expectedValue f)) ->
  forallb (fun kv => blank_free (snd kv)) items = true ->
  remaining_loop int_of_text od items keys errors warnings = Returns (e, w) ->
  w = warnings.
Proof.
  intros Hod; revert errors warnings.
  induction items as [|[k v] items IH]; intros errors warnings Hi H.
  - injection H as _ <-; reflexivity.
  - cbn [forallb snd] in Hi; apply andb_true_iff in Hi; destruct Hi as [Hv Hi].
    cbn [remaining_loop] in H.
    destruct (dict_get od k) as [f |] eqn:G;
      [| cbn [bind] in H; apply (IH _ _ Hi H)].
    destruct (DictFieldChecker__check_field int_of_text k v f keys
                errors warnings false) as [[e1 w1] | x] eqn:C;
      cbn [bind] in H; [| discriminate].
    apply (check_field_no_warning _ _ _ _ _ _ _ (Hod _ _ G) Hv) in C;
      subst w1.
    apply (IH _ _ Hi H).
Qed.

Lemma bound_expected_warns_nothing (e : expected) :
  expected_holds
    (fun c => forall candidate required e w,
       blank_free candidate = true ->
       validate int_of_text c candidate required = Returns (e, w) ->
       w = []) e ->
  warns_nothing (bind_expected int_of_text e).
Proof. destruct e as [x | c]; [intros _; exact I | intros H; exact H]. Qed.

Lemma bound_fields_warn_nothing (l : list Field) :
  Forall (fun f : Field =>
            expected_holds
              (fun c => forall candidate required e w,
                 blank_free candidate = true ->
                 validate int_of_text c candidate required = Returns (e, w) ->
                 w = [])
              (expectedValue f)) l ->
  Forall (fun f => warns_nothing (expectedValue f))
    (map (bind_field int_of_text) l).
Proof.
  induction 1 as [|f l Hf _ IH]; cbn [map]; constructor; [| exact IH].
  apply bound_expected_warns_nothing; exact Hf.
Qed.

Lemma validate_no_warning (c : FieldChecker) :
  forall candidate required e w,
    blank_free candidate = true ->
    validate int_of_text c candidate required = Returns (e, w) ->
    w = [].
Proof.
  induction c as [k v Hk Hv | fields | e He
                  | required optional historical Hr Ho Hh]
    using FieldChecker_nested_ind;
    intros candidate required' e0 w0 Hb;
    cbn [validate]; unfold FieldChecker__validate; cbn [topLevelType];
    (destruct (negb (isinstance candidate _)) eqn:T;
     [intros H; injection H as _ <-; reflexivity |]).
  - destruct candidate; try discriminate.
    cbn [DictTypeChecker__validate].
    apply DictTypeChecker_loop_no_warning; exact Hb.
  - destruct candidate; try discriminate.
    cbn [StringListChecker__validate].
    destruct (negb (name_in s fields)); intros H; injection H as _ <-;
      reflexivity.
  - destruct candidate; try discriminate.
    cbn [ListTypeChecker__validate].
    apply (@ListTypeChecker_loop_no_warning (bind_expected int_of_text e));
      [apply bound_expected_warns_nothing; exact He | exact Hb].
  - destruct candidate; try discriminate.
    apply blank_free_values in Hb.
    change (DictFieldChecker__validate int_of_text
              (map (bind_field int_of_text) required)
              (make_optional_dict (map (bind_field int_of_text) historical)
                 (map (bind_field int_of_text) optional))
              (PyDict d) required' = Returns (e0, w0) -> w0 = []).
    cbn [DictFieldChecker__validate].
    destruct (required_loop int_of_text
                (map (bind_field int_of_text) required) d (dict_keys d)
                [] []) as [[[c e1] w1] | x] eqn:R; cbn [bind];
      [| discriminate].
    assert (Hc := R); apply required_loop_candidate in Hc.
    apply (@required_loop_no_warning _ _ _ _ _ _ _ _
             (bound_fields_warn_nothing Hr) Hb) in R; subst w1.
    apply remaining_loop_no_warning.
    + intros k f G; unfold make_optional_dict in G.
      apply (file_In _ []) in G; destruct G as [G | G]; [| discriminate].
      pose proof (bound_fields_warn_nothing Hh) as Bh.
      pose proof (bound_fields_warn_nothing Ho) as Bo.
      rewrite Forall_forall in Bh, Bo.
      apply in_app_or in G; destruct G as [G | G]; auto.
    + rewrite Hc; apply blank_free_filter; exact Hb.
Qed.
End NoWarning.

Section Run.
Variable int_of_text : ustring -> option Z.
Variable json_loads : ustring -> value + ustring.
Variable ingestion_fields : FieldChecker.
Variable max_errors : Z.

Lemma loop_never_raises (g : generator) :
  supported ingestion_fields = true ->
  decode_errors_only g ->
  Forall (decodes_plain json_loads) (yields g) ->
  forall count errors lineCount,
  exists e n s,
    _validateFile_loop int_of_text json_loads ingestion_fields max_errors g
      count errors [] lineCount = Returns (e, [], n, s).
Proof.
  intros Hs; induction g as [line rest IH | | x];
    intros Hg Hl count errors lineCount.
  - cbn [yields] in Hl; inversion Hl as [|? ? Hline Hrest]; subst.
    cbn [_validateFile_loop].
    destruct ((0 <? max_errors)%Z
              && (max_errors <=? Z.of_nat (length errors))%Z);
      [eexists; eexists; eexists; reflexivity |].
    destruct (json_loads line) as [candidate | e] eqn:J;
      [| apply (IH Hg Hrest)].
    destruct (Hline candidate J) as [Hf Hb].
    destruct (validate_supported_returns int_of_text ingestion_fields Hs
                candidate true Hf) as [[ve vw] V].
    rewrite V; rewrite (@validate_no_warning int_of_text _ _ _ _ _ Hb V).
    apply (IH Hg Hrest).
  - eexists; eexists; eexists; reflexivity.
  - destruct x; try contradiction; eexists; eexists; eexists; reflexivity.
Qed.

(** X19 ([_validateFile] with [safe_file_reader] and [validate], l.21-34,
    l.72-82, l.342-383): the runs on which nothing is raised.  Let the
    checker give no nested checker to a [DictTypeChecker], let the reads of
    the file never be empty, and let each logical line that [json.loads]
    decodes give a value that holds no infinite float and no empty or
    blank text.  Then [_validateFile] returns, and returns no warning:
    [validate] raises on no line, the loop of l.372-374 over the warnings,
    whose [print] has no counterpart here, runs no turn (the other [print],
    l.352, writes a count in ASCII), and a file that cannot be decoded as
    UTF-8 is caught at l.377. *)
Theorem validateFile_never_raises (input_file : list read) :
  supported ingestion_fields = true ->
  nonempty_reads input_file ->
  Forall (decodes_plain json_loads) (yields (safe_file_reader input_file)) ->
  exists errors lineCount stoppedEarly,
    _validateFile int_of_text json_loads input_file ingestion_fields
      max_errors
    = Returns (errors, [], lineCount, stoppedEarly).
Proof.
  intros Hs Hf Hl; unfold _validateFile.
  apply (@loop_never_raises _ Hs (reader_decode_errors_only Hf []) Hl).
Qed.
End Run.

Lemma validateFile_never_raises_witness :
  supported track_fields = true
  /\ nonempty_reads (budget_file ++ undecodable_file)
  /\ Forall (decodes_plain (loads_only track_line track_example))
       (yields (safe_file_reader (budget_file ++ undecodable_file)))
  /\ exists errors lineCount stoppedEarly,
       _validateFile int_of_ascii (loads_only track_line track_example)
         (budget_file ++ undecodable_file) track_fields 1000
       = Returns (errors, [], lineCount, stoppedEarly).
Proof.
  assert (Hs : supported track_fields = true) by reflexivity.
  assert (Hf : nonempty_reads (budget_file ++ undecodable_file)).
  { unfold nonempty_reads, budget_file, undecodable_file; cbn [app].
    repeat (apply Forall_cons; [discriminate |]); apply Forall_nil. }
  assert (Hl : Forall (decodes_plain (loads_only track_line track_example))
                 (yields (safe_file_reader
                            (budget_file ++ undecodable_file)))).
  { unfold budget_file, undecodable_file, safe_file_reader;
      cbn [safe_file_reader_from yields app rev existsb].
    repeat (apply Forall_cons;
            [intros candidate H; vm_compute in H;
             try discriminate H; injection H as <-;
             split; vm_compute; reflexivity |]);
      apply Forall_nil. }
  split; [exact Hs | split; [exact Hf | split; [exact Hl |]]].
  exact (@validateFile_never_raises int_of_ascii
           (loads_only track_line track_example) track_fields 1000
           (budget_file ++ undecodable_file) Hs Hf Hl).
Defined.

(** ** The order of the items of a record *)

Section AnyOrder.
Variable int_of_text : ustring -> option Z.

Lemma remaining_loop_cons od k v (items : dict value) keys :
  remaining_loop int_of_text od ((k, v) :: items) keys [] []
  = '(e, w) <- remaining_loop int_of_text od [(k, v)] keys [] [] ;;
    extend e w (remaining_loop int_of_text od items keys [] []).
Proof.
  change ((k, v) :: items) with ([(k, v)] ++ items).
  rewrite remaining_loop_app.
  destruct (remaining_loop int_of_text od [(k, v)] keys [] [])
    as [[e w] | x]; cbn [bind]; [apply remaining_loop_frame | reflexivity].
Qed.

Lemma remaining_loop_any_order od (items items' : dict value) keys :
  Permutation items items' ->
  forall e w,
    remaining_loop int_of_text od items keys [] [] = Returns (e, w) ->
    exists e' w',
      remaining_loop int_of_text od items' keys [] [] = Returns (e', w')
      /\ Permutation e e' /\ Permutation w w'.
Proof.
  induction 1 as [| [k v] l l' _ IH | [k1 v1] [k2 v2] l | l l' l'' _ IH1 _ IH2];
    intros e w H.
  - exists e, w; auto.
  - rewrite remaining_loop_cons in H; rewrite remaining_loop_cons.
    destruct (remaining_loop int_of_text od [(k, v)] keys [] [])
      as [[e1 w1] | x]; cbn [bind] in *; [| discriminate].
    destruct (remaining_loop int_of_text od l keys [] [])
      as [[e2 w2] | x]; cbn [extend bind] in H; [| discriminate].
    injection H as <- <-.
    destruct (IH _ _ eq_refl) as [e2' [w2' [-> [Pe Pw]]]].
    exists (e1 ++ e2'), (w1 ++ w2'); cbn [extend bind].
    split; [reflexivity | split; apply Permutation_app_head; assumption].
  - rewrite remaining_loop_cons, (remaining_loop_cons od k1) in H.
    rewrite remaining_loop_cons, (remaining_loop_cons od k2).
    destruct (remaining_loop int_of_text od [(k1, v1)] keys [] [])
      as [[e1 w1] | x1];
      destruct (remaining_loop int_of_text od [(k2, v2)] keys [] [])
        as [[e2 w2] | x2]; cbn [bind extend] in *; try discriminate.
    destruct (remaining_loop int_of_text od l keys [] [])
      as [[e3 w3] | x]; cbn [extend bind] in *; [| discriminate].
    injection H as <- <-.
    exists (e1 ++ e2 ++ e3), (w1 ++ w2 ++ w3).
    split; [reflexivity |].
    rewrite !app_assoc.
    split; apply Permutation_app_tail, Permutation_app_comm.
  - destruct (IH1 _ _ H) as [e1 [w1 [H1 [Pe1 Pw1]]]].
    destruct (IH2 _ _ H1) as [e2 [w2 [H2 [Pe2 Pw2]]]].
    exists e2, w2; split; [exact H2 |].
    split; eapply Permutation_trans; eassumption.
Qed.

(** X20 ([DictFieldChecker._validate], l.307-340): the order in which the
    candidate dictionary gives its items does not matter.  When [validate]
    returns on a dictionary with distinct keys, it returns on the same
    items in any other order too, with the same errors and the same
    warnings up to their order. *)
Theorem validate_any_order (required optional historical : list Field)
    (d d' : dict value) (required' : bool) (e w : list message) :
  NoDup (dict_keys d) ->
  Permutation d d' ->
  validate int_of_text (DictFieldChecker required optional historical)
    (PyDict d) required' = Returns (e, w) ->
  exists e' w',
    validate int_of_text (DictFieldChecker required optional historical)
      (PyDict d') required' = Returns (e', w')
    /\ Permutation e e' /\ Permutation w w'.
Proof.
  intros Hnd Hp.
  rewrite validate_DictFieldChecker.
  unfold FieldChecker__validate, DictFieldChecker__validate.
  change (isinstance (PyDict d) dict_t) with true.
  change (isinstance (PyDict d') dict_t) with true; cbn [negb].
  set (od := make_optional_dict _ _).
  assert (Hk : forall u, name_in u (dict_keys d) = name_in u (dict_keys d')).
  { intros u; apply name_in_Permutation, dict_keys_Permutation, Hp. }
  pose proof (@required_loop_Permutation int_of_text
                (map (bind_field int_of_text) required) d d'
                (dict_keys d) (dict_keys d') [] [] Hnd Hp Hk) as R.
  destruct (required_loop int_of_text _ d (dict_keys d) [] [])
    as [[[c e1] w1] | x]; cbn [bind]; [| discriminate].
  destruct (required_loop int_of_text _ d' (dict_keys d') [] [])
    as [[[c' e1'] w1'] | x']; [| contradiction].
  destruct R as [Hc [<- <-]]; cbn [bind].
  rewrite remaining_loop_frame, (remaining_loop_frame _ od c').
  rewrite (@remaining_loop_keys _ od c (dict_keys d) (dict_keys d') [] [] Hk).
  destruct (remaining_loop int_of_text od c (dict_keys d') [] [])
    as [[e2 w2] | x] eqn:M; cbn [extend bind]; [| discriminate].
  intros H; injection H as <- <-.
  destruct (remaining_loop_any_order od (dict_keys d') Hc M)
    as [e2' [w2' [-> [Pe Pw]]]].
  exists (e1 ++ e2'), (w1 ++ w2'); cbn [extend bind].
  split; [reflexivity | split; apply Permutation_app_head; assumption].
Qed.
End AnyOrder.

Lemma validate_any_order_witness :
  NoDup (dict_keys artist_labelled)
  /\ Permutation artist_labelled (rev artist_labelled)
  /\ validate int_of_ascii artist_fields (PyDict artist_labelled) false
     = Returns ([UnexpectedField (U "label")],
                [InvalidEntry (U "name") (PyUnicode [])])
  /\ exists e' w',
       validate int_of_ascii artist_fields (PyDict (rev artist_labelled))
         false = Returns (e', w')
       /\ Permutation [UnexpectedField (U "label")] e'
       /\ Permutation [InvalidEntry (U "name") (PyUnicode [])] w'.
Proof.
  assert (Hnd : NoDup (dict_keys artist_labelled)).
  { apply (NoDup_count_occ' (list_eq_dec N.eq_dec)).
    intros k Hk; vm_compute in Hk.
    repeat (destruct Hk as [<- | Hk]; [vm_compute; reflexivity |]).
    contradiction. }
  assert (Hp : Permutation artist_labelled (rev artist_labelled))
    by apply Permutation_rev.
  assert (Hv : validate int_of_ascii artist_fields (PyDict artist_labelled)
                 false
               = Returns ([UnexpectedField (U "label")],
                          [InvalidEntry (U "name") (PyUnicode [])]))
    by (vm_compute; reflexivity).
  split; [exact Hnd | split; [exact Hp | split; [exact Hv |]]].
  exact (@validate_any_order int_of_ascii artist_required artist_optional
           artist_historical artist_labelled (rev artist_labelled) false
           _ _ Hnd Hp Hv).
Defined.

(** ** The records a [DictFieldChecker] accepts *)

Lemma disallowed_errors_nil (n : ustring) (dis keys : list ustring) :
  disallowed_errors n dis keys = []
  <-> Forall (fun u => name_in u keys = false) dis.
Proof.
  unfold disallowed_errors; induction dis as [|u dis IH]; cbn [filter map].
  - split; [constructor | reflexivity].
  - destruct (name_in u keys) eqn:E; cbn [map].
    + split; [discriminate | intros H; inversion H; congruence].
    + rewrite IH; split; [constructor; assumption |].
      intros H; inversion H; assumption.
Qed.

Section Accepts.
Variable int_of_text : ustring -> option Z.
Implicit Types (fs : list (Field_ bound)).

(** X22 ([DictFieldChecker._check_field], l.279-305): [_check_field]
    passes a field, that is returns without adding an error, exactly when
    the value passes for the expected value (it is an instance of the type
    of the example, or the example is an [int] and [int] converts the value;
    or the nested checker returns no error on it) and none of the names the
    field disallows is a key of the candidate. *)
Theorem check_field_accepts (fieldName : ustring) (candidateField : value)
    (validationField : Field_ bound) (keys : list ustring)
    (required : bool) :
  field_accepts int_of_text fieldName candidateField validationField keys
    required
  <-> value_accepts int_of_text (expectedValue validationField)
        candidateField required
      /\ Forall (fun unallowed => name_in unallowed keys = false)
           (disallowedFields validationField).
Proof.
  unfold field_accepts, value_accepts, DictFieldChecker__check_field.
  rewrite <- disallowed_errors_nil with (n := name validationField).
  destruct (expectedValue validationField) as [x | v].
  - destruct (isinstance candidateField (type x)) eqn:I; cbn [negb].
    + cbn [bind]; rewrite disallowed_loop_app; cbn [app].
      split.
      * intros [w H]; injection H as -> _; auto.
      * intros [_ ->]; eexists; reflexivity.
    + destruct (pytype_eqb (type x) int_t) eqn:T.
      * destruct candidateField as [| b | z | z | [m e | | b] | s | l | d |];
          cbn [int converts bind]; try destruct (int_of_text s);
          cbn [bind]; rewrite ?disallowed_loop_app; cbn [app];
          (split;
           [ intros [w H]; try discriminate; injection H as H _;
             try discriminate; rewrite H; auto
           | intros [[F | [_ F]] D]; try discriminate;
             rewrite D; eexists; reflexivity ]).
      * cbn [bind]; rewrite disallowed_loop_app; cbn [app]; split.
        -- intros [w H]; discriminate.
        -- intros [[F | [F _]] _]; discriminate.
  - destruct (v candidateField required) as [[errs warns] | x];
      cbn [bind]; rewrite ?disallowed_loop_app.
    + split.
      * intros [w H]; injection H as H _.
        apply app_eq_nil in H; destruct H as [H ->].
        apply map_eq_nil in H; subst errs; split; [eauto | reflexivity].
      * intros [[w H] ->]; injection H as -> _; eexists; reflexivity.
    + split; [intros [w H]; discriminate | intros [[w H] _]; discriminate].
Qed.

Lemma required_loop_accepts_iff fs (candidate : dict value) keys :
  NoDup (map (@name _) fs) ->
  (exists c w,
      required_loop int_of_text fs candidate keys [] [] = Returns (c, [], w))
  <-> (forall f, In f fs ->
         exists v, dict_get candidate (name f) = Some v
                   /\ field_accepts int_of_text (name f) v f keys true).
Proof.
  intros Hnd; revert candidate.
  induction fs as [|f fs IH]; intros candidate.
  - split; [intros _ f [] | intros _; eexists; eexists; reflexivity].
  - inversion Hnd as [|? ? Hf Hfs]; subst.
    cbn [required_loop].
    destruct (dict_get candidate (name f)) as [v |] eqn:G.
    + destruct (DictFieldChecker__check_field int_of_text (name f) v f keys
                  [] [] true) as [[e1 w1] | x] eqn:C; cbn [bind].
      * rewrite required_loop_frame.
        split.
        -- intros [c [w H]].
           destruct (required_loop int_of_text fs _ keys [] [])
             as [[[c2 e2] w2] | x] eqn:R; cbn [extend3 bind] in H;
             [| discriminate].
           injection H as _ He _.
           apply app_eq_nil in He; destruct He as [-> ->].
           intros g [<- | Hg].
           ++ exists v; split; [exact G | exists w1; exact C].
           ++ destruct (proj1 (IH Hfs _) (ex_intro _ c2 (ex_intro _ w2 R))
                          g Hg) as [vg [Gg Ag]].
              exists vg; split; [| exact Ag].
              rewrite dict_get_remove in Gg.
              destruct (ustr_eqb (name g) (name f)); [discriminate | exact Gg].
        -- intros H.
           destruct (H f (or_introl eq_refl)) as [v' [G' [w' A]]].
           rewrite G in G'; injection G' as <-.
           rewrite C in A; injection A as -> _.
           destruct (proj2 (IH Hfs (dict_remove candidate (name f))))
             as [c2 [w2 R]].
           { intros g Hg.
             destruct (H g (or_intror Hg)) as [vg [Gg Ag]].
             exists vg; split; [| exact Ag].
             rewrite dict_get_remove.
             destruct (ustr_eqb (name g) (name f)) eqn:E0; [| exact Gg].
             apply ustr_eqb_eq in E0; exfalso; apply Hf; rewrite <- E0.
             apply in_map; exact Hg. }
           rewrite R; cbn [extend3 bind]; eexists; eexists; reflexivity.
      * split; [intros [c [w H]]; discriminate |].
        intros H; destruct (H f (or_introl eq_refl)) as [v' [G' [w' A]]].
        rewrite G in G'; injection G' as <-; rewrite C in A; discriminate.
    + rewrite required_loop_frame; split.
      * intros [c [w H]].
        destruct (required_loop int_of_text fs _ keys [] [])
          as [[[c2 e2] w2] | x]; simpl in H; discriminate.
      * intros H; destruct (H f (or_introl eq_refl)) as [v' [G' _]].
        congruence.
Qed.

Lemma remaining_loop_accepts_iff od (items : dict value) keys :
  (exists w,
      remaining_loop int_of_text od items keys [] [] = Returns ([], w))
  <-> Forall (fun kv =>
                exists f, dict_get od (fst kv) = Some f
                          /\ field_accepts int_of_text (fst kv) (snd kv) f
                               keys false) items.
Proof.
  induction items as [|[k v] items IH].
  - split; [constructor | intros _; eexists; reflexivity].
  - rewrite remaining_loop_cons; cbn [remaining_loop].
    destruct (dict_get od k) as [f |] eqn:G.
    + destruct (DictFieldChecker__check_field int_of_text k v f keys
                  [] [] false) as [[e1 w1] | x] eqn:C;
        cbn [bind remaining_loop].
      * split.
        -- intros [w H].
           destruct (remaining_loop int_of_text od items keys [] [])
             as [[e2 w2] | x] eqn:R; cbn [extend bind] in H;
             [| discriminate].
           injection H as He _.
           apply app_eq_nil in He; destruct He as [-> ->].
           constructor; [| apply IH; eauto].
           exists f; split; [exact G | exists w1; exact C].
        -- intros H; inversion H as [|? ? [f' [G' [w' A]]] Hrest]; subst.
           cbn [fst snd] in G', A.
           rewrite G in G'; injection G' as <-.
           rewrite C in A; injection A as -> _.
           apply IH in Hrest; destruct Hrest as [w2 ->].
           cbn [extend bind]; eexists; reflexivity.
      * split; [intros [w H]; discriminate |].
        intros H; inversion H as [|? ? [f' [G' [w' A]]] _]; subst.
        cbn [fst snd] in G', A.
        rewrite G in G'; injection G' as <-; rewrite C in A; discriminate.
    + cbn [bind remaining_loop app]; split.
      * intros [w H].
        destruct (remaining_loop int_of_text od items keys [] [])
          as [[e2 w2] | x]; simpl in H; discriminate.
      * intros H; inversion H as [|? ? [f' [G' _]] _]; subst.
        cbn [fst] in G'; congruence.
Qed.

(** X21 ([DictFieldChecker._validate], l.307-340): how the two loops
    compose.  A checker whose required fields have distinct names accepts a
    dictionary exactly when each required name is a key whose value
    [_check_field] passes as required, and each item under another key has
    that key in [optional_dict] and a value that [_check_field] passes as
    not required. *)
Theorem DictFieldChecker_accepts_iff
    (required optional historical : list Field) (d : dict value)
    (required' : bool) :
  NoDup (map (@name _) required) ->
  accepts int_of_text (DictFieldChecker required optional historical)
    (PyDict d) required'
  <-> (forall f, In f required ->
         exists v, dict_get d (name f) = Some v
                   /\ field_accepts int_of_text (name f) v
                        (bind_field int_of_text f) (dict_keys d) true)
      /\ (forall k v, In (k, v) d -> ~ In k (map (@name _) required) ->
            exists f,
              dict_get
                (make_optional_dict (map (bind_field int_of_text) historical)
                   (map (bind_field int_of_text) optional)) k = Some f
              /\ field_accepts int_of_text k v f (dict_keys d) false).
Proof.
  intros Hnd; unfold accepts.
  rewrite validate_DictFieldChecker; unfold FieldChecker__validate.
  cbn [isinstance type issubclass pytype_eqb negb DictFieldChecker__validate].
  set (od := make_optional_dict _ _).
  set (fs := map (bind_field int_of_text) required).
  assert (Hfs : NoDup (map (@name _) fs))
    by (unfold fs; rewrite bind_field_names; exact Hnd).
  pose proof (@required_loop_accepts_iff fs d (dict_keys d) Hfs) as RQ.
  assert (A : (forall f, In f fs ->
                 exists v, dict_get d (name f) = Some v
                           /\ field_accepts int_of_text (name f) v f
                                (dict_keys d) true)
              <-> (forall f, In f required ->
                     exists v, dict_get d (name f) = Some v
                               /\ field_accepts int_of_text (name f) v
                                    (bind_field int_of_text f) (dict_keys d)
                                    true)).
  { unfold fs; split.
    - intros H f Hf; apply (H (bind_field int_of_text f)), in_map, Hf.
    - intros H f Hf; apply in_map_iff in Hf; destruct Hf as [g [<- Hg]].
      apply (H g Hg). }
  assert (B : forall c,
             c = filter (fun kv => negb (name_in (fst kv)
                                           (map (@name _) required))) d ->
             Forall (fun kv =>
                       exists f, dict_get od (fst kv) = Some f
                                 /\ field_accepts int_of_text (fst kv)
                                      (snd kv) f (dict_keys d) false) c
             <-> (forall k v, In (k, v) d ->
                    ~ In k (map (@name _) required) ->
                    exists f, dict_get od k = Some f
                              /\ field_accepts int_of_text k v f
                                   (dict_keys d) false)).
  { intros c ->; rewrite Forall_forall; split.
    - intros H k v Hin Hout; apply (H (k, v)), filter_In.
      split; [exact Hin |]; cbn [fst].
      destruct (name_in k (map (@name _) required)) eqn:N; [| reflexivity].
      apply name_in_In in N; contradiction.
    - intros H [k v] Hkv; apply filter_In in Hkv; destruct Hkv as [Hin N].
      apply (H k v Hin); cbn [fst] in N; intros Hk.
      apply name_in_In in Hk; rewrite Hk in N; discriminate. }
  rewrite <- A, <- RQ.
  destruct (required_loop int_of_text fs d (dict_keys d) [] [])
    as [[[c e1] w1] | x] eqn:R; cbn [bind].
  - assert (Hc := R); apply required_loop_candidate in Hc.
    unfold fs in Hc; rewrite bind_field_names in Hc.
    rewrite <- (B c Hc), <- remaining_loop_accepts_iff.
    rewrite remaining_loop_frame.
    destruct (remaining_loop int_of_text od c (dict_keys d) [] [])
      as [[e2 w2] | x]; cbn [extend bind].
    + split.
      * intros [w H]; injection H as He _.
        apply app_eq_nil in He; destruct He as [-> ->].
        split; eexists; try eexists; reflexivity.
      * intros [[c' [w' H]] [w'' H']].
        injection H as _ -> _; injection H' as -> _.
        eexists; reflexivity.
    + split; [intros [w H]; discriminate | intros [_ [w H]]; discriminate].
  - split; [intros [w H]; discriminate |].
    intros [[c [w H]] _]; discriminate.
Qed.

End Accepts.

Lemma DictFieldChecker_accepts_iff_witness :
  NoDup (map (@name _) artist_required)
  /\ (accepts int_of_ascii artist_fields artist_example false
      <-> (forall f, In f artist_required ->
             exists v, dict_get artist_items (name f) = Some v
                       /\ field_accepts int_of_ascii (name f) v
                            (bind_field int_of_ascii f)
                            (dict_keys artist_items) true)
          /\ (forall k v, In (k, v) artist_items ->
                ~ In k (map (@name _) artist_required) ->
                exists f,
                  dict_get
                    (make_optional_dict
                       (map (bind_field int_of_ascii) artist_historical)
                       (map (bind_field int_of_ascii) artist_optional)) k
                  = Some f
                  /\ field_accepts int_of_ascii k v f
                       (dict_keys artist_items) false)).
Proof.
  assert (Hnd : NoDup (map (@name _) artist_required)).
  { apply (NoDup_count_occ' (list_eq_dec N.eq_dec)).
    intros k Hk; vm_compute in Hk.
    repeat (destruct Hk as [<- | Hk]; [vm_compute; reflexivity |]).
    contradiction. }
  split; [exact Hnd |].
  exact (@DictFieldChecker_accepts_iff int_of_ascii artist_required
           artist_optional artist_historical artist_items false Hnd).
Defined.

(** ** The description of a schema *)

Lemma ustr_leb_total (a b : ustring) :
  ustr_leb a b = true \/ ustr_leb b a = true.
Proof.
  revert b; induction a as [|x a IH]; intros [|y b]; simpl; auto.
  destruct (N.ltb_spec x y), (N.ltb_spec y x); auto; lia.
Qed.

Lemma ustr_leb_antisym (a b : ustring) :
  ustr_leb a b = true -> ustr_leb b a = true -> a = b.
Proof.
  revert b; induction a as [|x a IH]; intros [|y b]; simpl;
    try reflexivity; try discriminate.
  destruct (N.ltb_spec x y), (N.ltb_spec y x); try discriminate; try lia.
  intros H1 H2; f_equal; [lia | apply IH; assumption].
Qed.

Lemma ustr_leb_trans (a b c : ustring) :
  ustr_leb a b = true -> ustr_leb b c = true -> ustr_leb a c = true.
Proof.
  revert b c; induction a as [|x a IH]; intros [|y b] [|z c]; simpl;
    try reflexivity; try discriminate.
  destruct (N.ltb_spec x y), (N.ltb_spec y z), (N.ltb_spec y x),
    (N.ltb_spec z y), (N.ltb_spec x z), (N.ltb_spec z x);
    try discriminate; try reflexivity; try lia.
  apply IH.
Qed.

Section SortedByName.
Variable E : Type.
Implicit Types (x y : Field_ E) (l : list (Field_ E)).

Lemma insert_by_name_Permutation x l :
  Permutation (insert_by_name x l) (x :: l).
Proof.
  induction l as [|y l IH]; simpl; [reflexivity |].
  destruct (ustr_leb (name x) (name y)); [reflexivity |].
  rewrite IH; apply perm_swap.
Qed.

Lemma sorted_by_name_Permutation l : Permutation (sorted_by_name l) l.
Proof.
  induction l as [|x l IH]; simpl; [reflexivity |].
  rewrite insert_by_name_Permutation; apply perm_skip, IH.
Qed.

Lemma insert_by_name_sorted x l :
  StronglySorted (@name_le E) l ->
  StronglySorted (@name_le E) (insert_by_name x l).
Proof.
  induction 1 as [|y l Hl IH Hy]; simpl.
  - constructor; constructor.
  - destruct (ustr_leb (name x) (name y)) eqn:L.
    + constructor; [constructor; assumption |].
      constructor; [exact L |].
      revert Hy; apply Forall_impl; intros z Hz.
      apply (ustr_leb_trans _ _ _ L Hz).
    + constructor; [exact IH |].
      rewrite Forall_forall; intros z Hz.
      apply (Permutation_in _ (insert_by_name_Permutation x l)) in Hz.
      destruct Hz as [<- | Hz].
      * destruct (ustr_leb_total (name x) (name y)) as [T | T];
          [congruence | exact T].
      * rewrite Forall_forall in Hy; apply Hy, Hz.
Qed.

Lemma sorted_by_name_sorted l : StronglySorted (@name_le E) (sorted_by_name l).
Proof.
  induction l as [|x l IH]; simpl;
    [constructor | apply insert_by_name_sorted, IH].
Qed.

Lemma same_name_same_field x y l :
  NoDup (map (@name E) l) -> In x l -> In y l -> name x = name y -> x = y.
Proof.
  induction l as [|z l IH]; simpl; intros Hnd Hx Hy N; [contradiction |].
  inversion Hnd as [|? ? Hz Hl]; subst.
  destruct Hx as [-> | Hx], Hy as [-> | Hy]; auto.
  - exfalso; apply Hz; rewrite N; apply in_map, Hy.
  - exfalso; apply Hz; rewrite <- N; apply in_map, Hx.
Qed.

Lemma sorted_unique l l' :
  StronglySorted (@name_le E) l -> StronglySorted (@name_le E) l' ->
  Permutation l l' -> NoDup (map (@name E) l) -> l = l'.
Proof.
  revert l'; induction l as [|x l IH]; intros l' Hs Hs' Hp Hnd.
  - apply Permutation_nil in Hp; congruence.
  - destruct l' as [|y l'];
      [apply Permutation_sym, Permutation_nil in Hp; discriminate |].
    assert (Exy : x = y).
    { assert (Hy : In y (x :: l))
        by (apply (Permutation_in _ (Permutation_sym Hp)); left; reflexivity).
      assert (Hx : In x (y :: l'))
        by (apply (Permutation_in _ Hp); left; reflexivity).
      destruct Hy as [Hy | Hy]; [exact Hy |].
      destruct Hx as [Hx | Hx]; [symmetry; exact Hx |].
      apply StronglySorted_inv in Hs, Hs'.
      destruct Hs as [_ Fx], Hs' as [_ Fy].
      rewrite Forall_forall in Fx, Fy.
      apply (@same_name_same_field x y (x :: l) Hnd);
        [left; reflexivity | right; exact Hy |].
      apply ustr_leb_antisym; [apply (Fx _ Hy) | apply (Fy _ Hx)]. }
    subst y; f_equal.
    apply StronglySorted_inv in Hs, Hs'.
    inversion Hnd; subst.
    apply IH; try tauto.
    apply (Permutation_cons_inv Hp).
Qed.

Lemma sorted_by_name_any_order l l' :
  Permutation l l' -> NoDup (map (@name E) l) ->
  sorted_by_name l = sorted_by_name l'.
Proof.
  intros Hp Hnd; apply sorted_unique; try apply sorted_by_name_sorted.
  - rewrite !sorted_by_name_Permutation; exact Hp.
  - apply (Permutation_NoDup
             (Permutation_map (@name E)
                (Permutation_sym (sorted_by_name_Permutation l)))).
    exact Hnd.
Qed.
End SortedByName.

Section StringifyFacts.
Variable repr : list ustring -> ustring.

Lemma stringify_DictFieldChecker required optional historical indent :
  stringify repr (DictFieldChecker required optional historical) indent
  = _indent (U "{") (indent - 1)
      ++ _stringify_fields (map (show repr) required) true indent
      ++ _stringify_fields (map (show repr) optional) false indent
      ++ _indent (U "} ") (indent - 1).
Proof. cbn [stringify]; rewrite <- !app_assoc; reflexivity. Qed.

Lemma show_names (l : list Field) :
  map (@name _) (map (show repr) l) = map (@name _) l.
Proof. rewrite map_map; reflexivity. Qed.

(** X23 ([DictFieldChecker.stringify] and [_stringify_fields], l.244-270):
    the description of a schema does not depend on the order in which its
    fields are declared, nor on its historical fields: two checkers whose
    required fields, of distinct names, are the same up to their order, and
    whose optional fields are so too, have the same description at every
    indentation. *)
Theorem stringify_any_declaration_order
    (required required' optional optional' historical historical'
       : list Field) (indent : Z) :
  Permutation required required' ->
  Permutation optional optional' ->
  NoDup (map (@name _) required) ->
  NoDup (map (@name _) optional) ->
  stringify repr (DictFieldChecker required optional historical) indent
  = stringify repr (DictFieldChecker required' optional' historical') indent.
Proof.
  intros Pr Po Nr No; rewrite !stringify_DictFieldChecker.
  unfold _stringify_fields.
  rewrite (@sorted_by_name_any_order _ (map (show repr) required)
             (map (show repr) required'))
    by (try apply Permutation_map; try rewrite show_names; assumption).
  rewrite (@sorted_by_name_any_order _ (map (show repr) optional)
             (map (show repr) optional'))
    by (try apply Permutation_map; try rewrite show_names; assumption).
  reflexivity.
Qed.
End StringifyFacts.

Lemma stringify_any_declaration_order_witness :
  Permutation track_required (rev track_required)
  /\ Permutation track_optional (rev track_optional)
  /\ NoDup (map (@name _) track_required)
  /\ NoDup (map (@name _) track_optional)
  /\ stringify (fun _ => []) track_fields 1
     = stringify (fun _ => []) track_fields_reordered 1.
Proof.
  assert (Pr : Permutation track_required (rev track_required))
    by apply Permutation_rev.
  assert (Po : Permutation track_optional (rev track_optional))
    by apply Permutation_rev.
  assert (Nr : NoDup (map (@name _) track_required)).
  { apply (NoDup_count_occ' (list_eq_dec N.eq_dec)).
    intros k Hk; vm_compute in Hk.
    repeat (destruct Hk as [<- | Hk]; [vm_compute; reflexivity |]).
    contradiction. }
  assert (No : NoDup (map (@name _) track_optional)).
  { apply (NoDup_count_occ' (list_eq_dec N.eq_dec)).
    intros k Hk; vm_compute in Hk.
    repeat (destruct Hk as [<- | Hk]; [vm_compute; reflexivity |]).
    contradiction. }
  split; [exact Pr | split; [exact Po | split; [exact Nr |
    split; [exact No |]]]].
  exact (@stringify_any_declaration_order (fun _ => []) track_required
           (rev track_required) track_optional (rev track_optional)
           track_historical [] 1 Pr Po Nr No).
Defined.
